(** * KnCliConfig: resolution and installation of the [kn] command line tool

    A shallow embedding of [KnCliConfig] (the tool table loader
    [loadMetadata], the version probe [getVersion], the candidate search
    [selectTool] and the resolver/installer [detectOrDownload]) together
    with the properties the specification states about them.

    Conventions.
    - A JavaScript string is a [string]: a sequence of code units below 256.
    - [undefined] and [null] are [None] wherever the source only tests them
      for truthiness or against [undefined].
    - An [async] function is a computation over the state of the process and
      of its host; it either resolves with a value or rejects. Calls run one
      after the other.
    - What the source imports from other modules and from npm packages is a
      parameter ([Host]); [Demo] gives parameters to run the definitions on.

    The definitions come first: the text primitives and the version pattern,
    computations, JavaScript objects in a heap, the process and its host,
    [KnCliConfig] itself, the notions the properties are stated with, the
    static tool table with [resetConfiguration], and the commands of
    [Component] that decide something by themselves.
    The properties follow, grouped by function. *)

From Stdlib Require Import Ascii String List Bool Arith Lia.
From stdpp Require Import base option list strings gmap pretty.

Set Default Proof Using "Type".
Open Scope string_scope.
Open Scope list_scope.

(** ** JavaScript text primitives used by the source *)

Module Text.

Definition chars (s : string) : list ascii := list_ascii_of_string s.
Definition text (l : list ascii) : string := string_of_list_ascii l.

Definition code (c : ascii) : nat := nat_of_ascii c.

(** [[0-9]] *)
Definition is_digit (c : ascii) : bool :=
  ((48 <=? code c) && (code c <=? 57))%nat.

(** [[0-9a-zA-Z-]] *)
Definition is_ident (c : ascii) : bool :=
  is_digit c
  || ((97 <=? code c) && (code c <=? 122))%nat
  || ((65 <=? code c) && (code c <=? 90))%nat
  || (code c =? 45)%nat.

(** [\s], and the characters [String.prototype.trim] strips: white space
    and line terminators (tab, LF, VT, FF, CR, space, NBSP below 256). *)
Definition is_space (c : ascii) : bool :=
  (((9 <=? code c) && (code c <=? 13)) || (code c =? 32) || (code c =? 160))%nat.

(** The longest prefix whose characters satisfy [p], and what follows. *)
Fixpoint span (p : ascii -> bool) (l : list ascii) : list ascii * list ascii :=
  match l with
  | c :: l' =>
      if p c then let '(m, r) := span p l' in (c :: m, r) else ([], l)
  | [] => ([], [])
  end.

(** [X+] for a character class [X], greedy. *)
Definition many1 (p : ascii -> bool) (l : list ascii)
  : option (list ascii * list ascii) :=
  match span p l with
  | ([], _) => None
  | (m, r) => Some (m, r)
  end.

(** A literal. *)
Fixpoint lit (pat l : list ascii) : option (list ascii) :=
  match pat, l with
  | [], _ => Some l
  | p :: pat', c :: l' => if decide (p = c) then lit pat' l' else None
  | _ :: _, [] => None
  end.

(** [String.prototype.trim] *)
Definition trim (l : list ascii) : list ascii :=
  rev (snd (span is_space (rev (snd (span is_space l))))).

(** [String.prototype.split('\n')] *)
Fixpoint split_lines (l : list ascii) : list (list ascii) :=
  match l with
  | [] => [[]]
  | c :: l' =>
      if decide (c = "010"%char) then [] :: split_lines l'
      else match split_lines l' with
           | cur :: rest => (c :: cur) :: rest
           | [] => [[c]]
           end
  end.

(** [String.prototype.endsWith] *)
Definition endsWith (s suffix : string) : bool :=
  bool_decide (is_Some (lit (rev (chars suffix)) (rev (chars s)))).

(** JavaScript truthiness of a value that is a string or [undefined]/[null]:
    only a non-empty string is truthy. *)
Definition truthy (v : option string) : bool :=
  match v with
  | Some s => negb (bool_decide (s = ""))
  | None => false
  end.

End Text.

(** ** The version pattern of [getVersion]

    [Version:(\s+)v((([0-9]+)\.([0-9]+)\.([0-9]+)(?:-(P))?)(?:\+(P))?).*]
    with [P = [0-9a-zA-Z-]+(?:\.[0-9a-zA-Z-]+)*].  The pattern is not
    anchored and ends in [.*], so a match attempt at a position succeeds as
    soon as the part before [.*] does, and every quantifier keeps its greedy
    choice: the character that has to follow a repetition ([v] after white
    space, a dot after digits) is never in the repeated class. *)

Module VersionPattern.
Import Text.

(** [P]: the text is known to start with a character of the class. The
    repetition [(?:\.[0-9a-zA-Z-]+)*] continues over a dot only when a
    class character follows it. *)
Fixpoint dotted (l : list ascii) : list ascii * list ascii :=
  match l with
  | c :: l' =>
      if is_ident c then let '(m, r) := dotted l' in (c :: m, r)
      else if decide (c = "."%char) then
        match l' with
        | d :: _ =>
            if is_ident d then let '(m, r) := dotted l' in (c :: m, r)
            else ([], l)
        | [] => ([], l)
        end
      else ([], l)
  | [] => ([], [])
  end.

(** [(?:sep(P))?]: the optional pre-release ([sep] is [-]) or build
    ([sep] is [+]) part, separator included. *)
Definition tagged (sep : ascii) (l : list ascii) : list ascii * list ascii :=
  match l with
  | c :: (d :: _) as l' =>
      if decide (c = sep) then
        if is_ident d then let '(m, r) := dotted l' in (c :: m, r)
        else ([], l)
      else ([], l)
  | _ => ([], l)
  end.

(** [([0-9]+)\.([0-9]+)\.([0-9]+)] *)
Definition core (l : list ascii) : option (list ascii * list ascii) :=
  '(major, l1) ← many1 is_digit l;
  l2 ← lit ["."%char] l1;
  '(minor, l3) ← many1 is_digit l2;
  l4 ← lit ["."%char] l3;
  '(patch, l5) ← many1 is_digit l4;
  Some (major ++ "."%char :: minor ++ "."%char :: patch, l5).

(** A match attempt at the start of [l]; the result is capture group 2. *)
Definition match_here (l : list ascii) : option (list ascii) :=
  l1 ← lit (chars "Version:") l;
  '(_, l2) ← many1 is_space l1;
  l3 ← lit ["v"%char] l2;
  '(xyz, l4) ← core l3;
  let '(pre, l5) := tagged "-"%char l4 in
  let '(build, _) := tagged "+"%char l5 in
  Some (xyz ++ pre ++ build).

(** [version.exec(value)[2]]: the leftmost position with a match. *)
Fixpoint exec (l : list ascii) : option (list ascii) :=
  match match_here l with
  | Some v => Some v
  | None => match l with
            | _ :: l' => exec l'
            | [] => None
            end
  end.

(** [stdout.trim().split('\n').filter(v => v.match(version))
          .map(v => version.exec(v)[2])]: [filter] keeps the lines on
    which [exec] is not null and [map] takes group 2 of each. *)
Definition toolVersion (stdout : string) : list string :=
  omap (fun line => text <$> exec line) (split_lines (trim (chars stdout))).

End VersionPattern.

(** ** Computations that may throw

    A computation over a state of type [S] ends with a value or with an
    exception, and leaves a state in either case. For an [async] function
    the two ends are the promise resolved and the promise rejected. *)

Inductive Error :=
| TypeError
| SyntaxError
| DownloadFailed
| NoSuchFile (path : string)
| UnzipFailed.

Inductive Outcome (A : Type) :=
| Resolved (a : A)
| Rejected (e : Error).
Arguments Resolved {A} a.
Arguments Rejected {A} e.

Definition Comp (S A : Type) : Type := S -> Outcome A * S.

Definition ret {S A} (a : A) : Comp S A := fun s => (Resolved a, s).

Definition bind {S A B} (c : Comp S A) (k : A -> Comp S B) : Comp S B :=
  fun s =>
    match c s with
    | (Resolved a, s') => k a s'
    | (Rejected e, s') => (Rejected e, s')
    end.

Notation "x <- c ;; k" := (bind c (fun x => k))
  (at level 100, c at next level, right associativity).
Notation "c ;;; k" := (bind c (fun _ => k))
  (at level 100, right associativity).

(** ** JavaScript objects

    [loadMetadata] copies an object and then updates the copy in place, so
    objects live in a heap and a value refers to an object by its address.
    An object is the list of its own properties in insertion order
    (JavaScript enumerates integer-like keys first; nothing below depends on
    the order). Property reads find own properties only: the keys read by
    the source are [platform], a key of the tool table and the name of the
    running platform. A number is an integer: the source only tests values
    for truthiness. *)

Module Js.

Inductive value :=
| VUndefined
| VNull
| VBool (b : bool)
| VNumber (n : Z)
| VString (s : string)
| VObject (address : nat).

Abbreviation object := (list (string * value)).
Abbreviation heap := (list (list (string * value))).

(** A JSON text, by its structure. *)
#[local] Unset Elimination Schemes.
Inductive json :=
| JNull
| JBool (b : bool)
| JNumber (n : Z)
| JString (s : string)
| JObject (members : list (string * json)).
#[local] Set Elimination Schemes.

Definition truthy (v : value) : bool :=
  match v with
  | VUndefined | VNull => false
  | VBool b => b
  | VNumber n => negb (n =? 0)%Z
  | VString s => negb (bool_decide (s = ""))
  | VObject _ => true
  end.

Definition jtruthy (j : json) : bool :=
  match j with
  | JNull => false
  | JBool b => b
  | JNumber n => negb (n =? 0)%Z
  | JString s => negb (bool_decide (s = ""))
  | JObject _ => true
  end.

(** *** Property lists *)

Fixpoint lookup_prop {A} (k : string) (o : list (string * A)) : option A :=
  match o with
  | [] => None
  | (k', a) :: o' => if decide (k' = k) then Some a else lookup_prop k o'
  end.

(** [o[k] = a]: an existing property keeps its place, a new one goes last. *)
Fixpoint set_prop {A} (k : string) (a : A) (o : list (string * A))
  : list (string * A) :=
  match o with
  | [] => [(k, a)]
  | (k', a') :: o' =>
      if decide (k' = k) then (k, a) :: o' else (k', a') :: set_prop k a o'
  end.

(** [delete o[k]] *)
Fixpoint delete_prop {A} (k : string) (o : list (string * A))
  : list (string * A) :=
  match o with
  | [] => []
  | (k', a') :: o' =>
      if decide (k' = k) then delete_prop k o' else (k', a') :: delete_prop k o'
  end.

(** [Object.assign] on property lists: the properties of the source are
    set one after the other. *)
Definition assign_props {A} (o source : list (string * A)) : list (string * A) :=
  foldl (fun acc p => set_prop (fst p) (snd p) acc) o source.

(** The own enumerable properties of a string: its characters, by index. *)
Definition string_own (s : string) : list (string * string) :=
  imap (fun i c => (pretty i, String c EmptyString)) (Text.chars s).

(** *** Reading the heap *)

(** The own enumerable properties of a value. *)
Definition own (h : heap) (v : value) : object :=
  match v with
  | VObject r => default [] (h !! r)
  | VString s => prod_map id VString <$> string_own s
  | _ => []
  end.

(** [v[k]]; [None] when the read throws. *)
Definition member (h : heap) (v : value) (k : string) : option value :=
  match v with
  | VUndefined | VNull => None
  | VString s =>
      Some (if decide (k = "length") then VNumber (Z.of_nat (String.length s))
            else default VUndefined (lookup_prop k (own h v)))
  | _ => Some (default VUndefined (lookup_prop k (own h v)))
  end.

(** The same reads on a JSON text; [undefined] is [None]. *)
Definition jown (j : json) : list (string * json) :=
  match j with
  | JObject members => members
  | JString s => prod_map id JString <$> string_own s
  | _ => []
  end.

Definition jmember (j : json) (k : string) : option json :=
  match j with
  | JString s =>
      if decide (k = "length") then Some (JNumber (Z.of_nat (String.length s)))
      else lookup_prop k (jown j)
  | _ => lookup_prop k (jown j)
  end.

(** *** [JSON.stringify] and [JSON.parse] *)

(** The text of [v], reading at most [depth] objects deep. A property whose
    value is [undefined] is left out. [None]: there is no text, because [v]
    is [undefined] or lies deeper than [depth]. *)
Fixpoint stringify (depth : nat) (h : heap) (v : value) : option json :=
  match v with
  | VUndefined => None
  | VNull => Some JNull
  | VBool b => Some (JBool b)
  | VNumber n => Some (JNumber n)
  | VString s => Some (JString s)
  | VObject r =>
      match depth with
      | 0 => None
      | S depth' =>
          o ← h !! r;
          JObject <$>
            (fix members (o : object) : option (list (string * json)) :=
               match o with
               | [] => Some []
               | (k, VUndefined) :: o' => members o'
               | (k, v') :: o' =>
                   j ← stringify depth' h v';
                   rest ← members o';
                   Some ((k, j) :: rest)
               end) o
      end
  end.

(** [JSON.stringify(v)]. A path through more objects than the heap holds
    passes twice through one of them: the structure is circular and
    [JSON.stringify] throws a [TypeError]. The text of [undefined] is
    [undefined], which [JSON.parse] refuses with a [SyntaxError]. *)
Definition JSON_stringify (v : value) : Comp heap json :=
  fun h =>
    match v with
    | VUndefined => (Rejected SyntaxError, h)
    | _ => match stringify (S (length h)) h v with
           | Some j => (Resolved j, h)
           | None => (Rejected TypeError, h)
           end
    end.

(** [JSON.parse]: every object of the text is a new object of the heap. *)
Fixpoint parse (j : json) (h : heap) : value * heap :=
  match j with
  | JNull => (VNull, h)
  | JBool b => (VBool b, h)
  | JNumber n => (VNumber n, h)
  | JString s => (VString s, h)
  | JObject members =>
      let '(o, h') :=
        (fix parse_members (ms : list (string * json)) (h : heap) : object * heap :=
           match ms with
           | [] => ([], h)
           | (k, j') :: ms' =>
               let '(v, h1) := parse j' h in
               let '(o, h2) := parse_members ms' h1 in
               ((k, v) :: o, h2)
           end) members h in
      (VObject (length h'), h' ++ [o])
  end.

Definition JSON_parse (j : json) : Comp heap value :=
  fun h => let '(v, h') := parse j h in (Resolved v, h').

(** *** Statements of the source *)

(** [v[k]], as an expression. *)
Definition get (v : value) (k : string) : Comp heap value :=
  fun h =>
    match member h v k with
    | Some x => (Resolved x, h)
    | None => (Rejected TypeError, h)
    end.

(** The keys [for (const k in v)] runs over. *)
Definition for_in (v : value) : Comp heap (list string) :=
  fun h => (Resolved (fst <$> own h v), h).

(** [Object.assign(target, source)] *)
Definition Object_assign (target source : value) : Comp heap unit :=
  fun h =>
    match target with
    | VObject r =>
        match h !! r with
        | Some o => (Resolved tt, <[r := assign_props o (own h source)]> h)
        | None => (Resolved tt, h)
        end
    | VUndefined | VNull => (Rejected TypeError, h)
    | _ => (Resolved tt, h)
    end.

(** [delete target[k]] *)
Definition delete_member (target : value) (k : string) : Comp heap unit :=
  fun h =>
    match target with
    | VObject r =>
        match h !! r with
        | Some o => (Resolved tt, <[r := delete_prop k o]> h)
        | None => (Resolved tt, h)
        end
    | VUndefined | VNull => (Rejected TypeError, h)
    | _ => (Resolved tt, h)
    end.

(** The body of a [for] loop, once for each key. *)
Fixpoint for_each {S} (keys : list string) (body : string -> Comp S unit)
  : Comp S unit :=
  match keys with
  | [] => ret tt
  | k :: keys' => body k ;;; for_each keys' body
  end.

End Js.

(** ** The process and its host *)

(** One entry of [KnCliConfig.tools], after [loadMetadata]. [location] is
    the resolved-tool cache: [undefined] until the tool has been resolved. *)
Record Tool := mkTool {
  description : string;
  version : string;
  versionRange : string;
  versionRangeLabel : string;
  url : string;
  sha256sum : string;
  dlFileName : string;
  cmdFileName : string;
  filePrefix : string;
  location : option string
}.

(** What the source takes from its platform and from the modules it
    imports: [Platform], [path], [shelljs], [Cli], [semver], [hasha] and
    [Archive]. None of them is defined in the repository files at hand, so
    each is a parameter of the development. The file system they see is a
    finite map from the path of a regular file to its bytes. *)
Record Host := mkHost {
  OS : string;
  getUserHomePath : string;
  path_resolve : list string -> string;
  (** [shelljs.which(cmd)]: the path found, or null *)
  which_lookup : gmap string string -> string -> option string;
  (** [Cli.getInstance().execute(command)] always resolves; this is the
      [stdout] of its result *)
  cli_stdout : gmap string string -> string -> option string;
  (** [semver.satisfies] on a version that is a non-empty string *)
  semver_satisfies : string -> string -> bool;
  (** the SHA-256 digest of a file's bytes, in hexadecimal *)
  sha256 : string -> string;
  (** [Archive.unzip(file, extractTo, prefix)]: the file system after the
      extraction, or [None] when the promise is rejected *)
  archive_unzip : gmap string string -> string -> string -> string
                  -> option (gmap string string)
}.

(** What the process does to its host, in order. *)
Inductive Event :=
| EvWhich (cmd : string)
| EvExists (path : string)
| EvExecute (command : string)
| EvPrompt (message : string) (items : list string)
| EvEnsureDir (dir : string)
| EvDownload (from to : string)
| EvHash (file : string)
| EvRemove (path : string)
| EvUnzip (file extractTo prefix : string)
| EvChmod (path : string)
| EvOpen (uri : string).

(** The state an [async] function of [KnCliConfig] runs in: the static
    [tools] table, the files of the host, what the user will answer to the
    coming prompts ([None]: the prompt is dismissed; no answer left counts
    as dismissed), what the network will deliver to the coming downloads
    ([None]: the download fails; nothing left counts as a failure), and the
    events so far. *)
Record World := mkWorld {
  tools : gmap string Tool;
  fs : gmap string string;
  ui : list (option string);
  net : list (option string);
  trace : list Event
}.

(** An [async] function of [KnCliConfig]. *)
Definition Async (A : Type) : Type := Comp World A.

Definition log (e : Event) (w : World) : World :=
  mkWorld (tools w) (fs w) (ui w) (net w) (trace w ++ [e]).

Definition set_fs (f : gmap string string) (w : World) : World :=
  mkWorld (tools w) f (ui w) (net w) (trace w).

Definition set_ui (u : list (option string)) (w : World) : World :=
  mkWorld (tools w) (fs w) u (net w) (trace w).

Definition set_net (n : list (option string)) (w : World) : World :=
  mkWorld (tools w) (fs w) (ui w) n (trace w).

Definition set_tools (t : gmap string Tool) (w : World) : World :=
  mkWorld t (fs w) (ui w) (net w) (trace w).

Definition set_location (l : option string) (t : Tool) : Tool :=
  mkTool (description t) (version t) (versionRange t) (versionRangeLabel t)
         (url t) (sha256sum t) (dlFileName t) (cmdFileName t) (filePrefix t) l.

(** [fs.existsSync] as a function of the files: no file has the empty path. *)
Definition file_exists (f : gmap string string) (path : string) : bool :=
  negb (bool_decide (path = "")) && bool_decide (is_Some (f !! path)).

(** [semver.satisfies(version, range)]: [Range.test] answers false for a
    version that is not truthy. *)
Definition satisfies (host : Host) (v : option string) (range : string) : bool :=
  match v with
  | Some s => Text.truthy v && semver_satisfies host s range
  | None => false
  end.

Definition dquote : string := String (ascii_of_nat 34) EmptyString.

Module KnCliConfig.

(** *** [loadMetadata] *)

(** Lines 25 to 32: the body of the loop, for the key [object]. The source
    evaluates [reqs[object]] anew wherever it stands. *)
Definition loadMetadata_step (reqs : Js.value) (platform object : string)
  : Comp Js.heap unit :=
  entry <- Js.get reqs object ;;
  table <- Js.get entry "platform" ;;
  if Js.truthy table then
    entry <- Js.get reqs object ;;
    table <- Js.get entry "platform" ;;
    overrides <- Js.get table platform ;;
    if Js.truthy overrides then
      target <- Js.get reqs object ;;
      entry <- Js.get reqs object ;;
      table <- Js.get entry "platform" ;;
      source <- Js.get table platform ;;
      Js.Object_assign target source ;;;
      entry <- Js.get reqs object ;;
      Js.delete_member entry "platform"
    else
      Js.delete_member reqs object
  else ret tt.

Definition loadMetadata (requirements : Js.value) (platform : string)
  : Comp Js.heap Js.value :=
  text <- Js.JSON_stringify requirements ;;
  reqs <- Js.JSON_parse text ;;
  keys <- Js.for_in requirements ;;
  Js.for_each keys (loadMetadata_step reqs platform) ;;;
  ret reqs.

Section WithHost.
Context (host : Host).

(** *** Host primitives *)

Definition existsSync (path : string) : Async bool :=
  fun w => (Resolved (file_exists (fs w) path), log (EvExists path) w).

Definition execute (command : string) : Async (option string) :=
  fun w => (Resolved (cli_stdout host (fs w) command), log (EvExecute command) w).

Definition which (cmd : string) : Async (option string) :=
  fun w => (Resolved (which_lookup host (fs w) cmd), log (EvWhich cmd) w).

Definition showInformationMessage (message : string) (items : list string)
  : Async (option string) :=
  fun w => (Resolved (mjoin (head (ui w))),
            log (EvPrompt message items) (set_ui (tail (ui w)) w)).

Definition ensureDirSync (dir : string) : Async unit :=
  fun w => (Resolved tt, log (EvEnsureDir dir) w).

Definition removeSync (path : string) : Async unit :=
  fun w => (Resolved tt, log (EvRemove path) (set_fs (delete path (fs w)) w)).

Definition hashaFromFile (file : string) : Async string :=
  fun w =>
    match fs w !! file with
    | Some bytes => (Resolved (sha256 host bytes), log (EvHash file) w)
    | None => (Rejected (NoSuchFile file), log (EvHash file) w)
    end.

Definition unzip (file extractTo prefix : string) : Async unit :=
  fun w =>
    match archive_unzip host (fs w) file extractTo prefix with
    | Some f => (Resolved tt, log (EvUnzip file extractTo prefix) (set_fs f w))
    | None => (Rejected UnzipFailed, log (EvUnzip file extractTo prefix) w)
    end.

Definition chmodSync (path : string) : Async unit :=
  fun w =>
    match fs w !! path with
    | Some _ => (Resolved tt, log (EvChmod path) w)
    | None => (Rejected (NoSuchFile path), log (EvChmod path) w)
    end.

Definition executeCommandOpen (uri : string) : Async unit :=
  fun w => (Resolved tt, log (EvOpen uri) w).

(** [KnCliConfig.tools[cmd]], about to be dereferenced. *)
Definition tool (cmd : string) : Async Tool :=
  fun w =>
    match tools w !! cmd with
    | Some t => (Resolved t, w)
    | None => (Rejected TypeError, w)
    end.

(** [KnCliConfig.tools[cmd].location = l] *)
Definition assignLocation (cmd : string) (l : string) : Async unit :=
  fun w =>
    match tools w !! cmd with
    | Some t => (Resolved tt, set_tools (<[cmd := set_location (Some l) t]> (tools w)) w)
    | None => (Rejected TypeError, w)
    end.

(** *** [getVersion] *)

(** The command line [getVersion] executes. *)
Definition versionCommand (location : string) : string :=
  dquote +:+ location +:+ dquote +:+ " version".

(** Lines 149 to 160: [detectedVersion] from the [stdout] of the command. *)
Definition firstVersion (stdout : option string) : option string :=
  match stdout with
  | Some out =>
      if Text.truthy stdout then head (VersionPattern.toolVersion out)
      else None
  | None => None
  end.

Definition getVersion (location : string) : Async (option string) :=
  found <- existsSync location ;;
  if found : bool then
    stdout <- execute (versionCommand location) ;;
    ret (firstVersion stdout)
  else ret None.

(** *** [selectTool] *)

Fixpoint selectTool (locations : list (option string)) (versionRange : string)
  : Async (option string) :=
  match locations with
  | [] => ret None
  | location :: rest =>
      match location with
      | Some l =>
          if Text.truthy location then
            detected <- getVersion l ;;
            if satisfies host detected versionRange then ret (Some l)
            else selectTool rest versionRange
          else selectTool rest versionRange
      | None => selectTool rest versionRange
      end
  end.

(** *** [detectOrDownload] *)

Definition vsKn : string := path_resolve host [getUserHomePath host; ".vs-kn"].

Definition toolCacheLocation (t : Tool) : string :=
  path_resolve host [getUserHomePath host; ".vs-kn"; cmdFileName t].

Definition toolDlLocation (t : Tool) : string :=
  path_resolve host [getUserHomePath host; ".vs-kn"; dlFileName t].

Definition installRequest (t : Tool) : string :=
  "Download and install v" +:+ version t.

(** [DownloadUtil.downloadFile] under [withProgress]: what the network
    delivers is written to the download location. *)
Definition downloadFile (from to : string) (delivered : option string)
  (remaining : list (option string)) : Async unit :=
  fun w =>
    match delivered with
    | Some bytes =>
        (Resolved tt,
         log (EvDownload from to) (set_fs (<[to := bytes]> (fs w)) (set_net remaining w)))
    | None => (Rejected DownloadFailed, log (EvDownload from to) (set_net remaining w))
    end.

(** The [do ... while (action === 'Download again')] loop; the result is
    [action] when the loop is left. Every turn starts a download, so the
    loop is a recursion over what the network still has to deliver. *)
Fixpoint downloadLoop (t : Tool) (deliveries : list (option string))
  : Async (option string) :=
  match deliveries with
  | [] => downloadFile (url t) (toolDlLocation t) None [] ;;; ret None
  | delivered :: remaining =>
      downloadFile (url t) (toolDlLocation t) delivered remaining ;;;
      sha256sum_ <- hashaFromFile (toolDlLocation t) ;;
      if bool_decide (sha256sum_ ≠ sha256sum t) then
        removeSync (toolDlLocation t) ;;;
        action <- showInformationMessage
                    ("Checksum for downloaded " +:+ description t +:+ " v"
                     +:+ version t +:+ " is not correct.")
                    ["Download again"; "Cancel"] ;;
        if bool_decide (action = Some "Download again")
        then downloadLoop t remaining
        else ret action
      else ret None
  end.

(** Lines 105 to 124: what follows the loop when [action] is not ['Cancel']. *)
Definition extractAndInstall (t : Tool) : Async (option string) :=
  (if Text.endsWith (toolDlLocation t) ".zip"
      || Text.endsWith (toolDlLocation t) ".tar.gz"
   then unzip (toolDlLocation t) vsKn (filePrefix t)
   else if Text.endsWith (toolDlLocation t) ".gz"
   then unzip (toolDlLocation t) (toolCacheLocation t) (filePrefix t)
   else ret tt) ;;;
  removeSync (toolDlLocation t) ;;;
  (if bool_decide (OS host ≠ "win32") then chmodSync (toolCacheLocation t)
   else ret tt) ;;;
  ret (Some (toolCacheLocation t)).

(** Lines 60 to 133: the branch taken when no candidate was selected. *)
Definition requestDownload (t : Tool) : Async (option string) :=
  response <- showInformationMessage
                ("Cannot find " +:+ description t +:+ " "
                 +:+ versionRangeLabel t +:+ ".")
                [installRequest t; "Help"; "Cancel"] ;;
  ensureDirSync vsKn ;;;
  if bool_decide (response = Some (installRequest t)) then
    action <- (fun w => downloadLoop t (net w) w) ;;
    if bool_decide (action ≠ Some "Cancel") then extractAndInstall t
    else ret None
  else if bool_decide (response = Some "Help") then
    executeCommandOpen
      "https://github.com/talamer/vscode-knative/blob/master/README.md#requirements" ;;;
    ret None
  else ret None.

(** Lines 45 to 133: the search among the candidates, then the request to
    download; the result is [toolLocation] at line 134. *)
Definition locate (cmd : string) (t : Tool) : Async (option string) :=
  whichLocation <- which cmd ;;
  let toolLocations := [whichLocation; Some (toolCacheLocation t)] in
  selected <- selectTool toolLocations (versionRange t) ;;
  match selected with
  | Some l => ret (Some l)
  | None => requestDownload t
  end.

(** Lines 134 to 136: [if (toolLocation) tools[cmd].location = toolLocation]. *)
Definition recordLocation (cmd : string) (toolLocation : option string) : Async unit :=
  match toolLocation with
  | Some l => if Text.truthy toolLocation then assignLocation cmd l else ret tt
  | None => ret tt
  end.

Definition detectOrDownload (cmd : string) : Async (option string) :=
  t <- tool cmd ;;
  match location t with
  | Some l => ret (Some l)
  | None =>
      toolLocation <- locate cmd t ;;
      recordLocation cmd toolLocation ;;;
      ret toolLocation
  end.

End WithHost.
End KnCliConfig.

(** ** A host and a process to run the definitions on

    Linux; [which] looks into [/usr/bin]; a file's bytes are what it prints
    when run with [version]; a range is an exact version; the digest of
    [bytes] is written [sha256:bytes]; an archive holds one file, its own
    bytes, extracted as [kn] into a directory or as the target file. *)

Module Demo.

Definition join (parts : list string) : string := String.concat "/" parts.

Definition demo_unzip (f : gmap string string) (file extractTo prefix : string)
  : option (gmap string string) :=
  bytes ← f !! file;
  Some (<[(if Text.endsWith file ".tar.gz" || Text.endsWith file ".zip"
           then extractTo +:+ "/kn" else extractTo) := bytes]> f).

Definition demo_stdout (f : gmap string string) (command : string) : option string :=
  snd <$> List.find
            (fun '(path, _) => bool_decide (command = KnCliConfig.versionCommand path))
            (map_to_list f).

Definition linux : Host :=
  mkHost "linux" "/home/dev" join
         (fun f cmd => if file_exists f ("/usr/bin/" +:+ cmd)
                       then Some ("/usr/bin/" +:+ cmd) else None)
         demo_stdout
         String.eqb
         (fun bytes => "sha256:" +:+ bytes)
         demo_unzip.

Definition win32 : Host :=
  mkHost "win32" "C:/Users/dev" join
         (fun _ _ => None) demo_stdout String.eqb
         (fun bytes => "sha256:" +:+ bytes) demo_unzip.

Definition kn : Tool :=
  mkTool "Knative CLI tool" "0.13.1" "0.13.1" "v0.13.1"
         "https://example.org/kn-linux-amd64.gz" "sha256:Version: v0.13.1"
         "kn.gz" "kn" "" None.

Definition table : gmap string Tool := {[ "kn" := kn ]}.

(** The same tool where the download is the executable itself. *)
Definition kn_exe : Tool :=
  mkTool "Knative CLI tool" "0.13.1" "0.13.1" "v0.13.1"
         "https://example.org/kn-windows-amd64.exe" "sha256:Version: v0.13.1"
         "kn-windows-amd64.exe" "kn.exe" "" None.

(** The same tool, delivered as a development build that prints a date
    where a release prints its version. *)
Definition kn_dev : Tool :=
  mkTool "Knative CLI tool" "0.13.1" "0.13.1" "v0.13.1"
         "https://example.org/kn-linux-amd64.gz" "sha256:Version: v20200311-local"
         "kn.gz" "kn" "" None.

Definition start (files : list (string * string)) (answers deliveries : list (option string))
  : World :=
  mkWorld table (list_to_map files) answers deliveries [].

(** A tool table in the shape of [kn-cli-config.json]: [kn] has a table of
    platforms, [odo] has one without Linux, [oc] has none. *)
Definition entries : list (string * Js.json) :=
    [("kn", Js.JObject
       [("description", Js.JString "Knative CLI tool");
        ("versionRange", Js.JString "0.13.1");
        ("cmdFileName", Js.JString "kn");
        ("platform", Js.JObject
           [("win32", Js.JObject
               [("dlFileName", Js.JString "kn-windows-amd64.exe");
                ("cmdFileName", Js.JString "kn.exe")]);
            ("linux", Js.JObject
               [("dlFileName", Js.JString "kn-linux-amd64");
                ("url", Js.JString "https://example.org/kn-linux-amd64")])])]);
     ("odo", Js.JObject
       [("description", Js.JString "OpenShift Do");
        ("platform", Js.JObject
           [("darwin", Js.JObject [("dlFileName", Js.JString "odo.tar.gz")])])]);
     ("oc", Js.JObject [("description", Js.JString "OpenShift client")])].

Definition config : Js.json := Js.JObject entries.

(** The heap after [require('./kn-cli-config.json')], and [configData]. *)
Definition configHeap : Js.heap := snd (Js.parse config []).
Definition configData : Js.value := fst (Js.parse config []).

End Demo.

(** ** Notions the properties are stated with *)

(** [w'] comes from [w] by reading the host only: the tool table, the
    files, the pending answers and deliveries are those of [w], and the
    trace of [w] has been extended. *)
Definition reads_only (w w' : World) : Prop :=
  tools w' = tools w /\ fs w' = fs w /\ ui w' = ui w /\ net w' = net w
  /\ exists events, trace w' = trace w ++ events.

(** The candidate [c] is a path whose detected version, as [getVersion]
    resolves it in [w], satisfies [range]. A null candidate has no detected
    version. *)
Definition acceptable (host : Host) (w : World) (range : string)
  (c : option string) : Prop :=
  exists l v, c = Some l
    /\ fst (KnCliConfig.getVersion host l w) = Resolved v
    /\ satisfies host v range = true.

(** The computation [c] leaves the tool table alone and only adds to the
    trace. *)
Definition steady {A} (c : Async A) : Prop :=
  forall w, tools (snd (c w)) = tools w
            /\ exists events, trace (snd (c w)) = trace w ++ events.


(** The download loop is left by the answer ['Cancel']: every delivery has
    a wrong digest, and the user answers ['Download again'] some number of
    times and then ['Cancel']. *)
Inductive cancelled_after_mismatch (host : Host) (t : Tool)
  : list (option string) -> list (option string) -> Prop :=
| mismatch_cancel bytes deliveries answers :
    sha256 host bytes <> sha256sum t ->
    cancelled_after_mismatch host t
      (Some "Cancel" :: answers) (Some bytes :: deliveries)
| mismatch_again bytes deliveries answers :
    sha256 host bytes <> sha256sum t ->
    cancelled_after_mismatch host t answers deliveries ->
    cancelled_after_mismatch host t
      (Some "Download again" :: answers) (Some bytes :: deliveries).

(** The install flow does not complete, by the user's choice: the first
    prompt is answered ['Cancel'] or ['Help'] or is dismissed, or the
    download is requested and then cancelled at a checksum prompt. *)
Definition declines (host : Host) (t : Tool) (w : World) : Prop :=
  mjoin (head (ui w)) = Some "Cancel"
  \/ mjoin (head (ui w)) = Some "Help"
  \/ mjoin (head (ui w)) = None
  \/ exists answers,
       ui w = Some (KnCliConfig.installRequest t) :: answers
       /\ cancelled_after_mismatch host t answers (net w).

(** *** The tool table, as the specification describes its loading *)

(** What becomes of one entry of the tool table. *)
Inductive resolution :=
| Kept (entry : Js.json)
| Removed
| Fails.

(** The overrides merged into the entry, and the [platform] key removed. *)
Definition merge_overrides (entry overrides : Js.json) : Js.json :=
  match entry with
  | Js.JObject members =>
      Js.JObject (Js.delete_prop "platform"
                    (Js.assign_props members (Js.jown overrides)))
  | _ => entry
  end.

(** An entry with a platform table is merged with the overrides of the
    current platform, and is removed when the table has none; an entry
    without a table stays as it is. Reading a property of [null] throws. *)
Definition resolve_entry (platform : string) (entry : Js.json) : resolution :=
  match entry with
  | Js.JNull => Fails
  | _ =>
      match Js.jmember entry "platform" with
      | Some table =>
          if Js.jtruthy table then
            match Js.jmember table platform with
            | Some overrides =>
                if Js.jtruthy overrides
                then Kept (merge_overrides entry overrides)
                else Removed
            | None => Removed
            end
          else Kept entry
      | None => Kept entry
      end
  end.

(** The entries of the result, in the order of the table; [None] when an
    entry fails. *)
Fixpoint resolve_members (platform : string) (members : list (string * Js.json))
  : option (list (string * Js.json)) :=
  match members with
  | [] => Some []
  | (k, entry) :: rest =>
      match resolve_entry platform entry with
      | Kept entry' => cons (k, entry') <$> resolve_members platform rest
      | Removed => resolve_members platform rest
      | Fails => None
      end
  end.

(** The properties [o] hold, key by key, values that [R] relates to the
    members [ms]. *)
Definition aligned {A B} (R : A -> B -> Prop)
  (ms : list (string * A)) (o : list (string * B)) : Prop :=
  Forall2 (fun p q => fst q = fst p /\ R (snd p) (snd q)) ms o.

(** The value [v] is the JSON text [j] in the heap [h], held in objects
    whose addresses lie in [lo, hi), the members of an object below the
    object itself. *)
#[local] Unset Elimination Schemes.
Inductive repr (h : Js.heap) : nat -> nat -> Js.json -> Js.value -> Prop :=
| repr_null lo hi : repr h lo hi Js.JNull Js.VNull
| repr_bool lo hi b : repr h lo hi (Js.JBool b) (Js.VBool b)
| repr_number lo hi n : repr h lo hi (Js.JNumber n) (Js.VNumber n)
| repr_string lo hi s : repr h lo hi (Js.JString s) (Js.VString s)
| repr_object lo hi r o members :
    lo <= r < hi ->
    h !! r = Some o ->
    Forall2 (fun p q => fst q = fst p /\ repr h lo r (snd p) (snd q)) members o ->
    repr h lo hi (Js.JObject members) (Js.VObject r).
#[local] Set Elimination Schemes.

(** The properties [o] hold the members [ms], one after the other in
    adjacent ranges of addresses from [lo] to [hi]. *)
Inductive ranged (h : Js.heap) : nat -> nat -> list (string * Js.json) -> Js.object -> Prop :=
| ranged_nil lo : ranged h lo lo [] []
| ranged_cons lo mid hi k j v ms o :
    lo <= mid ->
    repr h lo mid j v ->
    ranged h mid hi ms o ->
    ranged h lo hi ((k, j) :: ms) ((k, v) :: o).


(** The members of an object, parsed one after the other: the inner loop
    of [Js.parse]. *)
Fixpoint parse_members (ms : list (string * Js.json)) (h : Js.heap)
  : Js.object * Js.heap :=
  match ms with
  | [] => ([], h)
  | (k, j') :: ms' =>
      let '(v, h1) := Js.parse j' h in
      let '(o, h2) := parse_members ms' h1 in
      ((k, v) :: o, h2)
  end.

(** The value [v] is not an object that exists below the address [base]. *)
Definition fresh (base : nat) (v : Js.value) : Prop :=
  match v with
  | Js.VObject r => base <= r
  | _ => True
  end.



(** Where the members of a value lie: below the object, for an object. *)
Definition inner (v : Js.value) (hi : nat) : nat :=
  match v with
  | Js.VObject r => r
  | _ => hi
  end.

(** *** The shape of a semantic version *)

(** One or more digits. *)
Definition numeric (l : list ascii) : Prop :=
  l <> [] /\ Forall (fun c => Text.is_digit c = true) l.



(** ** The configuration of the process

    [KnCliConfig.tools] is a static field: it is initialised with
    [loadMetadata(configData, Platform.OS)], [detectOrDownload] writes the
    [location] of a tool into it, and [resetConfiguration] loads it again.
    Here the field holds a JavaScript value and the objects are those of
    the heap. *)

Module Configuration.

Record Process := mkProcess {
  objects : Js.heap;
  toolTable : Js.value
}.


(** [target[k] = v] *)
Definition assign_member (target : Js.value) (k : string) (v : Js.value)
  : Comp Js.heap unit :=
  fun h =>
    match target with
    | Js.VObject r =>
        match h !! r with
        | Some o => (Resolved tt, <[r := Js.set_prop k v o]> h)
        | None => (Resolved tt, h)
        end
    | Js.VUndefined | Js.VNull => (Rejected TypeError, h)
    | _ => (Resolved tt, h)
    end.

(** Line 135: [KnCliConfig.tools[cmd].location = toolLocation]. *)
Definition recordLocation (cmd toolLocation : string) : Comp Process unit :=
  fun p =>
    match (entry <- Js.get (toolTable p) cmd ;;
           assign_member entry "location" (Js.VString toolLocation)) (objects p) with
    | (out, h) => (out, mkProcess h (toolTable p))
    end.


End Configuration.

(** The members of an object, turned into text one after the other: the
    inner loop of [Js.stringify]. *)
Fixpoint stringify_members (depth : nat) (h : Js.heap) (o : Js.object)
  : option (list (string * Js.json)) :=
  match o with
  | [] => Some []
  | (k, Js.VUndefined) :: o' => stringify_members depth h o'
  | (k, v') :: o' =>
      j ← Js.stringify depth h v';
      rest ← stringify_members depth h o';
      Some ((k, j) :: rest)
  end.

(** The value [v] is the text [j] in the heap [h]. *)
Definition text_of (h : Js.heap) (v : Js.value) (j : Js.json) : Prop :=
  Js.stringify (S (length h)) h v = Some j.






(** ** Events of the search and of the installation *)

(** The event [e] is the examination of a candidate of [locations] in a
    process with the files [files]: the lookup of a non-empty path of the
    list, or the execution of the version command of such a path at which
    a file exists. *)
Definition examines (locations : list (option string))
  (files : gmap string string) (e : Event) : Prop :=
  exists l, Some l ∈ locations /\ l <> ""
    /\ (e = EvExists l
        \/ (e = EvExecute (KnCliConfig.versionCommand l)
            /\ file_exists files l = true)).

(** The events of the detection: looking a command up on the path, looking
    a file up, executing a version command. *)
Definition is_probe (e : Event) : Prop :=
  match e with
  | EvWhich _ | EvExists _ | EvExecute _ => True
  | _ => False
  end.

(** The events that are no part of an installation: the detection, a
    prompt, the creation of the tool directory, the opening of a page. *)
Definition is_harmless (e : Event) : Prop :=
  match e with
  | EvDownload _ _ | EvHash _ | EvRemove _ | EvUnzip _ _ _ | EvChmod _ => False
  | _ => True
  end.

(** What can follow a version in a line without being part of it: the end
    of the line, or a character that is no digit and opens neither a
    pre-release nor a build part. *)
Definition ends_version (rest : list ascii) : Prop :=
  match rest with
  | [] => True
  | c :: _ => Text.is_digit c = false /\ c <> "-"%char /\ c <> "+"%char
  end.

(** ** [Component]: the commands on a component

    The part of [component.ts] that decides something by itself: the port
    list of [linkComponent], the migration check of [push] with
    [handleMigratedComponent] and [undeploy], and the stored push command
    of [setPushCmd], [getPushCmd] and [lastPush]. What the file imports
    (the [kn] command line, [KnAPI], [getKnativeCmdData] of [KnativeItem],
    [JSON.parse] on the output of a command) is a parameter
    ([Workbench]); the user answers prompts in the order of [answers]. *)

Module Component.

(** What is thrown, or what a promise is rejected with. *)
Inductive Thrown :=
| Exception (e : Error)
| ErrorOf (message : string)
| Reason (message : string).

Inductive Result (A : Type) :=
| Done (a : A)
| Failed (t : Thrown).
Arguments Done {A} a.
Arguments Failed {A} t.

(** A [KnativeTreeObject] that stands for a component:
    [application] is [getParent().getName()], [project] is
    [getParent().getParent().getName()], [contextPath] is
    [contextPath.fsPath] ([None]: there is no [contextPath]). *)
Record TreeObject := mkTreeObject {
  getName : string;
  application : string;
  project : string;
  contextPath : option string;
  contextValue : string
}.

(** The value stored under ['PUSH'] in the global state. *)
Record PushCmd := mkPushCmd {
  pushCmd : string;
  pushPath : string
}.

(** What a command does that can be seen from outside, in order. *)
Inductive Action :=
| Executed (command : string) (cwd : option string)
| InTerminal (command : string) (cwd : string)
| Warned (message : string) (items : list string)
| Informed (message : string) (items : list string)
| QuickPick (items : list string) (placeHolder : string)
| QuickPickItems (items : list (string * string)) (placeHolder : string)
| Opened (uri : string)
| Command (name : string) (component : string)
| Progressed (title : string)
| Undeployed (component : string)
| Marked (component : string) (value : string)
| Refreshed (component : string).

(** An item of the URL list of a component: [status.state],
    [spec.protocol], [spec.host] and [spec.port]. *)
Record UrlItem := mkUrlItem {
  state : string;
  protocol : string;
  host : string;
  port : string
}.

(** [JSON.parse(stdout).items]: [null], [undefined] or an array. *)
Inductive UrlItems :=
| UrlNull
| UrlUndefined
| UrlList (items : list UrlItem).


Record Workbench := mkWorkbench {
  (** [Component.kn.execute(command, cwd)]: the [stdout] of the result, or
      what the promise is rejected with *)
  kn_execute : string -> option string -> Thrown + string;
  (** [Component.kn.undeployComponent(component)]: [None] when it resolves *)
  kn_undeployComponent : TreeObject -> option Thrown;
  (** [Component.getKnativeCmdData(context, placeholders..., filter)] *)
  getKnativeCmdData : option TreeObject -> list string -> (TreeObject -> bool)
                      -> Thrown + option TreeObject;
  (** [JSON.parse(text)], of which the source tests the truthiness only;
      [None]: the text is no JSON text *)
  JSON_parse_truthy : string -> option bool;
  (** an error in a template literal *)
  render : Thrown -> string;
  (** [KnAPI.pushComponent()] *)
  pushComponent : string;
  (** [ContextType.COMPONENT_PUSHED] and [ContextType.COMPONENT] *)
  COMPONENT_PUSHED : string;
  COMPONENT : string;
  (** [KnAPI.getComponentUrl()] *)
  getComponentUrl : string;
  (** [JSON.parse(stdout).items], or what it throws *)
  url_items : string -> Thrown + UrlItems;
  (** [commands.executeCommand('openshift.url.create', component)] and
      [commands.executeCommand('vscode.open', uri)]: [None] when the
      command resolves *)
  url_create : TreeObject -> option Thrown;
  vscode_open : string -> option Thrown
}.

(** The state a command runs in: the answers the user will give to the
    coming prompts ([None]: the prompt is dismissed; no answer left counts
    as dismissed), the value of ['PUSH'] in the global state, and the
    actions so far. *)
Record Desk := mkDesk {
  answers : list (option string);
  globalState_PUSH : option PushCmd;
  journal : list Action
}.

Definition Promise (A : Type) : Type := Desk -> Result A * Desk.

Definition done {A} (a : A) : Promise A := fun d => (Done a, d).

Definition failed {A} (t : Thrown) : Promise A := fun d => (Failed t, d).

Definition andThen {A B} (c : Promise A) (k : A -> Promise B) : Promise B :=
  fun d =>
    match c d with
    | (Done a, d') => k a d'
    | (Failed t, d') => (Failed t, d')
    end.

(** [try { c } catch (ignore) { handler }] *)
Definition tryCatch {A} (c : Promise A) (handler : Promise A) : Promise A :=
  fun d =>
    match c d with
    | (Done a, d') => (Done a, d')
    | (Failed _, d') => handler d'
    end.

Notation "x <~ c ;; k" := (andThen c (fun x => k))
  (at level 100, c at next level, right associativity).
Notation "c ;;~ k" := (andThen c (fun _ => k))
  (at level 100, right associativity).

Definition act (a : Action) : Promise unit :=
  fun d => (Done tt, mkDesk (answers d) (globalState_PUSH d) (journal d ++ [a])).

(** A prompt resolves with the item the user selects, or with
    [undefined]. *)
Definition offered (items : list string) (answer : option string) : option string :=
  match answer with
  | Some a => if bool_decide (a ∈ items) then Some a else None
  | None => None
  end.

Definition showWarningMessageWith (message : string) (items : list string)
  (answer : option string) (remaining : list (option string))
  : Promise (option string) :=
  fun d => (Done (offered items answer),
            mkDesk remaining (globalState_PUSH d)
                   (journal d ++ [Warned message items])).

Definition showWarningMessage (message : string) (items : list string)
  : Promise (option string) :=
  fun d => showWarningMessageWith message items
             (mjoin (head (answers d))) (tail (answers d)) d.

Definition showInformationMessage (message : string) (items : list string)
  : Promise (option string) :=
  fun d => (Done (offered items (mjoin (head (answers d)))),
            mkDesk (tail (answers d)) (globalState_PUSH d)
                   (journal d ++ [Informed message items])).

Definition showQuickPick (items : list string) (placeHolder : string)
  : Promise (option string) :=
  fun d => (Done (offered items (mjoin (head (answers d)))),
            mkDesk (tail (answers d)) (globalState_PUSH d)
                   (journal d ++ [QuickPick items placeHolder])).


Section WithWorkbench.
Context (wb : Workbench).

Definition execute (command : string) (cwd : option string) : Promise string :=
  fun d =>
    match kn_execute wb command cwd with
    | inr stdout => (Done stdout, snd (act (Executed command cwd) d))
    | inl t => (Failed t, snd (act (Executed command cwd) d))
    end.

Definition JSON_parse (text : string) : Promise bool :=
  match JSON_parse_truthy wb text with
  | Some b => done b
  | None => failed (Exception SyntaxError)
  end.

Definition getData (context : option TreeObject) (placeholders : list string)
  (filter : TreeObject -> bool) : Promise (option TreeObject) :=
  match getKnativeCmdData wb context placeholders filter with
  | inr component => done component
  | inl t => failed t
  end.

(** [component.contextPath.fsPath] *)
Definition fsPath (component : TreeObject) : Promise string :=
  match contextPath component with
  | Some p => done p
  | None => failed (Exception TypeError)
  end.

(** *** [linkComponent], lines 222 to 231: the port to link *)

(** [String.prototype.split(sep)] for a separator of one character. *)
Fixpoint split (sep : ascii) (l : list ascii) : list (list ascii) :=
  match l with
  | [] => [[]]
  | c :: l' =>
      if decide (c = sep) then [] :: split sep l'
      else match split sep l' with
           | cur :: rest => (c :: cur) :: rest
           | [] => [[c]]
           end
  end.

(** [ports = stdout.trim().split(','); ports = ports.slice(0, ports.length-1)] *)
Definition portsOf (stdout : string) : list string :=
  let ports := split ","%char (Text.trim (Text.chars stdout)) in
  Text.text <$> take (length ports - 1) ports.

Definition selectPort (component : TreeObject) (stdout : string)
  : Promise (option string) :=
  let ports := portsOf stdout in
  if (length ports =? 1)%nat then done (head ports)
  else if (1 <? length ports)%nat then showQuickPick ports "Select Port to link"
  else failed (Reason ("Component '" +:+ getName component
                       +:+ "' has no Ports declared.")).

(** *** [undeploy] *)

Definition undeploy (treeItem : option TreeObject) : Promise (option string) :=
  component <~ getData treeItem
                 ["From which Project do you want to undeploy Component";
                  "From which Application you want to undeploy Component";
                  "Select Component to undeploy"]
                 (fun c => bool_decide (contextValue c = COMPONENT_PUSHED wb)) ;;
  match component with
  | None => done None
  | Some c =>
      let name := getName c in
      value <~ showWarningMessage
                 ("Do you want to undeploy Component '" +:+ name +:+ "'?")
                 ["Yes"; "Cancel"] ;;
      if bool_decide (value = Some "Yes") then
        act (Progressed ("Undeploying the Component '" +:+ getName c +:+ " '")) ;;~
        act (Undeployed (getName c)) ;;~
        match kn_undeployComponent wb c with
        | None => done (Some ("Component '" +:+ name +:+ "' successfully undeployed"))
        | Some err =>
            failed (Reason ("Failed to undeploy Component with error '"
                            +:+ render wb err +:+ "'"))
        end
      else done None
  end.

(** *** [handleMigratedComponent] *)

Definition migrationWarning : string :=
  "This Component must be undeployed before new version is pushed, because it was created and deployed with previous version of the extension.".

Definition migrationHelp : string :=
  "https://github.com/redhat-developer/vscode-openshift-tools/wiki/Migration-to-v0.1.0".

(** The [do ... while (choice === 'Help')] loop; every turn shows the
    warning, so the loop is a recursion over the answers still to come. *)
Fixpoint migrationLoop (component : TreeObject) (pending : list (option string))
  : Promise (option string) :=
  match pending with
  | [] =>
      showWarningMessageWith migrationWarning ["Undeploy"; "Help"; "Cancel"] None [] ;;~
      done None
  | answer :: remaining =>
      choice <~ showWarningMessageWith migrationWarning
                  ["Undeploy"; "Help"; "Cancel"] answer remaining ;;
      if bool_decide (choice = Some "Undeploy") then
        undeploy (Some component) ;;~ done None
      else if bool_decide (choice = Some "Help") then
        act (Opened migrationHelp) ;;~ migrationLoop component remaining
      else if bool_decide (choice = Some "Cancel") then done None
      else done choice
  end.

Definition migratedCommand (component : TreeObject) : string :=
  "oc get DeploymentConfig/" +:+ getName component +:+ "-" +:+ application component
  +:+ " --namespace " +:+ project component +:+ " -o jsonpath=" +:+ dquote
  +:+ "{$.metadata.labels.kn\.openshift\.io/migrated}" +:+ dquote.

(** The result is [undefined] or [null] ([None]) or a string. *)
Definition handleMigratedComponent (component : TreeObject) : Promise (option string) :=
  tryCatch
    (migrated <~ execute (migratedCommand component) None ;;
     undeployRequired <~ JSON_parse migrated ;;
     if undeployRequired : bool
     then (fun d => migrationLoop component (answers d) d)
     else done None)
    (done (Some "Continue")).

(** *** The stored push command *)

Definition getPushCmd : Promise (option PushCmd) :=
  fun d => (Done (globalState_PUSH d), d).

Definition setPushCmd (path : string) : Promise unit :=
  fun d => (Done tt,
            mkDesk (answers d) (Some (mkPushCmd (pushComponent wb) path)) (journal d)).

(** *** [push] *)

Definition push (context : option TreeObject) : Promise (option string) :=
  component <~ getData context
                 ["In which Project you want to push the changes";
                  "In which Application you want to push the changes";
                  "For which Component you want to push the changes"]
                 (fun c => bool_decide (contextValue c = COMPONENT_PUSHED wb)
                           || bool_decide (contextValue c = COMPONENT wb)) ;;
  match component with
  | None => done None
  | Some c =>
      choice <~ handleMigratedComponent c ;;
      if negb (Text.truthy choice) then done None
      else
        path <~ fsPath c ;;
        setPushCmd path ;;~
        path' <~ fsPath c ;;
        act (InTerminal (pushComponent wb) path') ;;~
        act (Marked (getName c) (COMPONENT_PUSHED wb)) ;;~
        act (Refreshed (getName c)) ;;~
        done None
  end.

(** *** [lastPush] *)

Definition lastPush : Promise unit :=
  stored <~ getPushCmd ;;
  match stored with
  | None => failed (Exception TypeError)
  | Some p =>
      if Text.truthy (Some (pushCmd p)) && Text.truthy (Some (pushPath p))
      then act (InTerminal (pushCmd p) (pushPath p))
      else failed (ErrorOf "No existing push command found")
  end.

(** *** [listUrl] and [openUrl] *)





End WithWorkbench.

(** A workbench to run the definitions on: every command prints [true],
    which parses; nothing fails. *)
Definition demo : Workbench :=
  mkWorkbench (fun _ _ => inr "true") (fun _ => None)
              (fun context _ _ => inr context)
              (fun text => if bool_decide (text = "true") then Some true
                           else if bool_decide (text = "false") then Some false
                           else None)
              (fun _ => "error") "odo push" "component_pushed" "component_not_pushed"
              "odo url list -o json" (fun _ => inr UrlNull) (fun _ => None) (fun _ => None).

(** The same where the commands print nothing. *)
Definition silent : Workbench :=
  mkWorkbench (fun _ _ => inr "") (fun _ => None)
              (fun context _ _ => inr context)
              (fun text => if bool_decide (text = "true") then Some true
                           else if bool_decide (text = "false") then Some false
                           else None)
              (fun _ => "error") "odo push" "component_pushed" "component_not_pushed"
              "odo url list -o json" (fun _ => inr UrlNull) (fun _ => None) (fun _ => None).

Definition frontend : TreeObject :=
  mkTreeObject "frontend" "shop" "dev" (Some "/work/frontend") "component_pushed".

End Component.

(** The fields [parts], with [sep] between them. *)
Fixpoint join (sep : ascii) (parts : list (list ascii)) : list ascii :=
  match parts with
  | [] => []
  | [p] => p
  | p :: rest => p ++ sep :: join sep rest
  end.

(** The computation [c] leaves the stored push command alone and runs
    nothing in the terminal. *)
Definition quiet {A} (c : Component.Promise A) : Prop :=
  forall d, Component.globalState_PUSH (snd (c d)) = Component.globalState_PUSH d
    /\ exists actions,
         Component.journal (snd (c d)) = Component.journal d ++ actions
         /\ Forall (fun a => forall command cwd, a <> Component.InTerminal command cwd)
              actions.

(** Nothing fails: [undeployComponent] and [getKnativeCmdData] resolve. *)
Definition reliable (wb : Component.Workbench) : Prop :=
  (forall c, Component.kn_undeployComponent wb c = None)
  /\ (forall context placeholders filter,
         exists r, Component.getKnativeCmdData wb context placeholders filter = inr r).



(** * Properties *)

(** ** The version pattern and the scenarios of the specification *)

Example toolVersion_kn :
  VersionPattern.toolVersion
    "Version:      v0.13.1
Build Date:   2020-03-11 18:53:07
Git Revision: 5df12d2e
" = ["0.13.1"].
Proof. reflexivity. Qed.

Example toolVersion_pre_build :
  VersionPattern.toolVersion "kn Version: v1.2.3-rc.1+build-5.x trailing"
  = ["1.2.3-rc.1+build-5.x"].
Proof. reflexivity. Qed.

Example toolVersion_dangling :
  VersionPattern.toolVersion "Version:v1.0.0
  Version: v1.2.3-.+x" = ["1.2.3"].
Proof. reflexivity. Qed.

Example spec_scenario_first_candidate :
  fst (KnCliConfig.selectTool Demo.linux
         [Some "/usr/bin/kn"; Some "/home/dev/.vs-kn/kn"] "0.13.1"
         (Demo.start [("/usr/bin/kn", "Version:   v0.13.1")] [] []))
  = Resolved (Some "/usr/bin/kn").
Proof. vm_compute. reflexivity. Qed.

Example spec_scenario_cached :
  fst (KnCliConfig.detectOrDownload Demo.linux "kn"
         (Demo.start [("/usr/bin/kn", "Version:   v0.12.0");
                      ("/home/dev/.vs-kn/kn", "Version:   v0.13.1")] [] []))
  = Resolved (Some "/home/dev/.vs-kn/kn").
Proof. vm_compute. reflexivity. Qed.

Example spec_scenario_install :
  let w := snd (KnCliConfig.detectOrDownload Demo.linux "kn"
                  (Demo.start [("/usr/bin/kn", "Version:   v0.12.0")]
                     [Some "Download and install v0.13.1"]
                     [Some "Version: v0.13.1"])) in
  location <$> tools w !! "kn" = Some (Some "/home/dev/.vs-kn/kn")
  /\ fs w !! "/home/dev/.vs-kn/kn" = Some "Version: v0.13.1"
  /\ fs w !! "/home/dev/.vs-kn/kn.gz" = None.
Proof. vm_compute. repeat split; reflexivity. Qed.

(** ** The version pattern finds semantic versions *)

Section Pattern.
Import Text VersionPattern.



Lemma lit_char_inv c l l' :
  lit [c] l = Some l' -> l = c :: l'.
Proof.
  destruct l as [|d l0]; simpl; [discriminate|].
  destruct (decide (c = d)) as [->|]; [|discriminate]. intros [= ->]. reflexivity.
Qed.





Lemma exec_unfold l :
  exec l = match match_here l with
           | Some v => Some v
           | None => match l with
                     | _ :: l' => exec l'
                     | [] => None
                     end
           end.
Proof. destruct l; reflexivity. Qed.



End Pattern.

(** ** The resolver: [getVersion] and [selectTool] *)

Section Resolver.
Import KnCliConfig.
Context (host : Host).

Lemma reads_only_refl w : reads_only w w.
Proof. repeat split; exists []; rewrite app_nil_r; reflexivity. Qed.

Lemma reads_only_trans w1 w2 w3 :
  reads_only w1 w2 -> reads_only w2 w3 -> reads_only w1 w3.
Proof.
  intros (Ht & Hf & Hu & Hn & e1 & He1) (Ht' & Hf' & Hu' & Hn' & e2 & He2).
  repeat split; try congruence.
  exists (e1 ++ e2). rewrite He2, He1, app_assoc. reflexivity.
Qed.

Lemma reads_only_log e w : reads_only w (log e w).
Proof. repeat split; exists [e]; reflexivity. Qed.

(** [getVersion], run: one lookup, and one execution when the file exists. *)
Lemma getVersion_run l w :
  getVersion host l w =
    if file_exists (fs w) l
    then (Resolved (firstVersion (cli_stdout host (fs w) (versionCommand l))),
          log (EvExecute (versionCommand l)) (log (EvExists l) w))
    else (Resolved None, log (EvExists l) w).
Proof.
  unfold getVersion, bind, existsSync, execute, ret; simpl.
  destruct (file_exists (fs w) l); reflexivity.
Qed.

Lemma getVersion_reads_only l w : reads_only w (snd (getVersion host l w)).
Proof.
  rewrite getVersion_run. destruct (file_exists (fs w) l); simpl.
  - eapply reads_only_trans; apply reads_only_log.
  - apply reads_only_log.
Qed.

(** What [getVersion] resolves with depends on the files only. *)
Lemma getVersion_files l w w' :
  fs w' = fs w -> fst (getVersion host l w') = fst (getVersion host l w).
Proof.
  intros Hfs. rewrite !getVersion_run, Hfs.
  destruct (file_exists (fs w) l); reflexivity.
Qed.

Lemma acceptable_files w w' range c :
  fs w' = fs w -> acceptable host w range c <-> acceptable host w' range c.
Proof.
  intros Hfs. unfold acceptable.
  split; intros (l & v & -> & Hv & Hs); exists l, v; repeat split; trivial.
  - rewrite (getVersion_files l w w' Hfs). exact Hv.
  - rewrite <- (getVersion_files l w w' Hfs). exact Hv.
Qed.

Lemma not_acceptable_null w range : ~ acceptable host w range None.
Proof. intros (l & v & Hc & _). discriminate. Qed.

Lemma file_exists_empty (f : gmap string string) : file_exists f "" = false.
Proof. reflexivity. Qed.

Lemma satisfies_undefined range : satisfies host None range = false.
Proof. reflexivity. Qed.

Lemma not_acceptable_empty w range : ~ acceptable host w range (Some "").
Proof.
  intros (l & v & Hc & Hv & Hs). injection Hc as <-.
  rewrite getVersion_run, file_exists_empty in Hv. simpl in Hv.
  injection Hv as <-. discriminate.
Qed.

(** One turn of the loop of [selectTool] on a candidate that passes the
    guard. *)
Lemma selectTool_step l rest range w :
  l <> "" ->
  selectTool host (Some l :: rest) range w =
    match getVersion host l w with
    | (Resolved v, w') =>
        if satisfies host v range then (Resolved (Some l), w')
        else selectTool host rest range w'
    | (Rejected e, w') => (Rejected e, w')
    end.
Proof.
  intros Hl. simpl. rewrite bool_decide_eq_false_2 by exact Hl. simpl.
  unfold bind at 1. destruct (getVersion host l w) as [[v|e] w']; try reflexivity.
  destruct (satisfies host v range); reflexivity.
Qed.

Lemma selectTool_skip_empty rest range w :
  selectTool host (Some "" :: rest) range w = selectTool host rest range w.
Proof. reflexivity. Qed.

Lemma selectTool_skip_null rest range w :
  selectTool host (None :: rest) range w = selectTool host rest range w.
Proof. reflexivity. Qed.

(** [selectTool] always resolves, and only reads the host. *)
Lemma selectTool_reads_only locations range w :
  exists r, fst (selectTool host locations range w) = Resolved r
            /\ reads_only w (snd (selectTool host locations range w)).
Proof.
  revert w. induction locations as [|[l|] rest IH]; intros w.
  - exists None. split; [reflexivity | apply reads_only_refl].
  - destruct (decide (l = "")) as [->|Hl].
    + rewrite selectTool_skip_empty. apply IH.
    + rewrite selectTool_step by exact Hl.
      pose proof (getVersion_reads_only l w) as Hro.
      rewrite getVersion_run in *.
      destruct (file_exists (fs w) l); simpl in *.
      * destruct (satisfies host _ range).
        -- eexists. split; [reflexivity | exact Hro].
        -- destruct (IH (log (EvExecute (versionCommand l)) (log (EvExists l) w)))
             as (r & Hr & Hro').
           exists r. split; [exact Hr | eapply reads_only_trans; eassumption].
      * destruct (IH (log (EvExists l) w)) as (r & Hr & Hro').
        exists r. split; [exact Hr | eapply reads_only_trans; eassumption].
  - rewrite selectTool_skip_null. apply IH.
Qed.

(** What [selectTool] resolves with depends on the files only. *)
Lemma selectTool_files locations range w w' :
  fs w' = fs w ->
  fst (selectTool host locations range w') = fst (selectTool host locations range w).
Proof.
  revert w w'. induction locations as [|[l|] rest IH]; intros w w' Hfs.
  - reflexivity.
  - destruct (decide (l = "")) as [->|Hl].
    + rewrite !selectTool_skip_empty. apply IH, Hfs.
    + rewrite !selectTool_step by exact Hl.
      rewrite !getVersion_run, Hfs.
      destruct (file_exists (fs w) l).
      * destruct (satisfies host _ range); [reflexivity|].
        apply IH. simpl. exact Hfs.
      * simpl. apply IH. simpl. exact Hfs.
  - rewrite !selectTool_skip_null. apply IH, Hfs.
Qed.

End Resolver.

(** The result of [selectTool], by induction on the candidates. *)
Lemma selectTool_spec (host : Host) (locations : list (option string))
  (range : string) (w : World) :
  exists r, fst (KnCliConfig.selectTool host locations range w) = Resolved r /\
    match r with
    | Some l =>
        exists before after,
          locations = before ++ Some l :: after
          /\ acceptable host w range (Some l)
          /\ Forall (fun c => ~ acceptable host w range c) before
    | None => Forall (fun c => ~ acceptable host w range c) locations
    end.
Proof.
  revert w. induction locations as [|[l|] rest IH]; intros w.
  - exists None. split; [reflexivity | constructor].
  - assert (Hnext : forall w', reads_only w w' ->
              ~ acceptable host w range (Some l) ->
              exists r, fst (KnCliConfig.selectTool host rest range w') = Resolved r /\
                match r with
                | Some l' =>
                    exists before after,
                      Some l :: rest = before ++ Some l' :: after
                      /\ acceptable host w range (Some l')
                      /\ Forall (fun c => ~ acceptable host w range c) before
                | None => Forall (fun c => ~ acceptable host w range c) (Some l :: rest)
                end).
    { intros w' (_ & Hfs & _) Hno.
      destruct (IH w') as (r & Hr & Hspec). exists r. split; [exact Hr|].
      destruct r as [l'|].
      - destruct Hspec as (before & after & -> & Hok & Hbefore).
        exists (Some l :: before), after. repeat split.
        + apply (acceptable_files host w w'); assumption.
        + constructor; [exact Hno|].
          eapply Forall_impl; [exact Hbefore|].
          intros c Hc Hacc. apply Hc. apply (acceptable_files host w w'); assumption.
      - constructor; [exact Hno|].
        eapply Forall_impl; [exact Hspec|].
        intros c Hc Hacc. apply Hc. apply (acceptable_files host w w'); assumption. }
    destruct (decide (l = "")) as [->|Hl].
    + rewrite selectTool_skip_empty.
      apply (Hnext w (reads_only_refl w)). apply not_acceptable_empty.
    + rewrite selectTool_step by exact Hl.
      pose proof (getVersion_reads_only host l w) as Hro.
      destruct (KnCliConfig.getVersion host l w) as [[v|e] w'] eqn:Hget.
      * destruct (satisfies host v range) eqn:Hsat.
        -- exists (Some l). split; [reflexivity|].
           exists [], rest. repeat split; [|constructor].
           exists l, v. rewrite Hget. repeat split; assumption.
        -- apply Hnext; [exact Hro|].
           intros (l0 & v0 & Hc & Hv & Hs). injection Hc as <-.
           rewrite Hget in Hv. simpl in Hv. injection Hv as <-. congruence.
      * rewrite getVersion_run in Hget.
        destruct (file_exists (fs w) l); discriminate.
  - destruct (IH w) as (r & Hr & Hspec). exists r. split; [exact Hr|].
    destruct r as [l'|].
    + destruct Hspec as (before & after & -> & Hok & Hbefore).
      exists (None :: before), after. repeat split; [exact Hok|].
      constructor; [apply not_acceptable_null | exact Hbefore].
    + constructor; [apply not_acceptable_null | exact Hspec].
Qed.

(** C1. For every list of candidate locations and every version range,
    [selectTool] resolves with the first candidate, in list order, whose
    detected version satisfies the range, and with [undefined] when no
    candidate satisfies it. *)
Theorem selectTool_first_satisfying (host : Host) (locations : list (option string))
  (range : string) (w : World) :
  exists r, fst (KnCliConfig.selectTool host locations range w) = Resolved r /\
    match r with
    | Some l =>
        exists before after,
          locations = before ++ Some l :: after
          /\ acceptable host w range (Some l)
          /\ Forall (fun c => ~ acceptable host w range c) before
    | None => Forall (fun c => ~ acceptable host w range c) locations
    end.
Proof. apply selectTool_spec. Qed.


(** C10. [selectTool] is total: it resolves on every candidate list. A null
    candidate is skipped without a call of [getVersion] (the process is left
    as it was, trace included); a path at which no file exists has the
    detected version [undefined], which satisfies no range, and is passed
    over; on the empty list the result is [undefined]. *)
Theorem selectTool_total (host : Host) :
  (forall locations range w,
      exists r, fst (KnCliConfig.selectTool host locations range w) = Resolved r)
  /\ (forall rest range w,
        KnCliConfig.selectTool host (None :: rest) range w
        = KnCliConfig.selectTool host rest range w)
  /\ (forall l rest range w,
        file_exists (fs w) l = false ->
        fst (KnCliConfig.getVersion host l w) = Resolved None
        /\ satisfies host None range = false
        /\ fst (KnCliConfig.selectTool host (Some l :: rest) range w)
           = fst (KnCliConfig.selectTool host rest range w))
  /\ (forall range w, KnCliConfig.selectTool host [] range w = (Resolved None, w)).
Proof.
  split; [|split; [|split]].
  - intros locations range w.
    destruct (selectTool_reads_only host locations range w) as (r & Hr & _).
    exists r. exact Hr.
  - reflexivity.
  - intros l rest range w Hex. split; [|split].
    + rewrite getVersion_run, Hex. reflexivity.
    + reflexivity.
    + destruct (decide (l = "")) as [->|Hl]; [reflexivity|].
      rewrite selectTool_step by exact Hl. rewrite getVersion_run, Hex.
      apply selectTool_files. reflexivity.
  - reflexivity.
Qed.

Lemma selectTool_total_witness :
  file_exists (fs (Demo.start [] [] [])) "/usr/bin/kn" = false
  /\ fst (KnCliConfig.getVersion Demo.linux "/usr/bin/kn" (Demo.start [] [] []))
     = Resolved None.
Proof.
  split; [reflexivity|].
  apply (proj1 (proj2 (proj2 (selectTool_total Demo.linux)))
           "/usr/bin/kn" [] "0.13.1" (Demo.start [] [] [])).
  reflexivity.
Defined.

(** ** The installer: [detectOrDownload] *)

Section Frame.
Import KnCliConfig.
Context (host : Host).

Lemma bind_run {A B} (c : Async A) (k : A -> Async B) w :
  bind c k w = match c w with
               | (Resolved a, w') => k a w'
               | (Rejected e, w') => (Rejected e, w')
               end.
Proof. reflexivity. Qed.

Lemma steady_ret {A} (a : A) : steady (ret a).
Proof. intros w. split; [reflexivity | exists []; simpl; rewrite app_nil_r; reflexivity]. Qed.

Lemma steady_bind {A B} (c : Async A) (k : A -> Async B) :
  steady c -> (forall a, steady (k a)) -> steady (bind c k).
Proof.
  intros Hc Hk w. rewrite bind_run. destruct (Hc w) as (Ht & e1 & He1).
  destruct (c w) as [[a|e] w']; simpl in *.
  - destruct (Hk a w') as (Ht' & e2 & He2). split; [congruence|].
    exists (e1 ++ e2). rewrite He2, He1, app_assoc. reflexivity.
  - split; [exact Ht | exists e1; exact He1].
Qed.

Lemma steady_if {A} (b : bool) (c1 c2 : Async A) :
  steady c1 -> steady c2 -> steady (if b then c1 else c2).
Proof. destruct b; trivial. Qed.

Ltac one_event :=
  let w := fresh "w" in
  intros w; cbv beta delta [existsSync execute which showInformationMessage
    ensureDirSync removeSync hashaFromFile unzip chmodSync executeCommandOpen
    downloadFile];
  repeat match goal with |- context [match ?x with _ => _ end] => destruct x end;
  simpl; (split; [reflexivity | eexists; reflexivity]).

Lemma steady_which cmd : steady (which host cmd).
Proof. one_event. Qed.
Lemma steady_showInformationMessage m items : steady (showInformationMessage m items).
Proof. one_event. Qed.
Lemma steady_ensureDirSync d : steady (ensureDirSync d).
Proof. one_event. Qed.
Lemma steady_removeSync p : steady (removeSync p).
Proof. one_event. Qed.
Lemma steady_hashaFromFile f : steady (hashaFromFile host f).
Proof. one_event. Qed.
Lemma steady_unzip f d p : steady (unzip host f d p).
Proof. one_event. Qed.
Lemma steady_chmodSync p : steady (chmodSync p).
Proof. one_event. Qed.
Lemma steady_executeCommandOpen u : steady (executeCommandOpen u).
Proof. one_event. Qed.
Lemma steady_downloadFile a b d r : steady (downloadFile a b d r).
Proof. one_event. Qed.

Lemma steady_selectTool locations range : steady (selectTool host locations range).
Proof.
  intros w. destruct (selectTool_reads_only host locations range w)
    as (_ & _ & Ht & _ & _ & _ & He).
  split; assumption.
Qed.

Create HintDb steady.
Hint Resolve steady_ret steady_bind steady_if steady_which
  steady_showInformationMessage steady_ensureDirSync steady_removeSync
  steady_hashaFromFile steady_unzip steady_chmodSync steady_executeCommandOpen
  steady_downloadFile steady_selectTool : steady.

Lemma steady_downloadLoop t deliveries : steady (downloadLoop host t deliveries).
Proof.
  induction deliveries as [|d rest IH]; simpl.
  - auto with steady.
  - apply steady_bind; [auto with steady|]. intros _.
    apply steady_bind; [auto with steady|]. intros sum.
    apply steady_if; [|auto with steady].
    apply steady_bind; [auto with steady|]. intros _.
    apply steady_bind; [auto with steady|]. intros action.
    apply steady_if; [exact IH | auto with steady].
Qed.

Lemma steady_extractAndInstall t : steady (extractAndInstall host t).
Proof. unfold extractAndInstall. auto 10 with steady. Qed.

Lemma steady_requestDownload t : steady (requestDownload host t).
Proof.
  unfold requestDownload.
  apply steady_bind; [auto with steady|]. intros response.
  apply steady_bind; [auto with steady|]. intros _.
  apply steady_if; [|auto 6 with steady].
  apply steady_bind.
  - intros w. apply steady_downloadLoop.
  - intros action. apply steady_if; [apply steady_extractAndInstall | auto with steady].
Qed.

Lemma steady_locate cmd t : steady (locate host cmd t).
Proof.
  unfold locate.
  apply steady_bind; [auto with steady|]. intros whichLocation.
  apply steady_bind; [auto with steady|]. intros [l|].
  - apply steady_ret.
  - apply steady_requestDownload.
Qed.

(** A call on a tool whose location is not set. *)
Lemma detectOrDownload_unset cmd t w :
  tools w !! cmd = Some t -> location t = None ->
  detectOrDownload host cmd w =
    match locate host cmd t w with
    | (Resolved toolLocation, w') =>
        match recordLocation cmd toolLocation w' with
        | (Resolved _, w'') => (Resolved toolLocation, w'')
        | (Rejected e, w'') => (Rejected e, w'')
        end
    | (Rejected e, w') => (Rejected e, w')
    end.
Proof.
  intros Ht Hl. unfold detectOrDownload. rewrite bind_run. unfold tool.
  rewrite Ht, Hl. rewrite bind_run.
  destruct (locate host cmd t w) as [[toolLocation|e] w']; reflexivity.
Qed.

(** A call on a tool whose location is set. *)
Lemma detectOrDownload_set cmd t l w :
  tools w !! cmd = Some t -> location t = Some l ->
  detectOrDownload host cmd w = (Resolved (Some l), w).
Proof.
  intros Ht Hl. unfold detectOrDownload. rewrite bind_run. unfold tool.
  rewrite Ht, Hl. reflexivity.
Qed.

Lemma detectOrDownload_unknown cmd w :
  tools w !! cmd = None -> detectOrDownload host cmd w = (Rejected TypeError, w).
Proof.
  intros Ht. unfold detectOrDownload. rewrite bind_run. unfold tool.
  rewrite Ht. reflexivity.
Qed.

Lemma recordLocation_run cmd t toolLocation w :
  tools w !! cmd = Some t ->
  recordLocation cmd toolLocation w =
    (Resolved tt,
     if Text.truthy toolLocation
     then set_tools (<[cmd := set_location toolLocation t]> (tools w)) w
     else w).
Proof.
  intros Ht. unfold recordLocation, assignLocation.
  destruct toolLocation as [l|]; [|reflexivity].
  destruct (Text.truthy (Some l)); [|reflexivity].
  rewrite Ht. reflexivity.
Qed.

(** What a call of [detectOrDownload] does to the tool table: nothing, or
    it sets the location of [cmd], which was [undefined] before, to the path
    it resolves with. The trace only grows. *)
Lemma detectOrDownload_frame cmd w :
  let w' := snd (detectOrDownload host cmd w) in
  (tools w' = tools w
   \/ exists t l, tools w !! cmd = Some t /\ location t = None
        /\ fst (detectOrDownload host cmd w) = Resolved (Some l)
        /\ tools w' = <[cmd := set_location (Some l) t]> (tools w))
  /\ exists events, trace w' = trace w ++ events.
Proof.
  cbv zeta.
  destruct (tools w !! cmd) as [t|] eqn:Ht;
    [|rewrite detectOrDownload_unknown by exact Ht; simpl;
      split; [left; reflexivity | exists []; rewrite app_nil_r; reflexivity]].
  destruct (location t) as [l|] eqn:Hl.
  { rewrite (detectOrDownload_set cmd t l w Ht Hl); simpl.
    split; [left; reflexivity | exists []; rewrite app_nil_r; reflexivity]. }
  rewrite (detectOrDownload_unset cmd t w Ht Hl).
  destruct (steady_locate cmd t w) as (Ht1 & e1 & He1).
  destruct (locate host cmd t w) as [[toolLocation|e] w1]; simpl in Ht1, He1;
    [|simpl; split; [left; exact Ht1 | exists e1; exact He1]].
  rewrite (recordLocation_run cmd t toolLocation w1) by (rewrite Ht1; exact Ht).
  destruct toolLocation as [l|]; simpl;
    [|split; [left; exact Ht1 | exists e1; exact He1]].
  destruct (bool_decide (l = "")); simpl.
  - split; [left; exact Ht1 | exists e1; exact He1].
  - split; [|exists e1; exact He1].
    right. exists t, l. repeat split; trivial. rewrite Ht1. reflexivity.
Qed.

(** A call on a tool whose location is not set starts the detection: its
    first event is the lookup of [cmd] on the path. *)
Lemma detectOrDownload_unset_trace cmd t w :
  tools w !! cmd = Some t -> location t = None ->
  exists events,
    trace (snd (detectOrDownload host cmd w)) = trace w ++ EvWhich cmd :: events.
Proof.
  intros Ht Hl. rewrite (detectOrDownload_unset cmd t w Ht Hl).
  assert (Hloc : exists events,
             tools (snd (locate host cmd t w)) = tools w
             /\ trace (snd (locate host cmd t w)) = trace w ++ EvWhich cmd :: events).
  { assert (Hk : steady
              (selected <- selectTool host
                             [which_lookup host (fs w) cmd; Some (toolCacheLocation host t)]
                             (versionRange t) ;;
               match selected with
               | Some l => ret (Some l)
               | None => requestDownload host t
               end)).
    { apply steady_bind; [auto with steady|]. intros [l|].
      - apply steady_ret.
      - apply steady_requestDownload. }
    destruct (Hk (log (EvWhich cmd) w)) as (Htk & e & He).
    exists e.
    change (locate host cmd t w)
      with ((selected <- selectTool host
                           [which_lookup host (fs w) cmd; Some (toolCacheLocation host t)]
                           (versionRange t) ;;
             match selected with
             | Some l => ret (Some l)
             | None => requestDownload host t
             end) (log (EvWhich cmd) w)).
    split; [exact Htk|]. rewrite He. simpl.
    rewrite <- app_assoc. reflexivity. }
  destruct Hloc as (e & Ht1 & He1).
  destruct (locate host cmd t w) as [[toolLocation|err] w1]; simpl in Ht1, He1;
    [|exists e; exact He1].
  rewrite (recordLocation_run cmd t toolLocation w1) by (rewrite Ht1; exact Ht).
  exists e. destruct (Text.truthy toolLocation); exact He1.
Qed.

(** The download loop when every delivery has a wrong digest and the user
    ends with ['Cancel']. *)
Lemma downloadLoop_cancelled t answers deliveries :
  cancelled_after_mismatch host t answers deliveries ->
  forall w, ui w = answers ->
    fst (downloadLoop host t deliveries w) = Resolved (Some "Cancel").
Proof.
  induction 1 as [bytes deliveries answers Hsum
                 |bytes deliveries answers Hsum Hrest IH]; intros w Hui.
  - simpl. rewrite bind_run. unfold downloadFile at 1.
    rewrite bind_run. unfold hashaFromFile at 1. simpl.
    rewrite lookup_insert_eq.
    rewrite bool_decide_eq_true_2 by exact Hsum.
    rewrite bind_run. unfold removeSync at 1.
    rewrite bind_run. unfold showInformationMessage at 1. simpl.
    rewrite Hui. reflexivity.
  - simpl. rewrite bind_run. unfold downloadFile at 1.
    rewrite bind_run. unfold hashaFromFile at 1. simpl.
    rewrite lookup_insert_eq.
    rewrite bool_decide_eq_true_2 by exact Hsum.
    rewrite bind_run. unfold removeSync at 1.
    rewrite bind_run. unfold showInformationMessage at 1. simpl.
    rewrite Hui. simpl. apply IH. reflexivity.
Qed.

(** Whenever the loop is left with an answer to the checksum prompt (the
    digest was wrong), the downloaded file has been deleted. *)
Lemma downloadLoop_answered t deliveries :
  forall w a w',
    downloadLoop host t deliveries w = (Resolved (Some a), w') ->
    fs w' !! toolDlLocation host t = None.
Proof.
  induction deliveries as [|delivered remaining IH]; intros w a w'.
  - simpl. rewrite bind_run. unfold downloadFile. discriminate.
  - simpl. rewrite bind_run. unfold downloadFile at 1.
    destruct delivered as [bytes|]; [|discriminate].
    rewrite bind_run. unfold hashaFromFile at 1. simpl.
    rewrite lookup_insert_eq.
    destruct (bool_decide (sha256 host bytes <> sha256sum t)); [|discriminate].
    rewrite bind_run. unfold removeSync at 1.
    rewrite bind_run. unfold showInformationMessage at 1. simpl.
    destruct (bool_decide (_ = Some "Download again")).
    + apply IH.
    + intros [= _ <-]. simpl. apply lookup_delete_eq.
Qed.

Lemma installRequest_not_Cancel t : Some "Cancel" <> Some (installRequest t).
Proof. unfold installRequest. simpl. discriminate. Qed.

Lemma installRequest_not_Help t : Some "Help" <> Some (installRequest t).
Proof. unfold installRequest. simpl. discriminate. Qed.

(** The request to download, declined. *)
Lemma requestDownload_declined t w :
  declines host t w -> fst (requestDownload host t w) = Resolved None.
Proof.
  intros Hd. unfold requestDownload. rewrite bind_run.
  unfold showInformationMessage at 1. rewrite bind_run.
  unfold ensureDirSync at 1.
  destruct Hd as [Hc|[Hh|[Hn|(answers & Hui & Hloop)]]].
  - rewrite Hc.
    rewrite bool_decide_eq_false_2 by apply installRequest_not_Cancel.
    reflexivity.
  - rewrite Hh.
    rewrite bool_decide_eq_false_2 by apply installRequest_not_Help.
    reflexivity.
  - rewrite Hn. reflexivity.
  - rewrite Hui. simpl head. simpl mjoin.
    rewrite bool_decide_eq_true_2 by reflexivity.
    rewrite bind_run. simpl net.
    match goal with |- context [downloadLoop host t (net w) ?w0] =>
      pose proof (downloadLoop_cancelled t answers (net w) Hloop w0 eq_refl) as Hr;
      destruct (downloadLoop host t (net w) w0) as [[action|e] w1]
    end; simpl in Hr; [|discriminate].
    injection Hr as ->. reflexivity.
Qed.

Lemma extractAndInstall_result t w r :
  fst (extractAndInstall host t w) = Resolved r ->
  r = Some (toolCacheLocation host t).
Proof.
  unfold extractAndInstall. rewrite bind_run.
  match goal with |- context [match ?c w with _ => _ end] =>
    destruct (c w) as [[[]|e] w1]; [|discriminate] end.
  rewrite bind_run. unfold removeSync at 1. rewrite bind_run.
  match goal with |- context [match ?c ?w0 with _ => _ end] =>
    destruct (c w0) as [[[]|e] w2]; [|discriminate] end.
  simpl. congruence.
Qed.

(** The request to download resolves with a path only when the user asked
    for the download; the path is then the cache location. *)
Lemma requestDownload_result t w l :
  fst (requestDownload host t w) = Resolved (Some l) ->
  l = toolCacheLocation host t
  /\ mjoin (head (ui w)) = Some (installRequest t).
Proof.
  unfold requestDownload. rewrite bind_run.
  unfold showInformationMessage at 1. rewrite bind_run.
  unfold ensureDirSync at 1.
  destruct (bool_decide (mjoin (head (ui w)) = Some (installRequest t))) eqn:Hreq.
  - apply bool_decide_eq_true_1 in Hreq. rewrite bind_run.
    destruct (downloadLoop host t _ _) as [[action|e] w1]; [|discriminate].
    destruct (bool_decide (action <> Some "Cancel")); [|discriminate].
    intros Hr. apply extractAndInstall_result in Hr. split; congruence.
  - destruct (bool_decide (mjoin (head (ui w)) = Some "Help")); discriminate.
Qed.

End Frame.

(** C5. Resolving a tool whose location is already set resolves with that
    location at once: the process is left exactly as it was, so nothing is
    executed, no file is looked up and no prompt is shown. *)
Theorem detectOrDownload_cached (host : Host) (cmd : string) (t : Tool)
  (l : string) (w : World) :
  tools w !! cmd = Some t ->
  location t = Some l ->
  KnCliConfig.detectOrDownload host cmd w = (Resolved (Some l), w).
Proof. apply detectOrDownload_set. Qed.

Lemma detectOrDownload_cached_witness :
  let w := mkWorld {[ "kn" := set_location (Some "/usr/bin/kn") Demo.kn ]}
                   ∅ [Some "Cancel"] [] [EvWhich "kn"] in
  KnCliConfig.detectOrDownload Demo.linux "kn" w = (Resolved (Some "/usr/bin/kn"), w).
Proof.
  apply (detectOrDownload_cached Demo.linux "kn"
           (set_location (Some "/usr/bin/kn") Demo.kn) "/usr/bin/kn");
    reflexivity.
Defined.



(** C8. When no candidate satisfies the range and the install flow does not
    complete by the user's choice (the first prompt is answered ['Cancel'] or
    ['Help'] or is dismissed, or a checksum prompt is answered ['Cancel']),
    [detectOrDownload] resolves with [undefined] and leaves the tool table as
    it was, the location unset; a following call for the same tool starts
    the detection again, with the lookup of the command on the path. *)
Theorem declined_install_leaves_unset (host : Host) (cmd : string) (t : Tool)
  (w : World) :
  tools w !! cmd = Some t ->
  location t = None ->
  Forall (fun c => ~ acceptable host w (versionRange t) c)
         [which_lookup host (fs w) cmd; Some (KnCliConfig.toolCacheLocation host t)] ->
  declines host t w ->
  let w' := snd (KnCliConfig.detectOrDownload host cmd w) in
  fst (KnCliConfig.detectOrDownload host cmd w) = Resolved None
  /\ tools w' = tools w
  /\ exists events,
       trace (snd (KnCliConfig.detectOrDownload host cmd w'))
       = trace w' ++ EvWhich cmd :: events.
Proof.
  intros Ht Hl Hnone Hdecl. cbv zeta.
  assert (Hfirst : fst (KnCliConfig.detectOrDownload host cmd w) = Resolved None
                   /\ tools (snd (KnCliConfig.detectOrDownload host cmd w)) = tools w).
  { rewrite (detectOrDownload_unset host cmd t w Ht Hl).
    pose proof (steady_locate host cmd t w) as (Ht1 & _).
    assert (Hloc : fst (KnCliConfig.locate host cmd t w) = Resolved None).
    { unfold KnCliConfig.locate. rewrite bind_run. unfold KnCliConfig.which at 1.
      set (w1 := log (EvWhich cmd) w). rewrite bind_run.
      destruct (selectTool_spec host
                  [which_lookup host (fs w) cmd; Some (KnCliConfig.toolCacheLocation host t)]
                  (versionRange t) w1) as (r & Hr & Hspec).
      destruct (selectTool_reads_only host
                  [which_lookup host (fs w) cmd; Some (KnCliConfig.toolCacheLocation host t)]
                  (versionRange t) w1) as (_ & _ & Hro).
      destruct (KnCliConfig.selectTool host _ (versionRange t) w1) as [[r'|e] w2];
        simpl in Hr, Hro; [|discriminate].
      injection Hr as ->. destruct r as [l|].
      - exfalso. destruct Hspec as (before & after & Heq & Hacc & _).
        rewrite Forall_forall in Hnone. apply (Hnone (Some l)).
        + rewrite Heq. apply elem_of_app. right. constructor.
        + apply (acceptable_files host w w1); [reflexivity | exact Hacc].
      - apply requestDownload_declined.
        destruct Hro as (_ & _ & Hui & Hnet & _). simpl in Hui, Hnet.
        unfold declines. rewrite Hui, Hnet. exact Hdecl. }
    destruct (KnCliConfig.locate host cmd t w) as [[toolLocation|e] w1];
      simpl in Hloc, Ht1; [|discriminate].
    injection Hloc as ->. simpl. split; [reflexivity | exact Ht1]. }
  destruct Hfirst as (Hres & Htools). split; [exact Hres|]. split; [exact Htools|].
  apply (detectOrDownload_unset_trace host cmd t); [|exact Hl].
  rewrite Htools. exact Ht.
Qed.

Lemma declined_install_leaves_unset_witness :
  let w := Demo.start [("/usr/bin/kn", "Version:   v0.12.0")]
             [Some "Download and install v0.13.1"; Some "Download again"; Some "Cancel"]
             [Some "corrupt"; Some "truncated"] in
  fst (KnCliConfig.detectOrDownload Demo.linux "kn" w) = Resolved None
  /\ tools (snd (KnCliConfig.detectOrDownload Demo.linux "kn" w)) = tools w.
Proof.
  cbv zeta.
  pose proof (declined_install_leaves_unset Demo.linux "kn" Demo.kn
                (Demo.start [("/usr/bin/kn", "Version:   v0.12.0")]
                   [Some "Download and install v0.13.1"; Some "Download again";
                    Some "Cancel"]
                   [Some "corrupt"; Some "truncated"])) as H.
  cbv zeta in H.
  assert (Hno : forall c v,
             fst (KnCliConfig.getVersion Demo.linux c
                    (Demo.start [("/usr/bin/kn", "Version:   v0.12.0")]
                       [Some "Download and install v0.13.1"; Some "Download again";
                        Some "Cancel"]
                       [Some "corrupt"; Some "truncated"])) = Resolved v ->
             c = "/usr/bin/kn" \/ c = "/home/dev/.vs-kn/kn" ->
             satisfies Demo.linux v "0.13.1" = true -> False).
  { intros c v Hv [->| ->] Hs; vm_compute in Hv; injection Hv as <-;
      vm_compute in Hs; discriminate. }
  destruct H as (H1 & H2 & _).
  - reflexivity.
  - reflexivity.
  - repeat constructor.
    + intros (l & v & Hc & Hv & Hs). vm_compute in Hc. injection Hc as <-.
      eapply Hno; [exact Hv | left; reflexivity | exact Hs].
    + intros (l & v & Hc & Hv & Hs). vm_compute in Hc. injection Hc as <-.
      eapply Hno; [exact Hv | right; reflexivity | exact Hs].
  - right. right. right. eexists. split; [reflexivity|].
    apply mismatch_again; [vm_compute; discriminate|].
    apply mismatch_cancel. vm_compute. discriminate.
  - split; assumption.
Defined.

(** C3, as the code has it. A path that [detectOrDownload] records as the
    location of a tool comes from one of two places. Either it is a
    candidate that [selectTool] selected, and then its detected version
    satisfies the range of the tool; or no candidate has a detected version
    that satisfies the range, the user asked for the download, and the path
    is the cache location, recorded after the installation without a
    detection of its version. *)
Theorem recorded_location_origin (host : Host) (cmd : string) (t : Tool)
  (l : string) (w : World) :
  tools w !! cmd = Some t ->
  location t = None ->
  tools (snd (KnCliConfig.detectOrDownload host cmd w)) !! cmd
    = Some (set_location (Some l) t) ->
  let candidates :=
    [which_lookup host (fs w) cmd; Some (KnCliConfig.toolCacheLocation host t)] in
  (Some l ∈ candidates /\ acceptable host w (versionRange t) (Some l))
  \/ (Forall (fun c => ~ acceptable host w (versionRange t) c) candidates
      /\ l = KnCliConfig.toolCacheLocation host t
      /\ mjoin (head (ui w)) = Some (KnCliConfig.installRequest t)).
Proof.
  intros Ht Hl Hrec. cbv zeta.
  rewrite (detectOrDownload_unset host cmd t w Ht Hl) in Hrec.
  pose proof (steady_locate host cmd t w) as (Ht1 & _).
  assert (Hloc : forall r, fst (KnCliConfig.locate host cmd t w) = Resolved (Some r) ->
            (Some r ∈ [which_lookup host (fs w) cmd;
                       Some (KnCliConfig.toolCacheLocation host t)]
             /\ acceptable host w (versionRange t) (Some r))
            \/ (Forall (fun c => ~ acceptable host w (versionRange t) c)
                  [which_lookup host (fs w) cmd;
                   Some (KnCliConfig.toolCacheLocation host t)]
                /\ r = KnCliConfig.toolCacheLocation host t
                /\ mjoin (head (ui w)) = Some (KnCliConfig.installRequest t))).
  { intros r. unfold KnCliConfig.locate. rewrite bind_run.
    unfold KnCliConfig.which at 1. set (w1 := log (EvWhich cmd) w).
    rewrite bind_run.
    destruct (selectTool_spec host
                [which_lookup host (fs w) cmd; Some (KnCliConfig.toolCacheLocation host t)]
                (versionRange t) w1) as (sel & Hsel & Hspec).
    destruct (selectTool_reads_only host
                [which_lookup host (fs w) cmd; Some (KnCliConfig.toolCacheLocation host t)]
                (versionRange t) w1) as (_ & _ & Hro).
    destruct (KnCliConfig.selectTool host _ (versionRange t) w1) as [[sel'|e] w2];
      simpl in Hsel, Hro; [|discriminate].
    injection Hsel as ->. destruct sel as [l0|].
    - simpl. intros [= ->]. left.
      destruct Hspec as (before & after & Heq & Hacc & _). split.
      + rewrite Heq. apply elem_of_app. right. constructor.
      + apply (acceptable_files host w w1); [reflexivity | exact Hacc].
    - intros Hr. apply requestDownload_result in Hr as (-> & Hans). right.
      destruct Hro as (_ & _ & Hui & _). simpl in Hui. rewrite Hui in Hans.
      split; [|split; [reflexivity | exact Hans]].
      eapply Forall_impl; [exact Hspec|]. intros c Hc Hacc. apply Hc.
      apply (acceptable_files host w w1); [reflexivity | exact Hacc]. }
  destruct (KnCliConfig.locate host cmd t w) as [[toolLocation|e] w1];
    simpl in Ht1, Hloc.
  - rewrite (recordLocation_run cmd t toolLocation w1) in Hrec
      by (rewrite Ht1; exact Ht).
    destruct toolLocation as [r|]; simpl in Hrec.
    + destruct (bool_decide (r = "")); simpl in Hrec.
      * rewrite Ht1, Ht in Hrec. injection Hrec as Hrec.
        apply (f_equal location) in Hrec. simpl in Hrec. congruence.
      * rewrite lookup_insert_eq in Hrec. injection Hrec as ->.
        apply Hloc. reflexivity.
    + rewrite Ht1, Ht in Hrec. injection Hrec as Hrec.
      apply (f_equal location) in Hrec. simpl in Hrec. congruence.
  - simpl in Hrec. rewrite Ht1, Ht in Hrec. injection Hrec as Hrec.
    apply (f_equal location) in Hrec. simpl in Hrec. congruence.
Qed.

Lemma recorded_location_origin_witness :
  let w := Demo.start [("/usr/bin/kn", "Version:   v0.13.1")] [] [] in
  (Some "/usr/bin/kn" ∈ [Some "/usr/bin/kn"; Some "/home/dev/.vs-kn/kn"]
   /\ acceptable Demo.linux w "0.13.1" (Some "/usr/bin/kn"))
  \/ (Forall (fun c => ~ acceptable Demo.linux w "0.13.1" c)
        [Some "/usr/bin/kn"; Some "/home/dev/.vs-kn/kn"]
      /\ "/usr/bin/kn" = "/home/dev/.vs-kn/kn"
      /\ mjoin (head (ui w)) = Some "Download and install v0.13.1").
Proof.
  cbv zeta.
  apply (recorded_location_origin Demo.linux "kn" Demo.kn "/usr/bin/kn"
           (Demo.start [("/usr/bin/kn", "Version:   v0.13.1")] [] [])).
  - reflexivity.
  - reflexivity.
  - vm_compute. reflexivity.
Defined.

(** C3, as stated, fails: the installation of a development build, whose
    digest is the expected one, records the cache location although no
    version is detected at that path, before or after. *)
Lemma recorded_location_unchecked :
  let w := mkWorld {[ "kn" := Demo.kn_dev ]} ∅
             [Some "Download and install v0.13.1"]
             [Some "Version: v20200311-local"] [] in
  let w' := snd (KnCliConfig.detectOrDownload Demo.linux "kn" w) in
  location <$> tools w' !! "kn" = Some (Some "/home/dev/.vs-kn/kn")
  /\ fst (KnCliConfig.getVersion Demo.linux "/home/dev/.vs-kn/kn" w) = Resolved None
  /\ fst (KnCliConfig.getVersion Demo.linux "/home/dev/.vs-kn/kn" w') = Resolved None
  /\ satisfies Demo.linux None "0.13.1" = false.
Proof. vm_compute. repeat split; reflexivity. Qed.

(** C2 at a failing input. On win32 the download of [kn-windows-amd64.exe]
    arrives with a wrong digest and the user dismisses the checksum prompt:
    the file is deleted, and the cache location is recorded all the same,
    with no file at it. *)
Theorem mismatch_dismissed_marks_resolved :
  let w := mkWorld {[ "kn" := Demo.kn_exe ]} ∅
             [Some "Download and install v0.13.1"; None]
             [Some "corrupt"] [] in
  let w' := snd (KnCliConfig.detectOrDownload Demo.win32 "kn" w) in
  sha256 Demo.win32 "corrupt" <> sha256sum Demo.kn_exe
  /\ fst (KnCliConfig.detectOrDownload Demo.win32 "kn" w)
     = Resolved (Some "C:/Users/dev/.vs-kn/kn.exe")
  /\ location <$> tools w' !! "kn" = Some (Some "C:/Users/dev/.vs-kn/kn.exe")
  /\ fs w' !! "C:/Users/dev/.vs-kn/kn-windows-amd64.exe" = None
  /\ fs w' !! "C:/Users/dev/.vs-kn/kn.exe" = None.
Proof. vm_compute. repeat split; try reflexivity. discriminate. Qed.

(** C4 at a failing input. On win32 the download [kn-windows-amd64.exe]
    ends in none of [.zip], [.tar.gz] and [.gz]: nothing is extracted, and
    the cache location is recorded all the same, with no file at it. *)
Theorem unsupported_extension_marks_resolved :
  let w := mkWorld {[ "kn" := Demo.kn_exe ]} ∅
             [Some "Download and install v0.13.1"]
             [Some "Version: v0.13.1"] [] in
  let w' := snd (KnCliConfig.detectOrDownload Demo.win32 "kn" w) in
  Text.endsWith (KnCliConfig.toolDlLocation Demo.win32 Demo.kn_exe) ".zip" = false
  /\ Text.endsWith (KnCliConfig.toolDlLocation Demo.win32 Demo.kn_exe) ".tar.gz" = false
  /\ Text.endsWith (KnCliConfig.toolDlLocation Demo.win32 Demo.kn_exe) ".gz" = false
  /\ fst (KnCliConfig.detectOrDownload Demo.win32 "kn" w)
     = Resolved (Some "C:/Users/dev/.vs-kn/kn.exe")
  /\ location <$> tools w' !! "kn" = Some (Some "C:/Users/dev/.vs-kn/kn.exe")
  /\ trace w'
     = [EvWhich "kn"; EvExists "C:/Users/dev/.vs-kn/kn.exe";
        EvPrompt "Cannot find Knative CLI tool v0.13.1."
          ["Download and install v0.13.1"; "Help"; "Cancel"];
        EvEnsureDir "C:/Users/dev/.vs-kn";
        EvDownload "https://example.org/kn-windows-amd64.exe"
          "C:/Users/dev/.vs-kn/kn-windows-amd64.exe";
        EvHash "C:/Users/dev/.vs-kn/kn-windows-amd64.exe";
        EvRemove "C:/Users/dev/.vs-kn/kn-windows-amd64.exe"]
  /\ fs w' !! "C:/Users/dev/.vs-kn/kn.exe" = None.
Proof. vm_compute. repeat split; reflexivity. Qed.

(** ** The tool table: [loadMetadata] *)

Section LoadMetadata.
Import Js.

(** Induction on a JSON text, with the members of an object. *)
Lemma json_ind (P : json -> Prop) :
  P JNull -> (forall b, P (JBool b)) -> (forall n, P (JNumber n)) ->
  (forall s, P (JString s)) ->
  (forall members, Forall (fun p => P (snd p)) members -> P (JObject members)) ->
  forall j, P j.
Proof.
  intros Hnull Hbool Hnum Hstr Hobj. fix IH 1. intros [| b | n | s | members].
  - exact Hnull.
  - apply Hbool.
  - apply Hnum.
  - apply Hstr.
  - apply Hobj. induction members as [|[k j] ms IHms]; constructor.
    + apply IH.
    + exact IHms.
Qed.

(** *** Property lists *)


Lemma lookup_prop_app_fresh {A} k (o1 o2 : list (string * A)) :
  k ∉ fst <$> o1 -> lookup_prop k (o1 ++ o2) = lookup_prop k o2.
Proof.
  induction o1 as [|[k' a] o1 IH]; [reflexivity|]. simpl. intros Hk.
  apply not_elem_of_cons in Hk as [Hne Hk].
  destruct (decide (k' = k)); [congruence | apply IH, Hk].
Qed.

Lemma delete_prop_fresh {A} k (o : list (string * A)) :
  k ∉ fst <$> o -> delete_prop k o = o.
Proof.
  induction o as [|[k' a] o IH]; [reflexivity|]. simpl. intros Hk.
  apply not_elem_of_cons in Hk as [Hne Hk].
  destruct (decide (k' = k)); [congruence|]. rewrite IH by exact Hk. reflexivity.
Qed.

Lemma delete_prop_app {A} k (o1 o2 : list (string * A)) :
  delete_prop k (o1 ++ o2) = delete_prop k o1 ++ delete_prop k o2.
Proof.
  induction o1 as [|[k' a] o1 IH]; [reflexivity|]. simpl.
  destruct (decide (k' = k)); [exact IH | simpl; rewrite IH; reflexivity].
Qed.

Lemma aligned_lookup {A B} (R : A -> B -> Prop) k ms o :
  aligned R ms o ->
  match lookup_prop k ms, lookup_prop k o with
  | Some a, Some b => R a b
  | None, None => True
  | _, _ => False
  end.
Proof.
  induction 1 as [|[k1 a] [k2 b] ms o [Hk HR] _ IH]; [exact I|].
  simpl in *. subst k2. destruct (decide (k1 = k)); [exact HR | exact IH].
Qed.

Lemma aligned_set {A B} (R : A -> B -> Prop) k a b ms o :
  aligned R ms o -> R a b -> aligned R (set_prop k a ms) (set_prop k b o).
Proof.
  intros Hal HR. induction Hal as [|[k1 a1] [k2 b1] ms o [Hk HR1] Hal IH]; simpl.
  - constructor; [split; [reflexivity | exact HR] | constructor].
  - simpl in *. subst k2. destruct (decide (k1 = k)).
    + constructor; [split; [reflexivity | exact HR] | exact Hal].
    + constructor; [split; [reflexivity | exact HR1] | exact IH].
Qed.

Lemma aligned_assign {A B} (R : A -> B -> Prop) ms o src_ms src_o :
  aligned R src_ms src_o -> aligned R ms o ->
  aligned R (assign_props ms src_ms) (assign_props o src_o).
Proof.
  unfold assign_props. intros Hsrc. revert ms o.
  induction Hsrc as [|[k1 a] [k2 b] src_ms src_o [Hk HR] _ IH]; intros ms o Hal.
  - exact Hal.
  - simpl in *. subst k2. apply IH. apply aligned_set; assumption.
Qed.

Lemma aligned_delete {A B} (R : A -> B -> Prop) k ms o :
  aligned R ms o -> aligned R (delete_prop k ms) (delete_prop k o).
Proof.
  induction 1 as [|[k1 a] [k2 b] ms o [Hk HR] Hal IH]; simpl; [constructor|].
  simpl in *. subst k2. destruct (decide (k1 = k)); [exact IH|].
  constructor; [split; [reflexivity | exact HR] | exact IH].
Qed.

Lemma aligned_impl {A B} (R R' : A -> B -> Prop) ms o :
  aligned R ms o -> (forall a b, R a b -> R' a b) -> aligned R' ms o.
Proof.
  intros Hal Himp. eapply Forall2_impl; [exact Hal|].
  intros p q [Hk HR]. split; [exact Hk | apply Himp, HR].
Qed.

Lemma aligned_keys {A B} (R : A -> B -> Prop) ms o :
  aligned R ms o -> fst <$> o = fst <$> ms.
Proof.
  induction 1 as [|p q ms o [Hk _] _ IH]; [reflexivity|].
  rewrite !fmap_cons. f_equal; assumption.
Qed.

Lemma lookup_set_prop {A} k k' (a : A) o :
  lookup_prop k (set_prop k' a o)
  = if decide (k' = k) then Some a else lookup_prop k o.
Proof.
  induction o as [|[k1 a1] o IH]; simpl.
  - destruct (decide (k' = k)); reflexivity.
  - destruct (decide (k1 = k')) as [->|Hne]; simpl.
    + destruct (decide (k' = k)); reflexivity.
    + destruct (decide (k1 = k)) as [->|].
      * rewrite decide_False by congruence. reflexivity.
      * exact IH.
Qed.

Lemma lookup_delete_prop {A} k k' (o : list (string * A)) :
  lookup_prop k (delete_prop k' o)
  = if decide (k' = k) then None else lookup_prop k o.
Proof.
  induction o as [|[k1 a1] o IH]; simpl.
  - destruct (decide (k' = k)); reflexivity.
  - destruct (decide (k1 = k')) as [->|Hne]; simpl.
    + rewrite IH. destruct (decide (k' = k)); reflexivity.
    + destruct (decide (k1 = k)) as [->|].
      * rewrite decide_False by congruence. reflexivity.
      * exact IH.
Qed.

(** After [Object.assign], a property has the value that the source gives
    it last, and else the value it had. *)
Lemma lookup_assign_props {A} k (o source : list (string * A)) :
  lookup_prop k (assign_props o source)
  = match lookup_prop k (reverse source) with
    | Some a => Some a
    | None => lookup_prop k o
    end.
Proof.
  unfold assign_props. revert o.
  induction source as [|[k1 a1] source IH]; intros o; [reflexivity|].
  simpl. rewrite IH, reverse_cons, lookup_set_prop.
  assert (Happ : forall l : list (string * A),
             lookup_prop k (l ++ [(k1, a1)])
             = match lookup_prop k l with
               | Some a => Some a
               | None => if decide (k1 = k) then Some a1 else None
               end).
  { induction l as [|[k2 a2] l IHl]; simpl; [reflexivity|].
    destruct (decide (k2 = k)); [reflexivity | exact IHl]. }
  rewrite Happ. destruct (lookup_prop k (reverse source)); [reflexivity|].
  destruct (decide (k1 = k)); reflexivity.
Qed.

(** The entry of the result for a tool whose platform table has overrides
    for the current platform: no [platform] key; every other key has the
    value of the overrides when they define it, and the value of the entry
    otherwise. *)
Lemma merge_overrides_lookup members overrides k :
  jmember (merge_overrides (JObject members) overrides) k
  = if decide ("platform" = k) then None
    else match lookup_prop k (reverse (jown overrides)) with
         | Some a => Some a
         | None => lookup_prop k members
         end.
Proof.
  simpl. rewrite lookup_delete_prop, lookup_assign_props. reflexivity.
Qed.


Lemma resolve_entry_removed platform members table :
  lookup_prop "platform" members = Some (JObject table) ->
  lookup_prop platform table = None ->
  resolve_entry platform (JObject members) = Removed.
Proof.
  intros Ht Ho. unfold resolve_entry. simpl. rewrite Ht. simpl. rewrite Ho.
  reflexivity.
Qed.

Lemma resolve_entry_untouched platform members :
  lookup_prop "platform" members = None ->
  resolve_entry platform (JObject members) = Kept (JObject members).
Proof. intros Ht. unfold resolve_entry. simpl. rewrite Ht. reflexivity. Qed.


(** *** Values that hold a JSON text *)

Lemma repr_weaken h lo hi lo' hi' j v :
  repr h lo hi j v -> lo' <= lo -> hi <= hi' -> repr h lo' hi' j v.
Proof.
  revert v lo hi lo' hi'. induction j as [| | | |members IH] using json_ind;
    intros v lo hi lo' hi' Hr Hlo Hhi; inversion Hr; subst; try constructor.
  match goal with H : Forall2 _ members _ |- _ => rename H into Hch end.
  econstructor; [lia | eassumption |].
  clear - IH Hch Hlo. induction Hch as [|p q ms o' [Hk Hp] _ IHch]; [constructor|].
  inversion IH; subst. constructor; [|apply IHch; assumption].
  split; [exact Hk|]. eapply H1; [exact Hp | exact Hlo | lia].
Qed.

(** The text depends on the objects of its range only. *)
Lemma repr_agree h h' lo hi j v :
  repr h lo hi j v ->
  (forall l, lo <= l < hi -> h' !! l = h !! l) ->
  repr h' lo hi j v.
Proof.
  revert v lo hi. induction j as [| | | |members IH] using json_ind;
    intros v lo hi Hr Hag; inversion Hr; subst; try constructor.
  match goal with H : Forall2 _ members _ |- _ => rename H into Hch end.
  econstructor; [eassumption | rewrite Hag by assumption; eassumption |].
  assert (Hag' : forall l, lo <= l < r -> h' !! l = h !! l)
    by (intros l Hl; apply Hag; lia).
  clear - IH Hch Hag'. induction Hch as [|p q ms o' [Hk Hp] _ IHch]; [constructor|].
  inversion IH; subst. constructor; [|apply IHch; assumption].
  split; [exact Hk|]. apply H1; assumption.
Qed.

Lemma repr_truthy h lo hi j v : repr h lo hi j v -> truthy v = jtruthy j.
Proof. inversion 1; reflexivity. Qed.

(** The own properties of a value are the members of its text. *)
Lemma repr_own h lo hi j v :
  repr h lo hi j v -> aligned (repr h lo hi) (jown j) (own h v).
Proof.
  inversion 1; subst; simpl; try constructor.
  - unfold aligned. induction (string_own s) as [|[k c] l IH]; simpl; constructor.
    + split; [reflexivity | constructor].
    + exact IH.
  - match goal with H : h !! _ = Some _ |- _ => rewrite H end. simpl.
    eapply aligned_impl; [eassumption|].
    intros a b Hab. eapply repr_weaken; [exact Hab | lia | lia].
Qed.

(** Reading a property of a value reads the member of its text. *)
Lemma repr_member h lo hi j v k :
  repr h lo hi j v -> j <> JNull ->
  exists x, member h v k = Some x
    /\ match jmember j k with
       | Some j' => repr h lo hi j' x
       | None => x = VUndefined
       end.
Proof.
  intros Hr Hnn. pose proof (repr_own h lo hi j v Hr) as Hown.
  pose proof (aligned_lookup (repr h lo hi) k _ _ Hown) as Hlk.
  inversion Hr; subst; try congruence; simpl in *.
  - eexists. split; [reflexivity|]. reflexivity.
  - eexists. split; [reflexivity|]. reflexivity.
  - destruct (decide (k = "length")).
    + eexists. split; [reflexivity | constructor].
    + eexists. split; [reflexivity|].
      destruct (lookup_prop k (prod_map id JString <$> string_own s)),
               (lookup_prop k (prod_map id VString <$> string_own s));
        simpl; tauto.
  - eexists. split; [reflexivity|].
    destruct (lookup_prop k members), (lookup_prop k (default [] (h !! r)));
      simpl; tauto.
Qed.

Lemma ranged_le h lo hi ms o : ranged h lo hi ms o -> lo <= hi.
Proof. induction 1; lia. Qed.

Lemma ranged_agree h h' lo hi ms o :
  ranged h lo hi ms o ->
  (forall l, lo <= l < hi -> h' !! l = h !! l) ->
  ranged h' lo hi ms o.
Proof.
  induction 1 as [|lo mid hi k j v ms o Hle Hr Hrest IH]; intros Hag.
  - constructor.
  - pose proof (ranged_le _ _ _ _ _ Hrest).
    econstructor; [exact Hle | |].
    + eapply repr_agree; [exact Hr|]. intros l Hl. apply Hag. lia.
    + apply IH. intros l Hl. apply Hag. lia.
Qed.

Lemma ranged_aligned h lo hi ms o :
  ranged h lo hi ms o -> aligned (repr h lo hi) ms o.
Proof.
  induction 1 as [|lo mid hi k j v ms o Hle Hr Hrest IH]; [constructor|].
  pose proof (ranged_le _ _ _ _ _ Hrest).
  constructor.
  - split; [reflexivity|]. eapply repr_weaken; [exact Hr | lia | lia].
  - eapply aligned_impl; [exact IH|].
    intros a b Hab. eapply repr_weaken; [exact Hab | lia | lia].
Qed.

(** *** [JSON.parse] *)

Lemma parse_object ms h :
  parse (JObject ms) h
  = (VObject (length (snd (parse_members ms h))),
     snd (parse_members ms h) ++ [fst (parse_members ms h)]).
Proof.
  simpl.
  match goal with |- (let '(_, _) := ?f ms h in _) = _ =>
    assert (Heq : forall ms h, f ms h = parse_members ms h)
  end.
  { clear. induction ms as [|[k j] ms IH]; intros h; [reflexivity|].
    simpl. destruct (parse j h) as [v h1]. rewrite IH. reflexivity. }
  rewrite Heq. destruct (parse_members ms h). reflexivity.
Qed.

Lemma lookup_extend (h ext : heap) l : l < length h -> (h ++ ext) !! l = h !! l.
Proof. intros Hl. apply lookup_app_l. exact Hl. Qed.

(** The members of an object extend the heap, one range after the other. *)
Lemma parse_members_ranged ms :
  Forall (fun p => forall h, exists ext,
            snd (parse (snd p) h) = h ++ ext
            /\ repr (h ++ ext) (length h) (length (h ++ ext)) (snd p)
                 (fst (parse (snd p) h))) ms ->
  forall h, exists ext,
    snd (parse_members ms h) = h ++ ext
    /\ ranged (h ++ ext) (length h) (length (h ++ ext)) ms
         (fst (parse_members ms h)).
Proof.
  induction 1 as [|[k j] ms Hj _ IHms]; intros h.
  - exists []. rewrite app_nil_r. split; [reflexivity | constructor].
  - simpl in Hj. destruct (Hj h) as (e1 & Hh1 & Hr1).
    simpl. destruct (parse j h) as [v h1]. simpl in Hh1, Hr1. subst h1.
    destruct (IHms (h ++ e1)) as (e2 & Hh2 & Hr2).
    destruct (parse_members ms (h ++ e1)) as [o h2]. simpl in Hh2, Hr2. subst h2.
    exists (e1 ++ e2). rewrite app_assoc. split; [reflexivity|].
    econstructor; [| |exact Hr2].
    + rewrite length_app. lia.
    + eapply repr_agree; [exact Hr1|]. intros l Hl.
      apply lookup_extend. lia.
Qed.

(** [JSON.parse] extends the heap, and its result holds the text in the
    new objects. *)
Lemma parse_spec j :
  forall h, exists ext,
    snd (parse j h) = h ++ ext
    /\ repr (h ++ ext) (length h) (length (h ++ ext)) j (fst (parse j h)).
Proof.
  induction j as [| | | |members IH] using json_ind; intros h;
    try (exists []; rewrite app_nil_r; split; [reflexivity | constructor]).
  destruct (parse_members_ranged members IH h) as (ext & Hh & Hr).
  rewrite parse_object.
  destruct (parse_members members h) as [o h']. simpl in *. subst h'.
  exists (ext ++ [o]). rewrite app_assoc. split; [reflexivity|].
  pose proof (ranged_le _ _ _ _ _ Hr) as Hle.
  econstructor.
  - rewrite (length_app (h ++ ext)). simpl. lia.
  - rewrite lookup_app_r by lia. rewrite Nat.sub_diag. reflexivity.
  - apply ranged_aligned. eapply ranged_agree; [exact Hr|].
    intros l Hl. apply lookup_extend. lia.
Qed.

Lemma parse_members_spec ms h :
  exists ext,
    snd (parse_members ms h) = h ++ ext
    /\ ranged (h ++ ext) (length h) (length (h ++ ext)) ms
         (fst (parse_members ms h)).
Proof.
  apply parse_members_ranged. apply Forall_forall. intros p _. apply parse_spec.
Qed.

(** *** One turn of the loop *)

Lemma bind_get {B} v k x (f : value -> Comp heap B) h :
  member h v k = Some x -> bind (get v k) f h = f x h.
Proof. intros Hm. unfold bind, get. rewrite Hm. reflexivity. Qed.

Lemma repr_inner h lo hi j v : repr h lo hi j v -> inner v hi <= hi.
Proof. inversion 1; simpl; lia. Qed.

Lemma repr_member_inner h lo hi j v k :
  repr h lo hi j v -> j <> JNull ->
  exists x, member h v k = Some x
    /\ match jmember j k with
       | Some j' => repr h lo (inner v hi) j' x
       | None => x = VUndefined
       end.
Proof.
  intros Hr Hnn. inversion Hr; subst; try congruence.
  - apply (repr_member h lo hi _ _ k Hr Hnn).
  - apply (repr_member h lo hi _ _ k Hr Hnn).
  - apply (repr_member h lo hi _ _ k Hr Hnn).
  - simpl. eexists. split; [reflexivity|].
    match goal with H : h !! r = Some _ |- _ => rewrite H end. simpl.
    match goal with H : Forall2 _ members o |- _ =>
      pose proof (aligned_lookup (repr h lo r) k _ _ H) as Hlk end.
    destruct (lookup_prop k members), (lookup_prop k o); simpl; tauto.
Qed.

Lemma member_entry h r done k v rest :
  h !! r = Some (done ++ (k, v) :: rest) ->
  k ∉ fst <$> done ->
  member h (VObject r) k = Some v.
Proof.
  intros Hr Hk. simpl. rewrite Hr. simpl.
  rewrite lookup_prop_app_fresh by exact Hk. simpl.
  rewrite decide_True by reflexivity. reflexivity.
Qed.

(** One turn of the loop, on the key [k] of the copy [r], whose entry [v]
    holds the text [e] in the range from [lo] to [mid]. *)
Lemma loadMetadata_step_spec platform h r done k v rest lo mid e :
  h !! r = Some (done ++ (k, v) :: rest) ->
  k ∉ fst <$> done ->
  repr h lo mid e v -> mid <= r ->
  match resolve_entry platform e with
  | Fails =>
      KnCliConfig.loadMetadata_step (VObject r) platform k h = (Rejected TypeError, h)
  | Removed =>
      KnCliConfig.loadMetadata_step (VObject r) platform k h
      = (Resolved tt, <[r := delete_prop k (done ++ (k, v) :: rest)]> h)
  | Kept e' =>
      exists h',
        KnCliConfig.loadMetadata_step (VObject r) platform k h = (Resolved tt, h')
        /\ repr h' lo mid e' v
        /\ length h' = length h
        /\ (forall l, ~ lo <= l < mid -> h' !! l = h !! l)
  end.
Proof.
  intros Hr Hk Hrepr Hmid.
  pose proof (member_entry h r done k v rest Hr Hk) as Hentry.
  unfold KnCliConfig.loadMetadata_step.
  rewrite (bind_get _ _ _ _ _ Hentry).
  assert (e = JNull \/ e <> JNull) as [->|Hnn]
    by (destruct e; (left; reflexivity) || (right; discriminate)).
  { inversion Hrepr; subst. simpl. reflexivity. }
  assert (Hres : resolve_entry platform e =
            match jmember e "platform" with
            | Some table =>
                if jtruthy table then
                  match jmember table platform with
                  | Some overrides =>
                      if jtruthy overrides
                      then Kept (merge_overrides e overrides) else Removed
                  | None => Removed
                  end
                else Kept e
            | None => Kept e
            end) by (destruct e; congruence || reflexivity).
  rewrite Hres. clear Hres.
  destruct (repr_member_inner h lo mid e v "platform" Hrepr Hnn) as (t & Ht & Htab).
  pose proof (repr_inner _ _ _ _ _ Hrepr) as Hin.
  rewrite (bind_get _ _ _ _ _ Ht).
  assert (Hkeep : (ret tt : Comp heap unit) h = (Resolved tt, h)) by reflexivity.
  destruct (jmember e "platform") as [tj|].
  2:{ subst t. simpl. exists h. repeat split; auto. }
  rewrite (repr_truthy _ _ _ _ _ Htab).
  destruct (jtruthy tj) eqn:Htruthy.
  2:{ exists h. repeat split; auto. }
  assert (Htnn : tj <> JNull) by (intros ->; discriminate).
  rewrite (bind_get _ _ _ _ _ Hentry), (bind_get _ _ _ _ _ Ht).
  destruct (repr_member h lo (inner v mid) tj t platform Htab Htnn) as (x & Hx & Hov).
  rewrite (bind_get _ _ _ _ _ Hx).
  assert (Hremove : delete_member (VObject r) k h
                    = (Resolved tt, <[r := delete_prop k (done ++ (k, v) :: rest)]> h)).
  { unfold delete_member. rewrite Hr. reflexivity. }
  destruct (jmember tj platform) as [oj|].
  2:{ subst x. simpl. exact Hremove. }
  rewrite (repr_truthy _ _ _ _ _ Hov).
  destruct (jtruthy oj) eqn:Hotruthy; [|exact Hremove].
  rewrite (bind_get _ _ _ _ _ Hentry), (bind_get _ _ _ _ _ Hentry),
    (bind_get _ _ _ _ _ Ht), (bind_get _ _ _ _ _ Hx).
  pose proof (repr_own _ _ _ _ _ Hov) as Hown.
  inversion Hrepr; subst; try congruence.
  1-3: exists h; (split; [|repeat split; auto; constructor]);
       unfold bind at 1, Object_assign; cbv beta iota;
       rewrite (bind_get _ _ _ _ _ Hentry); reflexivity.
  - simpl in Hov, Hown, Hin.
    match goal with H : h !! r0 = Some _ |- _ => rename H into Hl end.
    match goal with H : Forall2 _ members o |- _ => rename H into Hch end.
    match goal with H : lo <= r0 < mid |- _ => rename H into Hrange end.
    assert (Hlen : r0 < length h) by (apply lookup_lt_is_Some; eauto).
    exists (<[r0 := delete_prop "platform" (assign_props o (own h x))]> h).
    split; [|split; [|split]].
    + unfold bind at 1, Object_assign. rewrite Hl.
      assert (Hentry' : member (<[r0 := assign_props o (own h x)]> h) (VObject r) k
                        = Some (VObject r0)).
      { simpl. rewrite list_lookup_insert_ne by lia. exact Hentry. }
      rewrite (bind_get _ _ _ _ _ Hentry').
      unfold delete_member. rewrite list_lookup_insert_eq by exact Hlen.
      rewrite list_insert_insert_eq. reflexivity.
    + econstructor; [exact Hrange | apply list_lookup_insert_eq; exact Hlen |].
      apply (aligned_impl (repr h lo r0)).
      * apply aligned_delete, aligned_assign; [exact Hown | exact Hch].
      * intros a b Hab. eapply repr_agree; [exact Hab|].
        intros l ?. apply list_lookup_insert_ne. lia.
    + apply length_insert.
    + intros l Hl'. apply list_lookup_insert_ne. lia.
Qed.

(** *** The loop *)

Lemma for_each_cons {S} k keys (body : string -> Comp S unit) s :
  for_each (k :: keys) body s
  = match body k s with
    | (Resolved _, s') => for_each keys body s'
    | (Rejected e, s') => (Rejected e, s')
    end.
Proof. reflexivity. Qed.

(** The loop over the keys that are left, [todo], when the entries before
    them, [done], have been dealt with. *)
Lemma loadMetadata_loop platform base r :
  forall todo_ms todo done_ms done h lo,
    ranged h lo r todo_ms todo ->
    aligned (repr h base lo) done_ms done ->
    h !! r = Some (done ++ todo) ->
    NoDup (fst <$> (done ++ todo)) ->
    base <= lo ->
    exists out h',
      for_each (fst <$> todo_ms) (KnCliConfig.loadMetadata_step (VObject r) platform) h
      = (out, h')
      /\ length h' = length h
      /\ (forall l, l < base -> h' !! l = h !! l)
      /\ match resolve_members platform todo_ms with
         | Some res =>
             out = Resolved tt
             /\ exists o', h' !! r = Some o'
                  /\ aligned (repr h' base r) (done_ms ++ res) o'
         | None => out = Rejected TypeError
         end.
Proof.
  induction todo_ms as [|[k e] ms IH]; intros todo done_ms done h lo Hrg Hdone Hr Hnd Hbase.
  - inversion Hrg; subst. exists (Resolved tt), h.
    split; [reflexivity|]. split; [reflexivity|]. split; [reflexivity|].
    split; [reflexivity|]. exists (done ++ []).
    split; [exact Hr|]. rewrite !app_nil_r. exact Hdone.
  - inversion Hrg as [|lo' mid hi' k' j' v ms' o Hle Hrepr Hrest]; subst.
    pose proof (ranged_le _ _ _ _ _ Hrest) as Hmid.
    assert (Hrlen : r < length h) by (apply lookup_lt_is_Some; eauto).
    assert (Hk : k ∉ fst <$> done).
    { rewrite fmap_app in Hnd. apply NoDup_app in Hnd as (_ & Hdisj & _).
      intros Hin. apply (Hdisj k Hin). rewrite fmap_cons. left. }
    assert (Hk' : k ∉ fst <$> o).
    { rewrite fmap_app in Hnd. apply NoDup_app in Hnd as (_ & _ & Hnd).
      rewrite fmap_cons in Hnd. apply NoDup_cons in Hnd as [Hnd _]. exact Hnd. }
    pose proof (loadMetadata_step_spec platform h r done k v o lo mid e
                  Hr Hk Hrepr Hmid) as Hstep.
    rewrite fmap_cons, for_each_cons. simpl fst. simpl resolve_members.
    destruct (resolve_entry platform e) as [e'| |].
    + destruct Hstep as (h1 & -> & Hrepr1 & Hlen1 & Hout1).
      destruct (IH o (done_ms ++ [(k, e')]) (done ++ [(k, v)]) h1 mid)
        as (out & h' & Hrun & Hlen & Hframe & Hres).
      * eapply ranged_agree; [exact Hrest|]. intros l Hl. apply Hout1. lia.
      * apply Forall2_app.
        -- apply (aligned_impl (repr h base lo)); [exact Hdone|].
           intros a b Hab. eapply repr_weaken; [|reflexivity|exact Hle].
           eapply repr_agree; [exact Hab|]. intros l Hl. apply Hout1. lia.
        -- constructor; [|constructor]. split; [reflexivity|].
           eapply repr_weaken; [exact Hrepr1 | exact Hbase | reflexivity].
      * rewrite Hout1 by lia. rewrite Hr, <- app_assoc. reflexivity.
      * rewrite <- app_assoc. exact Hnd.
      * lia.
      * exists out, h'. split; [exact Hrun|]. split; [lia|]. split.
        { intros l Hl. rewrite Hframe by exact Hl. apply Hout1. lia. }
        destruct (resolve_members platform ms) as [res|]; simpl; [|exact Hres].
        destruct Hres as (-> & o' & Ho' & Hal). split; [reflexivity|].
        exists o'. split; [exact Ho'|]. rewrite <- app_assoc in Hal. exact Hal.
    + rewrite Hstep.
      assert (Hdel : delete_prop k (done ++ (k, v) :: o) = done ++ o).
      { rewrite delete_prop_app, delete_prop_fresh by exact Hk. simpl.
        rewrite decide_True by reflexivity.
        rewrite delete_prop_fresh by exact Hk'. reflexivity. }
      rewrite Hdel.
      destruct (IH o done_ms done (<[r := done ++ o]> h) mid)
        as (out & h' & Hrun & Hlen & Hframe & Hres).
      * eapply ranged_agree; [exact Hrest|]. intros l Hl.
        apply list_lookup_insert_ne. lia.
      * apply (aligned_impl (repr h base lo)); [exact Hdone|].
        intros a b Hab. eapply repr_weaken; [|reflexivity|exact Hle].
        eapply repr_agree; [exact Hab|]. intros l Hl.
        apply list_lookup_insert_ne. lia.
      * apply list_lookup_insert_eq. exact Hrlen.
      * rewrite fmap_app in Hnd |- *. rewrite fmap_cons in Hnd.
        apply NoDup_app in Hnd as (Hnd1 & Hdisj & Hnd2).
        apply NoDup_app. split; [exact Hnd1|]. split.
        -- intros x Hx Hx'. apply (Hdisj x Hx). right. exact Hx'.
        -- apply NoDup_cons in Hnd2 as [_ Hnd2]. exact Hnd2.
      * lia.
      * exists out, h'. split; [exact Hrun|].
        rewrite length_insert in Hlen. split; [exact Hlen|]. split; [|exact Hres].
        intros l Hl. rewrite Hframe by exact Hl.
        apply list_lookup_insert_ne. lia.
    + rewrite Hstep. exists (Rejected TypeError), h.
      split; [reflexivity|]. split; [reflexivity|]. split; reflexivity.
Qed.

(** *** The whole function *)

(** [loadMetadata] on a tool table that is an object with the entries
    [entries]. *)
Lemma loadMetadata_spec (h : heap) (requirements : value) (platform : string)
  (entries : list (string * json)) :
  stringify (S (length h)) h requirements = Some (JObject entries) ->
  fst <$> own h requirements = fst <$> entries ->
  NoDup (fst <$> entries) ->
  let result := KnCliConfig.loadMetadata requirements platform h in
  (forall l, l < length h -> snd result !! l = h !! l)
  /\ match resolve_members platform entries with
     | Some table =>
         exists r, fst result = Resolved (VObject r)
           /\ repr (snd result) (length h) (length (snd result))
                (JObject table) (VObject r)
     | None => fst result = Rejected TypeError
     end.
Proof.
  intros Htext Hkeys Hnd.
  assert (exists r0 o0, requirements = VObject r0 /\ h !! r0 = Some o0)
    as (r0 & o0 & -> & Hr0).
  { destruct requirements; try discriminate. simpl in Htext.
    destruct (h !! address) as [o0|] eqn:Ho; [eauto | discriminate]. }
  assert (Hr0len : r0 < length h) by (apply lookup_lt_is_Some; eauto).
  remember (KnCliConfig.loadMetadata (VObject r0) platform h) as result eqn:Hresult.
  cbv zeta.
  unfold KnCliConfig.loadMetadata in Hresult.
  unfold bind at 1, JSON_stringify in Hresult. rewrite Htext in Hresult.
  unfold bind at 1, JSON_parse in Hresult. rewrite parse_object in Hresult.
  destruct (parse_members_spec entries h) as (ext & Hh' & Hrg).
  destruct (parse_members entries h) as [o h']. simpl in Hh', Hrg. subst h'.
  simpl fst in Hresult. simpl snd in Hresult.
  set (r := length (h ++ ext)) in *. set (h1 := (h ++ ext) ++ [o]) in *.
  pose proof (ranged_le _ _ _ _ _ Hrg) as Hle.
  assert (Hagree : forall l, l < r -> h1 !! l = (h ++ ext) !! l)
    by (intros l Hl; apply lookup_extend; exact Hl).
  assert (Hrg1 : ranged h1 (length h) r entries o).
  { eapply ranged_agree; [exact Hrg|]. intros l Hl. apply Hagree. lia. }
  unfold bind at 1, for_in in Hresult. cbv beta iota in Hresult.
  assert (Hown : own h1 (VObject r0) = o0).
  { simpl. unfold h1. rewrite lookup_extend by (rewrite length_app; lia).
    rewrite lookup_extend by exact Hr0len. rewrite Hr0. reflexivity. }
  rewrite Hown in Hresult. simpl in Hkeys. rewrite Hr0 in Hkeys. simpl in Hkeys.
  rewrite Hkeys in Hresult.
  destruct (loadMetadata_loop platform (length h) r entries o [] [] h1 (length h))
    as (out & h2 & Hrun & Hlen & Hframe & Hres).
  - exact Hrg1.
  - constructor.
  - unfold h1, r. rewrite lookup_app_r by lia. rewrite Nat.sub_diag. reflexivity.
  - simpl. rewrite (aligned_keys _ _ _ (ranged_aligned _ _ _ _ _ Hrg1)). exact Hnd.
  - lia.
  - unfold bind at 1 in Hresult. rewrite Hrun in Hresult.
    assert (Hframe' : forall l, l < length h -> h2 !! l = h !! l).
    { intros l Hl. rewrite Hframe by exact Hl. unfold h1.
      rewrite lookup_extend by (rewrite length_app; lia).
      apply lookup_extend. exact Hl. }
    destruct (resolve_members platform entries) as [table|].
    + destruct Hres as (-> & o' & Ho' & Hal). subst result. simpl.
      split; [exact Hframe'|]. exists r. split; [reflexivity|].
      econstructor; [|exact Ho'|exact Hal].
      rewrite Hlen. unfold h1. rewrite length_app. simpl. fold r. lia.
    + subst out result. simpl. split; [exact Hframe' | reflexivity].
Qed.

(** *** The input is left alone *)

















End LoadMetadata.



(** The tool table of the demonstration, loaded on Linux: [kn] with the
    Linux overrides and no [platform] key, [odo] removed, [oc] as it is;
    on a platform that no table names, only [oc] is left. *)
Example resolve_members_linux :
  resolve_members "linux" Demo.entries
  = Some [("kn", Js.JObject
             [("description", Js.JString "Knative CLI tool");
              ("versionRange", Js.JString "0.13.1");
              ("cmdFileName", Js.JString "kn");
              ("dlFileName", Js.JString "kn-linux-amd64");
              ("url", Js.JString "https://example.org/kn-linux-amd64")]);
          ("oc", Js.JObject [("description", Js.JString "OpenShift client")])].
Proof. reflexivity. Qed.

Example resolve_members_win32 :
  resolve_members "win32" Demo.entries
  = Some [("kn", Js.JObject
             [("description", Js.JString "Knative CLI tool");
              ("versionRange", Js.JString "0.13.1");
              ("cmdFileName", Js.JString "kn.exe");
              ("dlFileName", Js.JString "kn-windows-amd64.exe")]);
          ("oc", Js.JObject [("description", Js.JString "OpenShift client")])].
Proof. reflexivity. Qed.

Example resolve_members_aix :
  resolve_members "aix" Demo.entries
  = Some [("oc", Js.JObject [("description", Js.JString "OpenShift client")])].
Proof. reflexivity. Qed.

Example loadMetadata_linux :
  let result := KnCliConfig.loadMetadata Demo.configData "linux" Demo.configHeap in
  (Js.stringify 3 (snd result) <$> match fst result with
                                   | Resolved v => Some v
                                   | Rejected _ => None
                                   end)
  = Some (Js.JObject <$> resolve_members "linux" Demo.entries)
  /\ Js.stringify 4 (snd result) Demo.configData = Some Demo.config.
Proof. vm_compute. split; reflexivity. Qed.

(** ** Loading the tool table again *)

Section Reload.
Import Js.

Lemma stringify_object n h r :
  stringify (S n) h (VObject r)
  = o ← h !! r; JObject <$> stringify_members n h o.
Proof.
  simpl. destruct (h !! r) as [o|]; [|reflexivity]. simpl. f_equal.
  induction o as [|[k v] o IH]; [reflexivity|].
  simpl. rewrite IH. reflexivity.
Qed.

Lemma stringify_primitive n h v :
  (forall r, v <> VObject r) ->
  stringify n h v = stringify 0 h v.
Proof.
  destruct v as [| | | | |r]; intros Hv; try (destruct n; reflexivity).
  exfalso. apply (Hv r). reflexivity.
Qed.



(** A value that holds a text in a range of addresses has that text, at
    any depth that the range allows. *)
Lemma repr_stringify j :
  forall h lo hi v fuel,
    repr h lo hi j v -> hi - lo <= fuel -> stringify fuel h v = Some j.
Proof.
  induction j as [| | | |members IH] using json_ind; intros h lo hi v fuel Hr Hn;
    inversion Hr as [| | | |? ? r o ? Hrange Hlook Hch]; subst;
    try (rewrite stringify_primitive by discriminate; reflexivity).
  destruct fuel as [|fuel]; [lia|].
  rewrite stringify_object, Hlook. simpl.
  assert (Hms : stringify_members fuel h o = Some members).
  { assert (Hfuel : r - lo <= fuel) by lia.
    clear - IH Hch Hfuel.
    induction Hch as [|[k j] [k' v] ms o' [Hk Hp] _ IHch]; [reflexivity|].
    simpl in Hk, Hp. subst k'. inversion IH as [|? ? Hj Hrest]; subst.
    simpl in Hj. simpl.
    rewrite (Hj h lo r v fuel Hp Hfuel). rewrite (IHch Hrest). simpl.
    inversion Hp; reflexivity. }
  rewrite Hms. reflexivity.
Qed.

(** *** What [resolve_members] keeps *)







(** The loaded table has some of the keys of the table, in their order. *)
Lemma resolve_members_sublist platform entries table :
  resolve_members platform entries = Some table ->
  sublist (fst <$> table) (fst <$> entries).
Proof.
  revert table. induction entries as [|[k e] entries IH]; intros table Hres.
  - injection Hres as <-. constructor.
  - simpl in Hres. rewrite fmap_cons. destruct (resolve_entry platform e) as [e'| |].
    + destruct (resolve_members platform entries) as [t|]; [|discriminate].
      injection Hres as <-. rewrite fmap_cons. apply sublist_skip, IH. reflexivity.
    + apply sublist_cons, IH, Hres.
    + discriminate.
Qed.

(** *** The loaded table as a text *)

Lemma loadMetadata_text (h : heap) (requirements : value) (platform : string)
  (entries table : list (string * json)) :
  text_of h requirements (JObject entries) ->
  fst <$> own h requirements = fst <$> entries ->
  NoDup (fst <$> entries) ->
  resolve_members platform entries = Some table ->
  let result := KnCliConfig.loadMetadata requirements platform h in
  exists r, fst result = Resolved (VObject r)
    /\ length h <= r
    /\ text_of (snd result) (VObject r) (JObject table)
    /\ fst <$> own (snd result) (VObject r) = fst <$> table.
Proof.
  intros Htext Hkeys Hnd Hres.
  destruct (loadMetadata_spec h requirements platform entries Htext Hkeys Hnd)
    as [_ Hspec].
  rewrite Hres in Hspec. destruct Hspec as (r & Hout & Hrepr).
  cbv zeta. exists r. split; [exact Hout|].
  split; [inversion Hrepr; lia|]. split.
  - unfold text_of. eapply repr_stringify; [exact Hrepr | lia].
  - apply (aligned_keys _ _ _ (repr_own _ _ _ _ _ Hrepr)).
Qed.




(** *** What the calls keep of the heap *)








(** *** Reading the loaded table *)


(** The keys of the result. *)
Lemma loadMetadata_keys (h : heap) (requirements : value) (platform : string)
  (entries : list (string * json)) (loaded : value) :
  text_of h requirements (JObject entries) ->
  fst <$> own h requirements = fst <$> entries ->
  NoDup (fst <$> entries) ->
  let result := KnCliConfig.loadMetadata requirements platform h in
  fst result = Resolved loaded ->
  sublist (fst <$> own (snd result) loaded) (fst <$> own h requirements).
Proof.
  intros Htext Hkeys Hnd. cbv zeta. intros Hout.
  destruct (resolve_members platform entries) as [table|] eqn:Hres.
  - destruct (loadMetadata_text h requirements platform entries table
                Htext Hkeys Hnd Hres) as (r & Hout' & _ & _ & Hk).
    rewrite Hout in Hout'. injection Hout' as ->.
    rewrite Hk, Hkeys. eapply resolve_members_sublist, Hres.
  - destruct (loadMetadata_spec h requirements platform entries Htext Hkeys Hnd)
      as [_ Hspec].
    rewrite Hres in Hspec. rewrite Hspec in Hout. discriminate.
Qed.


(** *** Values that are not objects *)






End Reload.

(** ** The tool table over the life of the process *)





(** X3. [loadMetadata] adds no tool and keeps the order of the tools: the
    keys of the table it resolves with are keys of the table it was given,
    in the same order. *)
Theorem loadMetadata_keeps_order (h : Js.heap) (requirements : Js.value)
  (platform : string) (entries : list (string * Js.json)) :
  text_of h requirements (Js.JObject entries) ->
  fst <$> Js.own h requirements = fst <$> entries ->
  NoDup (fst <$> entries) ->
  let result := KnCliConfig.loadMetadata requirements platform h in
  match fst result with
  | Resolved loaded =>
      sublist (fst <$> Js.own (snd result) loaded) (fst <$> Js.own h requirements)
  | Rejected _ => True
  end.
Proof.
  intros Htext Hkeys Hnd. cbv zeta.
  pose proof (loadMetadata_keys h requirements platform entries) as H.
  cbv zeta in H.
  destruct (fst (KnCliConfig.loadMetadata requirements platform h)) as [loaded|];
    [|exact I].
  apply H; [exact Htext | exact Hkeys | exact Hnd | reflexivity].
Qed.

Lemma loadMetadata_keeps_order_witness :
  let result := KnCliConfig.loadMetadata Demo.configData "linux" Demo.configHeap in
  match fst result with
  | Resolved loaded =>
      sublist (fst <$> Js.own (snd result) loaded)
              (fst <$> Js.own Demo.configHeap Demo.configData)
  | Rejected _ => True
  end.
Proof.
  apply (loadMetadata_keeps_order Demo.configHeap Demo.configData "linux"
           Demo.entries).
  - vm_compute. reflexivity.
  - vm_compute. reflexivity.
  - apply (bool_decide_unpack _). vm_compute. exact I.
Defined.





(** ** More on the candidate search and the version pattern *)

Section Search.
Import KnCliConfig.
Context (host : Host).

(** The candidates of a list and then those of another. *)
Lemma selectTool_append before after range w :
  selectTool host (before ++ after) range w
  = match selectTool host before range w with
    | (Resolved (Some l), w') => (Resolved (Some l), w')
    | (Resolved None, w') => selectTool host after range w'
    | (Rejected e, w') => (Rejected e, w')
    end.
Proof.
  revert w. induction before as [|[l|] before IH]; intros w.
  - reflexivity.
  - destruct (decide (l = "")) as [->|Hl].
    + rewrite <- app_comm_cons, !selectTool_skip_empty. apply IH.
    + rewrite <- app_comm_cons, !selectTool_step by exact Hl.
      destruct (getVersion host l w) as [[v|e] w1]; [|reflexivity].
      destruct (satisfies host v range); [reflexivity | apply IH].
  - rewrite <- app_comm_cons, !selectTool_skip_null. apply IH.
Qed.

Lemma examines_cons c locations files e :
  examines locations files e -> examines (c :: locations) files e.
Proof.
  intros (l & Hin & Hl & He). exists l. split; [right; exact Hin | auto].
Qed.

(** What [selectTool] does to the process. *)
Lemma selectTool_events locations range w :
  let w' := snd (selectTool host locations range w) in
  tools w' = tools w /\ fs w' = fs w /\ ui w' = ui w /\ net w' = net w
  /\ exists events,
       trace w' = trace w ++ events
       /\ Forall (examines locations (fs w)) events.
Proof.
  cbv zeta. revert w. induction locations as [|[l|] rest IH]; intros w.
  - simpl. repeat split. exists []. rewrite app_nil_r. split; [reflexivity | constructor].
  - destruct (decide (l = "")) as [->|Hl].
    + rewrite selectTool_skip_empty.
      destruct (IH w) as (Ht & Hf & Hu & Hn & events & He & Hall).
      repeat split; trivial. exists events. split; [exact He|].
      eapply Forall_impl; [exact Hall|]. intros e. apply examines_cons.
    + rewrite selectTool_step by exact Hl. rewrite getVersion_run.
      assert (Hexists : examines (Some l :: rest) (fs w) (EvExists l)).
      { exists l. split; [left|]. split; [exact Hl | left; reflexivity]. }
      destruct (file_exists (fs w) l) eqn:Hex.
      * assert (Hexec : examines (Some l :: rest) (fs w)
                          (EvExecute (versionCommand l))).
        { exists l. split; [left|]. split; [exact Hl | right; auto]. }
        destruct (satisfies host _ range).
        -- simpl. repeat split.
           exists [EvExists l; EvExecute (versionCommand l)].
           split; [rewrite <- app_assoc; reflexivity|].
           constructor; [exact Hexists|]. constructor; [exact Hexec | constructor].
        -- destruct (IH (log (EvExecute (versionCommand l)) (log (EvExists l) w)))
             as (Ht & Hf & Hu & Hn & events & He & Hall).
           simpl in *. repeat split; trivial.
           exists (EvExists l :: EvExecute (versionCommand l) :: events).
           split; [rewrite He, <- !app_assoc; reflexivity|].
           constructor; [exact Hexists|]. constructor; [exact Hexec|].
           eapply Forall_impl; [exact Hall|]. intros e. apply examines_cons.
      * destruct (IH (log (EvExists l) w))
          as (Ht & Hf & Hu & Hn & events & He & Hall).
        simpl in *. repeat split; trivial.
        exists (EvExists l :: events).
        split; [rewrite He, <- !app_assoc; reflexivity|].
        constructor; [exact Hexists|].
        eapply Forall_impl; [exact Hall|]. intros e. apply examines_cons.
  - rewrite selectTool_skip_null.
    destruct (IH w) as (Ht & Hf & Hu & Hn & events & He & Hall).
    repeat split; trivial. exists events. split; [exact He|].
    eapply Forall_impl; [exact Hall|]. intros e. apply examines_cons.
Qed.

Lemma examines_probe locations files e : examines locations files e -> is_probe e.
Proof. intros (l & _ & _ & [->|[-> _]]); exact I. Qed.

End Search.

Section Detection.
Import Text VersionPattern.

Lemma span_app p m r :
  Forall (fun c => p c = true) m ->
  match r with [] => True | c :: _ => p c = false end ->
  span p (m ++ r) = (m, r).
Proof.
  intros Hm Hr. induction Hm as [|c m Hc _ IH]; simpl.
  - destruct r as [|c r]; [reflexivity|]. simpl. rewrite Hr. reflexivity.
  - rewrite Hc, IH. reflexivity.
Qed.

Lemma many1_app p m r :
  m <> [] -> Forall (fun c => p c = true) m ->
  match r with [] => True | c :: _ => p c = false end ->
  many1 p (m ++ r) = Some (m, r).
Proof.
  intros Hne Hm Hr. unfold many1. rewrite span_app by assumption.
  destruct m; [contradiction | reflexivity].
Qed.

Lemma lit_app pat l : lit pat (pat ++ l) = Some l.
Proof.
  induction pat as [|c pat IH]; simpl; [destruct l; reflexivity|].
  rewrite decide_True by reflexivity. exact IH.
Qed.

Lemma tagged_none sep rest :
  match rest with [] => True | c :: _ => c <> sep end ->
  tagged sep rest = ([], rest).
Proof.
  destruct rest as [|c [|d rest]]; try reflexivity.
  intros Hc. simpl. rewrite decide_False by exact Hc. reflexivity.
Qed.

(** A match attempt at a line that starts with a version. *)
Lemma match_here_version blanks major minor patch rest :
  blanks <> [] -> Forall (fun c => is_space c = true) blanks ->
  numeric major -> numeric minor -> numeric patch ->
  ends_version rest ->
  match_here (chars "Version:" ++ blanks ++ "v"%char :: major ++ "."%char
                :: minor ++ "."%char :: patch ++ rest)
  = Some (major ++ "."%char :: minor ++ "."%char :: patch).
Proof.
  intros Hb Hsp [HM1 HM2] [Hm1 Hm2] [Hp1 Hp2] Hrest.
  unfold match_here. rewrite lit_app. cbn [mbind option_bind].
  rewrite many1_app by (try assumption; reflexivity). cbn [mbind option_bind].
  change (lit ["v"%char] ("v"%char :: ?l)) with (Some l).
  assert (Hcore : core (major ++ "."%char :: minor ++ "."%char :: patch ++ rest)
                  = Some (major ++ "."%char :: minor ++ "."%char :: patch, rest)).
  { unfold core.
    rewrite many1_app by (try assumption; reflexivity). cbn [mbind option_bind].
    change (lit ["."%char] ("."%char :: ?l)) with (Some l). cbn [mbind option_bind].
    rewrite many1_app by (try assumption; reflexivity). cbn [mbind option_bind].
    change (lit ["."%char] ("."%char :: ?l)) with (Some l). cbn [mbind option_bind].
    rewrite many1_app; try assumption; [reflexivity|].
    destruct rest as [|c rest]; [exact I | apply Hrest]. }
  simpl lit. cbn [mbind option_bind]. rewrite Hcore. cbn [mbind option_bind].
  rewrite tagged_none by (destruct rest as [|c rest]; [exact I | apply Hrest]).
  rewrite tagged_none by (destruct rest as [|c rest]; [exact I | apply Hrest]).
  rewrite !app_nil_r. reflexivity.
Qed.

Lemma match_here_other c l : c <> "V"%char -> match_here (c :: l) = None.
Proof.
  intros Hc. unfold match_here. simpl.
  rewrite decide_False by congruence. reflexivity.
Qed.

Lemma exec_version before blanks major minor patch rest :
  Forall (fun c => c <> "V"%char) before ->
  blanks <> [] -> Forall (fun c => is_space c = true) blanks ->
  numeric major -> numeric minor -> numeric patch ->
  ends_version rest ->
  exec (before ++ chars "Version:" ++ blanks ++ "v"%char :: major ++ "."%char
          :: minor ++ "."%char :: patch ++ rest)
  = Some (major ++ "."%char :: minor ++ "."%char :: patch).
Proof.
  intros Hbefore Hb Hsp HM Hm Hp Hrest.
  induction Hbefore as [|c before Hc _ IH].
  - rewrite app_nil_l, exec_unfold.
    rewrite match_here_version by assumption. reflexivity.
  - rewrite exec_unfold. rewrite <- app_comm_cons.
    rewrite match_here_other by exact Hc. exact IH.
Qed.

End Detection.

(** X6. The search goes through a list of candidates that is made of two
    parts as through the first part and then, only when the first part has
    no candidate to select, through the second: once a candidate is
    selected, no later candidate is looked up or executed. *)
Theorem selectTool_app (host : Host) (before after : list (option string))
  (range : string) (w : World) :
  KnCliConfig.selectTool host (before ++ after) range w
  = match KnCliConfig.selectTool host before range w with
    | (Resolved (Some l), w') => (Resolved (Some l), w')
    | (Resolved None, w') => KnCliConfig.selectTool host after range w'
    | (Rejected e, w') => (Rejected e, w')
    end.
Proof. apply selectTool_append. Qed.

(** X7. [selectTool] only reads the host: the tool table, the files, the
    pending answers and the pending deliveries are as before, and every
    event it adds is the lookup of a candidate of the list that is a
    non-empty path, or the execution of the version command of such a
    candidate at which a file exists. Nothing else is ever executed. *)
Theorem selectTool_only_examines (host : Host) (locations : list (option string))
  (range : string) (w : World) :
  let w' := snd (KnCliConfig.selectTool host locations range w) in
  tools w' = tools w /\ fs w' = fs w /\ ui w' = ui w /\ net w' = net w
  /\ exists events,
       trace w' = trace w ++ events
       /\ Forall (examines locations (fs w)) events.
Proof. apply selectTool_events. Qed.

(** X8. The version pattern finds the version that a line announces. On a
    line that holds, after characters among which there is no [V], the
    word [Version:], white space, [v] and [major.minor.patch] (digits),
    followed by the end of the line or by a character that is no digit, no
    [-] and no [+], the captured version is [major.minor.patch]. *)
Theorem exec_finds_version (before blanks major minor patch rest : list ascii) :
  Forall (fun c => c <> "V"%char) before ->
  blanks <> [] -> Forall (fun c => Text.is_space c = true) blanks ->
  numeric major -> numeric minor -> numeric patch ->
  ends_version rest ->
  VersionPattern.exec
    (before ++ Text.chars "Version:" ++ blanks ++ "v"%char :: major ++ "."%char
       :: minor ++ "."%char :: patch ++ rest)
  = Some (major ++ "."%char :: minor ++ "."%char :: patch).
Proof. apply exec_version. Qed.

Lemma exec_finds_version_witness :
  VersionPattern.exec (Text.chars "kn Version:      v0.13.1 (stable)")
  = Some (Text.chars "0.13.1").
Proof.
  apply (exec_finds_version (Text.chars "kn ") (Text.chars "      ")
           (Text.chars "0") (Text.chars "13") (Text.chars "1")
           (Text.chars " (stable)")).
  - repeat constructor; discriminate.
  - discriminate.
  - repeat constructor.
  - split; [discriminate | repeat constructor].
  - split; [discriminate | repeat constructor].
  - split; [discriminate | repeat constructor].
  - repeat split; discriminate.
Defined.

(** ** More on the installer *)

Section Outcome.
Import KnCliConfig.
Context (host : Host).

(** [locate], run: the lookup on the path, the search, and the request to
    download when the search selects nothing. *)
Lemma locate_run cmd t w :
  locate host cmd t w
  = match selectTool host
            [which_lookup host (fs w) cmd; Some (toolCacheLocation host t)]
            (versionRange t) (log (EvWhich cmd) w) with
    | (Resolved (Some l), w') => (Resolved (Some l), w')
    | (Resolved None, w') => requestDownload host t w'
    | (Rejected e, w') => (Rejected e, w')
    end.
Proof.
  unfold locate. rewrite bind_run. unfold which at 1. rewrite bind_run.
  destruct (selectTool host _ (versionRange t) (log (EvWhich cmd) w))
    as [[[l|]|e] w']; reflexivity.
Qed.

(** A call that resolved with a path answers the next call. *)
Lemma detectOrDownload_again cmd l w :
  fst (detectOrDownload host cmd w) = Resolved (Some l) ->
  l <> "" ->
  detectOrDownload host cmd (snd (detectOrDownload host cmd w))
  = (Resolved (Some l), snd (detectOrDownload host cmd w)).
Proof.
  intros Hres Hl.
  destruct (tools w !! cmd) as [t|] eqn:Ht;
    [|rewrite detectOrDownload_unknown in Hres by exact Ht; discriminate].
  destruct (location t) as [l0|] eqn:Hloc.
  { rewrite (detectOrDownload_set host cmd t l0 w Ht Hloc) in Hres |- *.
    simpl in Hres. injection Hres as ->.
    apply (detectOrDownload_set host cmd t l w Ht Hloc). }
  rewrite (detectOrDownload_unset host cmd t w Ht Hloc) in Hres |- *.
  destruct (steady_locate host cmd t w) as (Ht1 & _).
  destruct (locate host cmd t w) as [[toolLocation|e] w1]; simpl in Ht1;
    [|discriminate].
  rewrite (recordLocation_run cmd t toolLocation w1) in Hres |- *
    by (rewrite Ht1; exact Ht).
  simpl in Hres. injection Hres as ->. simpl.
  rewrite bool_decide_eq_false_2 by exact Hl. simpl.
  apply (detectOrDownload_set host cmd (set_location (Some l) t) l);
    [simpl; apply lookup_insert_eq | reflexivity].
Qed.

(** A call that does not resolve with a path leaves the tool table as it
    was. *)
Lemma detectOrDownload_nothing cmd w :
  (forall l, fst (detectOrDownload host cmd w) <> Resolved (Some l)) ->
  tools (snd (detectOrDownload host cmd w)) = tools w.
Proof.
  intros Hno. destruct (detectOrDownload_frame host cmd w) as [[H|H] _];
    [exact H|].
  destruct H as (t & l & _ & _ & Hres & _). exfalso. apply (Hno l Hres).
Qed.

(** A candidate with a detected version is a file. *)
Lemma acceptable_exists w range l :
  acceptable host w range (Some l) -> file_exists (fs w) l = true.
Proof.
  intros (l0 & v & Hc & Hv & Hs). injection Hc as <-.
  rewrite getVersion_run in Hv. destruct (file_exists (fs w) l); [reflexivity|].
  simpl in Hv. injection Hv as <-. discriminate.
Qed.

Lemma file_exists_lookup (f : gmap string string) l :
  file_exists f l = true -> is_Some (f !! l).
Proof.
  unfold file_exists. intros H. apply andb_true_iff in H as [_ H].
  apply bool_decide_eq_true_1 in H. exact H.
Qed.

(** Off Windows, an installation that completes has put a file at the
    cache location. *)
Lemma extractAndInstall_file t w r w' :
  OS host <> "win32" ->
  extractAndInstall host t w = (Resolved r, w') ->
  is_Some (fs w' !! toolCacheLocation host t).
Proof.
  intros Hos. unfold extractAndInstall. rewrite bind_run.
  match goal with |- context [match ?c w with _ => _ end] =>
    destruct (c w) as [[[]|e] w1]; [|discriminate] end.
  rewrite bind_run. unfold removeSync at 1. rewrite bind_run.
  rewrite bool_decide_eq_true_2 by exact Hos.
  unfold chmodSync.
  match goal with |- context [fs ?w0 !! toolCacheLocation host t] =>
    destruct (fs w0 !! toolCacheLocation host t) as [bytes|] eqn:Hfile;
      [|discriminate] end.
  intros [= _ <-]. simpl. simpl in Hfile. rewrite Hfile. eauto.
Qed.

Lemma requestDownload_file t w l w' :
  OS host <> "win32" ->
  requestDownload host t w = (Resolved (Some l), w') ->
  is_Some (fs w' !! l).
Proof.
  intros Hos Hrun.
  assert (Hres : fst (requestDownload host t w) = Resolved (Some l))
    by (rewrite Hrun; reflexivity).
  destruct (requestDownload_result host t w l Hres) as (-> & _). clear Hres.
  revert Hrun. unfold requestDownload. rewrite bind_run.
  unfold showInformationMessage at 1. rewrite bind_run.
  unfold ensureDirSync at 1.
  destruct (bool_decide (mjoin (head (ui w)) = Some (installRequest t))).
  - rewrite bind_run.
    destruct (downloadLoop host t _ _) as [[action|e] w1]; [|discriminate].
    destruct (bool_decide (action <> Some "Cancel")); [|discriminate].
    intros Hinst. apply (extractAndInstall_file t w1 _ w' Hos Hinst).
  - destruct (bool_decide (mjoin (head (ui w)) = Some "Help")); discriminate.
Qed.

(** The request to download, when the answer is not the request. *)
Lemma requestDownload_refused t w :
  mjoin (head (ui w)) <> Some (installRequest t) ->
  let w' := snd (requestDownload host t w) in
  fst (requestDownload host t w) = Resolved None
  /\ fs w' = fs w /\ net w' = net w
  /\ exists events, trace w' = trace w ++ events /\ Forall is_harmless events.
Proof.
  intros Hno. cbv zeta.
  destruct (requestDownload host t w) as [out w'] eqn:Hrun. revert Hrun.
  unfold requestDownload. rewrite bind_run.
  unfold showInformationMessage at 1. rewrite bind_run.
  unfold ensureDirSync at 1.
  rewrite bool_decide_eq_false_2 by exact Hno.
  destruct (bool_decide (mjoin (head (ui w)) = Some "Help")).
  - intros [= <- <-]. simpl. repeat split. eexists. rewrite <- !app_assoc.
    split; [reflexivity|]. repeat constructor.
  - intros [= <- <-]. simpl. repeat split. eexists. rewrite <- !app_assoc.
    split; [reflexivity|]. repeat constructor.
Qed.

Lemma probe_harmless e : is_probe e -> is_harmless e.
Proof. destruct e; simpl; tauto. Qed.

(** The search of [detectOrDownload], with what it leaves of the process. *)
Lemma search_run cmd t w :
  let candidates := [which_lookup host (fs w) cmd; Some (toolCacheLocation host t)] in
  let found := selectTool host candidates (versionRange t) (log (EvWhich cmd) w) in
  exists r,
    fst found = Resolved r
    /\ tools (snd found) = tools w /\ fs (snd found) = fs w
    /\ ui (snd found) = ui w /\ net (snd found) = net w
    /\ (exists events, trace (snd found) = trace w ++ events
                       /\ Forall is_probe events)
    /\ match r with
       | Some l => Some l ∈ candidates /\ acceptable host w (versionRange t) (Some l)
       | None => Forall (fun c => ~ acceptable host w (versionRange t) c) candidates
       end.
Proof.
  cbv zeta.
  set (candidates := [which_lookup host (fs w) cmd; Some (toolCacheLocation host t)]).
  set (w1 := log (EvWhich cmd) w).
  destruct (selectTool_spec host candidates (versionRange t) w1) as (r & Hr & Hspec).
  destruct (selectTool_events host candidates (versionRange t) w1)
    as (Ht & Hf & Hu & Hn & events & He & Hall).
  exists r. split; [exact Hr|]. repeat split; trivial.
  - exists (EvWhich cmd :: events). split.
    + rewrite He. simpl. rewrite <- app_assoc. reflexivity.
    + constructor; [exact I|]. eapply Forall_impl; [exact Hall|].
      intros e. apply examines_probe.
  - destruct r as [l|].
    + destruct Hspec as (before & after & Heq & Hacc & _). split.
      * rewrite Heq. apply elem_of_app. right. left.
      * apply (acceptable_files host w w1); [reflexivity | exact Hacc].
    + eapply Forall_impl; [exact Hspec|]. intros c Hc Hacc. apply Hc.
      apply (acceptable_files host w w1); [reflexivity | exact Hacc].
Qed.

(** Off Windows, the path a call resolves with and records is a file when
    the call ends. *)
Lemma detectOrDownload_file cmd t l w :
  OS host <> "win32" ->
  tools w !! cmd = Some t -> location t = None ->
  fst (detectOrDownload host cmd w) = Resolved (Some l) ->
  is_Some (fs (snd (detectOrDownload host cmd w)) !! l).
Proof.
  intros Hos Ht Hloc. rewrite (detectOrDownload_unset host cmd t w Ht Hloc).
  destruct (steady_locate host cmd t w) as (Ht1 & _).
  assert (Hfile : forall r, fst (locate host cmd t w) = Resolved (Some r) ->
                    is_Some (fs (snd (locate host cmd t w)) !! r)).
  { intros r. rewrite locate_run.
    destruct (search_run cmd t w) as (sel & Hsel & _ & Hf & _ & _ & _ & Hspec).
    destruct (selectTool host _ (versionRange t) (log (EvWhich cmd) w))
      as [[sel'|e] w2]; simpl in Hsel, Hf; [|discriminate].
    injection Hsel as ->. destruct sel as [l0|].
    - simpl. intros [= ->]. rewrite Hf. apply file_exists_lookup.
      eapply acceptable_exists, Hspec.
    - destruct (requestDownload host t w2) as [out w3] eqn:Hrun. simpl.
      intros ->. apply (requestDownload_file t w2 r w3 Hos Hrun). }
  destruct (locate host cmd t w) as [[toolLocation|e] w1]; simpl in Ht1, Hfile;
    [|discriminate].
  rewrite (recordLocation_run cmd t toolLocation w1) by (rewrite Ht1; exact Ht).
  simpl. intros [= ->]. destruct (Text.truthy (Some l)); simpl; apply Hfile; reflexivity.
Qed.

(** A call that finds an acceptable candidate. *)
Lemma detectOrDownload_found cmd t w :
  tools w !! cmd = Some t -> location t = None ->
  Exists (acceptable host w (versionRange t))
         [which_lookup host (fs w) cmd; Some (toolCacheLocation host t)] ->
  let w' := snd (detectOrDownload host cmd w) in
  exists l,
    fst (detectOrDownload host cmd w) = Resolved (Some l)
    /\ Some l ∈ [which_lookup host (fs w) cmd; Some (toolCacheLocation host t)]
    /\ acceptable host w (versionRange t) (Some l)
    /\ tools w' = <[cmd := set_location (Some l) t]> (tools w)
    /\ fs w' = fs w /\ ui w' = ui w /\ net w' = net w
    /\ exists events, trace w' = trace w ++ events /\ Forall is_probe events.
Proof.
  intros Ht Hloc Hex. cbv zeta.
  rewrite (detectOrDownload_unset host cmd t w Ht Hloc). rewrite locate_run.
  destruct (search_run cmd t w)
    as (sel & Hsel & Hts & Hf & Hu & Hn & Hev & Hspec).
  destruct (selectTool host _ (versionRange t) (log (EvWhich cmd) w))
    as [[sel'|e] w2]; simpl in Hsel, Hts, Hf, Hu, Hn, Hev; [|discriminate].
  injection Hsel as ->. destruct sel as [l|].
  - destruct Hspec as (Hin & Hacc).
    assert (Hl : l <> "").
    { intros ->. exact (not_acceptable_empty host w _ Hacc). }
    rewrite (recordLocation_run cmd t (Some l) w2) by (rewrite Hts; exact Ht).
    simpl. rewrite bool_decide_eq_false_2 by exact Hl. simpl.
    exists l. rewrite Hts. repeat split; trivial.
  - exfalso. apply Exists_exists in Hex as (c & Hc & Hacc).
    rewrite Forall_forall in Hspec. exact (Hspec c Hc Hacc).
Qed.

(** A call when the next answer of the user is not the request to
    download. *)
Lemma detectOrDownload_unasked cmd t w :
  tools w !! cmd = Some t ->
  mjoin (head (ui w)) <> Some (installRequest t) ->
  let w' := snd (detectOrDownload host cmd w) in
  fs w' = fs w /\ net w' = net w
  /\ exists events, trace w' = trace w ++ events /\ Forall is_harmless events.
Proof.
  intros Ht Hno. cbv zeta.
  destruct (location t) as [l0|] eqn:Hloc.
  { rewrite (detectOrDownload_set host cmd t l0 w Ht Hloc). simpl.
    repeat split. exists []. rewrite app_nil_r. split; [reflexivity | constructor]. }
  rewrite (detectOrDownload_unset host cmd t w Ht Hloc).
  destruct (steady_locate host cmd t w) as (Ht1 & _).
  assert (Hloc' : fs (snd (locate host cmd t w)) = fs w
                  /\ net (snd (locate host cmd t w)) = net w
                  /\ exists events,
                       trace (snd (locate host cmd t w)) = trace w ++ events
                       /\ Forall is_harmless events).
  { rewrite locate_run.
    destruct (search_run cmd t w)
      as (sel & Hsel & _ & Hf & Hu & Hn & (ev & Hev & Hprobe) & _).
    destruct (selectTool host _ (versionRange t) (log (EvWhich cmd) w))
      as [[sel'|e] w2]; simpl in Hsel, Hf, Hu, Hn, Hev; [|discriminate].
    injection Hsel as ->.
    assert (Hharm : Forall is_harmless ev).
    { eapply Forall_impl; [exact Hprobe|]. intros e. apply probe_harmless. }
    destruct sel as [l|].
    - simpl. repeat split; trivial. exists ev. split; assumption.
    - destruct (requestDownload_refused t w2) as (_ & Hf' & Hn' & ev' & Hev' & Hharm').
      { rewrite Hu. exact Hno. }
      split; [congruence|]. split; [congruence|].
      exists (ev ++ ev'). split.
      + rewrite Hev', Hev, app_assoc. reflexivity.
      + apply Forall_app. split; assumption. }
  destruct (locate host cmd t w) as [[toolLocation|e] w1]; simpl in Ht1, Hloc';
    [|exact Hloc'].
  rewrite (recordLocation_run cmd t toolLocation w1) by (rewrite Ht1; exact Ht).
  destruct (Text.truthy toolLocation); exact Hloc'.
Qed.

(** How the download loop is left without an answer: with a file of the
    expected digest, or with a dismissed checksum prompt after the file has
    been deleted. *)
Lemma downloadLoop_unanswered t deliveries :
  forall w w',
    downloadLoop host t deliveries w = (Resolved None, w') ->
    (exists bytes, fs w' !! toolDlLocation host t = Some bytes
                   /\ sha256 host bytes = sha256sum t)
    \/ (fs w' !! toolDlLocation host t = None
        /\ exists message items, last (trace w') = Some (EvPrompt message items)).
Proof.
  induction deliveries as [|delivered remaining IH]; intros w w'.
  - simpl. rewrite bind_run. unfold downloadFile. discriminate.
  - simpl. rewrite bind_run. unfold downloadFile at 1.
    destruct delivered as [bytes|]; [|discriminate].
    rewrite bind_run. unfold hashaFromFile at 1. simpl.
    rewrite lookup_insert_eq.
    destruct (bool_decide (sha256 host bytes <> sha256sum t)) eqn:Hsum.
    + rewrite bind_run. unfold removeSync at 1.
      rewrite bind_run. unfold showInformationMessage at 1. simpl.
      destruct (bool_decide (_ = Some "Download again")).
      * apply IH.
      * intros [= _ <-]. right. simpl. split; [apply lookup_delete_eq|].
        eexists _, _. apply last_snoc.
    + intros [= <-]. left. exists bytes. simpl. split; [apply lookup_insert_eq|].
      apply bool_decide_eq_false_1 in Hsum.
      destruct (decide (sha256 host bytes = sha256sum t)); [assumption|].
      contradiction.
Qed.

(** An installation that completes has deleted the download. *)
Lemma extractAndInstall_clean t w r w' :
  extractAndInstall host t w = (Resolved r, w') ->
  fs w' !! toolDlLocation host t = None.
Proof.
  unfold extractAndInstall. rewrite bind_run.
  match goal with |- context [match ?c w with _ => _ end] =>
    destruct (c w) as [[[]|e] w1]; [|discriminate] end.
  rewrite bind_run. unfold removeSync at 1. rewrite bind_run.
  destruct (bool_decide (OS host <> "win32")).
  - unfold chmodSync.
    match goal with |- context [fs ?w0 !! toolCacheLocation host t] =>
      destruct (fs w0 !! toolCacheLocation host t) as [bytes|]; [|discriminate] end.
    intros [= _ <-]. simpl. apply lookup_delete_eq.
  - intros [= _ <-]. simpl. apply lookup_delete_eq.
Qed.

(** A requested download leaves no download file when the request
    resolves. *)
Lemma requestDownload_clean t w r w' :
  mjoin (head (ui w)) = Some (installRequest t) ->
  requestDownload host t w = (Resolved r, w') ->
  fs w' !! toolDlLocation host t = None.
Proof.
  intros Hreq. unfold requestDownload. rewrite bind_run.
  unfold showInformationMessage at 1. rewrite bind_run.
  unfold ensureDirSync at 1.
  rewrite bool_decide_eq_true_2 by exact Hreq. rewrite bind_run.
  destruct (downloadLoop host t _ _) as [[action|e] w1] eqn:Hloop; [|discriminate].
  destruct (bool_decide (action <> Some "Cancel")) eqn:Hb.
  - apply extractAndInstall_clean.
  - intros [= _ <-]. destruct action as [a|].
    + apply (downloadLoop_answered host t _ _ a w1 Hloop).
    + rewrite bool_decide_eq_true_2 in Hb by discriminate. discriminate Hb.
Qed.

Lemma detectOrDownload_clean cmd t w r :
  tools w !! cmd = Some t -> location t = None ->
  Forall (fun c => ~ acceptable host w (versionRange t) c)
         [which_lookup host (fs w) cmd; Some (toolCacheLocation host t)] ->
  mjoin (head (ui w)) = Some (installRequest t) ->
  fst (detectOrDownload host cmd w) = Resolved r ->
  fs (snd (detectOrDownload host cmd w)) !! toolDlLocation host t = None.
Proof.
  intros Ht Hloc Hnone Hreq.
  rewrite (detectOrDownload_unset host cmd t w Ht Hloc).
  destruct (steady_locate host cmd t w) as (Ht1 & _).
  assert (Hclean : forall r', fst (locate host cmd t w) = Resolved r' ->
                     fs (snd (locate host cmd t w)) !! toolDlLocation host t = None).
  { intros r'. rewrite locate_run.
    destruct (search_run cmd t w) as (sel & Hsel & _ & _ & Hu & _ & _ & Hspec).
    destruct (selectTool host _ (versionRange t) (log (EvWhich cmd) w))
      as [[sel'|e] w2]; simpl in Hsel, Hu; [|discriminate].
    injection Hsel as ->. destruct sel as [l|].
    - exfalso. destruct Hspec as (Hin & Hacc).
      rewrite Forall_forall in Hnone. exact (Hnone _ Hin Hacc).
    - destruct (requestDownload host t w2) as [out w3] eqn:Hrun. simpl.
      intros ->. apply (requestDownload_clean t w2 r' w3); [|exact Hrun].
      rewrite Hu. exact Hreq. }
  destruct (locate host cmd t w) as [[toolLocation|e] w1]; simpl in Ht1, Hclean;
    [|discriminate].
  rewrite (recordLocation_run cmd t toolLocation w1) by (rewrite Ht1; exact Ht).
  simpl. intros _. destruct (Text.truthy toolLocation); simpl; eapply Hclean; reflexivity.
Qed.

End Outcome.

(** X9. A resolution is remembered. When a call of [detectOrDownload]
    resolves with a path (a non-empty string), the next call for the same
    tool resolves with the same path and leaves the process exactly as it
    was: nothing is looked up, executed or asked again. *)
Theorem detectOrDownload_remembered (host : Host) (cmd l : string) (w : World) :
  fst (KnCliConfig.detectOrDownload host cmd w) = Resolved (Some l) ->
  l <> "" ->
  KnCliConfig.detectOrDownload host cmd
    (snd (KnCliConfig.detectOrDownload host cmd w))
  = (Resolved (Some l), snd (KnCliConfig.detectOrDownload host cmd w)).
Proof. apply detectOrDownload_again. Qed.

Lemma detectOrDownload_remembered_witness :
  let w := Demo.start [("/usr/bin/kn", "Version:   v0.13.1")] [] [] in
  KnCliConfig.detectOrDownload Demo.linux "kn"
    (snd (KnCliConfig.detectOrDownload Demo.linux "kn" w))
  = (Resolved (Some "/usr/bin/kn"),
     snd (KnCliConfig.detectOrDownload Demo.linux "kn" w)).
Proof.
  cbv zeta.
  apply (detectOrDownload_remembered Demo.linux "kn" "/usr/bin/kn"
           (Demo.start [("/usr/bin/kn", "Version:   v0.13.1")] [] [])).
  - vm_compute. reflexivity.
  - discriminate.
Defined.

(** X10. A call of [detectOrDownload] that throws or resolves with
    [undefined] leaves the tool table as it was: the table changes only in
    a call that resolves with a path. *)
Theorem detectOrDownload_failure_keeps_table (host : Host) (cmd : string)
  (w : World) :
  (forall l, fst (KnCliConfig.detectOrDownload host cmd w) <> Resolved (Some l)) ->
  tools (snd (KnCliConfig.detectOrDownload host cmd w)) = tools w.
Proof. apply detectOrDownload_nothing. Qed.

Lemma detectOrDownload_failure_keeps_table_witness :
  let w := Demo.start [] [Some "Download and install v0.13.1"] [None] in
  fst (KnCliConfig.detectOrDownload Demo.linux "kn" w) = Rejected DownloadFailed
  /\ tools (snd (KnCliConfig.detectOrDownload Demo.linux "kn" w)) = tools w.
Proof.
  cbv zeta. split; [vm_compute; reflexivity|].
  apply (detectOrDownload_failure_keeps_table Demo.linux "kn"
           (Demo.start [] [Some "Download and install v0.13.1"] [None])).
  intros l. vm_compute. discriminate.
Defined.

(** X11. Off Windows, the path that a call of [detectOrDownload] finds or
    installs for a tool whose location was not set is the path of a file
    when the call ends: a selected candidate exists, and an installation
    that completes has made the cache file ([chmodSync] throws if it has
    not). *)
Theorem detectOrDownload_resolves_file (host : Host) (cmd : string) (t : Tool)
  (l : string) (w : World) :
  OS host <> "win32" ->
  tools w !! cmd = Some t -> location t = None ->
  fst (KnCliConfig.detectOrDownload host cmd w) = Resolved (Some l) ->
  is_Some (fs (snd (KnCliConfig.detectOrDownload host cmd w)) !! l).
Proof. apply detectOrDownload_file. Qed.

Lemma detectOrDownload_resolves_file_witness :
  let w := Demo.start [] [Some "Download and install v0.13.1"]
             [Some "Version: v0.13.1"] in
  is_Some (fs (snd (KnCliConfig.detectOrDownload Demo.linux "kn" w))
             !! "/home/dev/.vs-kn/kn").
Proof.
  cbv zeta.
  apply (detectOrDownload_resolves_file Demo.linux "kn" Demo.kn
           "/home/dev/.vs-kn/kn"
           (Demo.start [] [Some "Download and install v0.13.1"]
              [Some "Version: v0.13.1"])).
  - discriminate.
  - reflexivity.
  - reflexivity.
  - vm_compute. reflexivity.
Defined.

(** X12. When one of the two candidates (the command on the path, the
    cache file) has a detected version that satisfies the range,
    [detectOrDownload] resolves with such a candidate and records it
    without asking anything: the only events are the lookup on the path,
    file lookups and executions of version commands, and the files, the
    pending answers and the pending deliveries are as before. *)
Theorem detectOrDownload_found_quietly (host : Host) (cmd : string) (t : Tool)
  (w : World) :
  tools w !! cmd = Some t -> location t = None ->
  Exists (acceptable host w (versionRange t))
         [which_lookup host (fs w) cmd; Some (KnCliConfig.toolCacheLocation host t)] ->
  let w' := snd (KnCliConfig.detectOrDownload host cmd w) in
  exists l,
    fst (KnCliConfig.detectOrDownload host cmd w) = Resolved (Some l)
    /\ Some l ∈ [which_lookup host (fs w) cmd;
                 Some (KnCliConfig.toolCacheLocation host t)]
    /\ acceptable host w (versionRange t) (Some l)
    /\ tools w' = <[cmd := set_location (Some l) t]> (tools w)
    /\ fs w' = fs w /\ ui w' = ui w /\ net w' = net w
    /\ exists events, trace w' = trace w ++ events /\ Forall is_probe events.
Proof. apply detectOrDownload_found. Qed.

Lemma detectOrDownload_found_quietly_witness :
  let w := Demo.start [("/home/dev/.vs-kn/kn", "Version:   v0.13.1")]
             [Some "Cancel"] [] in
  let w' := snd (KnCliConfig.detectOrDownload Demo.linux "kn" w) in
  exists l,
    fst (KnCliConfig.detectOrDownload Demo.linux "kn" w) = Resolved (Some l)
    /\ ui w' = ui w.
Proof.
  cbv zeta.
  destruct (detectOrDownload_found_quietly Demo.linux "kn" Demo.kn
              (Demo.start [("/home/dev/.vs-kn/kn", "Version:   v0.13.1")]
                 [Some "Cancel"] []))
    as (l & Hres & _ & _ & _ & _ & Hui & _).
  - reflexivity.
  - reflexivity.
  - right. left. exists "/home/dev/.vs-kn/kn", (Some "0.13.1").
    split; [reflexivity|]. split; vm_compute; reflexivity.
  - exists l. split; [exact Hres | exact Hui].
Defined.

(** X13. Nothing is downloaded without the user's request. When the answer
    the user would give to the next prompt is not the request to download
    and install, a call of [detectOrDownload] leaves the files and the
    pending deliveries as they were, and none of its events is a download,
    a digest computation, a deletion, an extraction or a change of mode. *)
Theorem detectOrDownload_no_download_unasked (host : Host) (cmd : string)
  (t : Tool) (w : World) :
  tools w !! cmd = Some t ->
  mjoin (head (ui w)) <> Some (KnCliConfig.installRequest t) ->
  let w' := snd (KnCliConfig.detectOrDownload host cmd w) in
  fs w' = fs w /\ net w' = net w
  /\ exists events, trace w' = trace w ++ events /\ Forall is_harmless events.
Proof. apply detectOrDownload_unasked. Qed.

Lemma detectOrDownload_no_download_unasked_witness :
  let w := Demo.start [("/usr/bin/kn", "Version:   v0.12.0")] [Some "Help"]
             [Some "Version: v0.13.1"] in
  let w' := snd (KnCliConfig.detectOrDownload Demo.linux "kn" w) in
  fs w' = fs w /\ net w' = net w
  /\ exists events, trace w' = trace w ++ events /\ Forall is_harmless events.
Proof.
  apply (detectOrDownload_no_download_unasked Demo.linux "kn" Demo.kn
           (Demo.start [("/usr/bin/kn", "Version:   v0.12.0")] [Some "Help"]
              [Some "Version: v0.13.1"])).
  - reflexivity.
  - vm_compute. discriminate.
Defined.

(** X14. The two ways out of the download loop with no answer to act on
    ([action] is [undefined], so the installation goes on): the file at the
    download location has the expected digest; or the digest was wrong,
    the file has been deleted and the last event is the checksum prompt,
    which the user dismissed. *)
Theorem downloadLoop_exit (host : Host) (t : Tool)
  (deliveries : list (option string)) (w : World) :
  fst (KnCliConfig.downloadLoop host t deliveries w) = Resolved None ->
  let w' := snd (KnCliConfig.downloadLoop host t deliveries w) in
  (exists bytes, fs w' !! KnCliConfig.toolDlLocation host t = Some bytes
                 /\ sha256 host bytes = sha256sum t)
  \/ (fs w' !! KnCliConfig.toolDlLocation host t = None
      /\ exists message items, last (trace w') = Some (EvPrompt message items)).
Proof.
  intros Hres. cbv zeta.
  destruct (KnCliConfig.downloadLoop host t deliveries w) as [out w'] eqn:Hrun.
  simpl in Hres. subst out. simpl.
  apply (downloadLoop_unanswered host t deliveries w w' Hrun).
Qed.

Lemma downloadLoop_exit_witness :
  let w := Demo.start [] [Some "Download again"] [] in
  let w' := snd (KnCliConfig.downloadLoop Demo.linux Demo.kn
                   [Some "corrupt"; Some "Version: v0.13.1"] w) in
  (exists bytes,
      fs w' !! KnCliConfig.toolDlLocation Demo.linux Demo.kn = Some bytes
      /\ sha256 Demo.linux bytes = sha256sum Demo.kn)
  \/ (fs w' !! KnCliConfig.toolDlLocation Demo.linux Demo.kn = None
      /\ exists message items, last (trace w') = Some (EvPrompt message items)).
Proof.
  apply (downloadLoop_exit Demo.linux Demo.kn
           [Some "corrupt"; Some "Version: v0.13.1"]
           (Demo.start [] [Some "Download again"] [])).
  vm_compute. reflexivity.
Defined.

(** X15. A requested download leaves nothing behind. When no candidate is
    acceptable and the user answers the first prompt with the request to
    download, a call of [detectOrDownload] that resolves, with the installed
    path or with [undefined] after ['Cancel'] at a checksum prompt, ends
    with no file at the download location. *)
Theorem detectOrDownload_leaves_no_download (host : Host) (cmd : string)
  (t : Tool) (w : World) (r : option string) :
  tools w !! cmd = Some t -> location t = None ->
  Forall (fun c => ~ acceptable host w (versionRange t) c)
         [which_lookup host (fs w) cmd; Some (KnCliConfig.toolCacheLocation host t)] ->
  mjoin (head (ui w)) = Some (KnCliConfig.installRequest t) ->
  fst (KnCliConfig.detectOrDownload host cmd w) = Resolved r ->
  fs (snd (KnCliConfig.detectOrDownload host cmd w))
    !! KnCliConfig.toolDlLocation host t = None.
Proof. apply detectOrDownload_clean. Qed.

Lemma detectOrDownload_leaves_no_download_witness :
  let w := Demo.start [("/home/dev/.vs-kn/kn.gz", "left over")]
             [Some "Download and install v0.13.1"; Some "Cancel"]
             [Some "corrupt"] in
  fs (snd (KnCliConfig.detectOrDownload Demo.linux "kn" w))
    !! "/home/dev/.vs-kn/kn.gz" = None.
Proof.
  cbv zeta.
  apply (detectOrDownload_leaves_no_download Demo.linux "kn" Demo.kn
           (Demo.start [("/home/dev/.vs-kn/kn.gz", "left over")]
              [Some "Download and install v0.13.1"; Some "Cancel"]
              [Some "corrupt"]) None).
  - reflexivity.
  - reflexivity.
  - repeat constructor; intros (l & v & Hc & Hv & Hs); vm_compute in Hc;
      try discriminate; injection Hc as <-; vm_compute in Hv;
      injection Hv as <-; vm_compute in Hs; discriminate.
  - reflexivity.
  - vm_compute. reflexivity.
Defined.

(** ** The commands on a component *)

Section Ports.
Import Component.

Lemma split_no_sep sep p : sep ∉ p -> split sep p = [p].
Proof.
  induction p as [|c p IH]; intros Hp; [reflexivity|].
  apply not_elem_of_cons in Hp as [Hc Hp]. simpl.
  rewrite decide_False by congruence. rewrite (IH Hp). reflexivity.
Qed.

Lemma split_app sep p l :
  sep ∉ p -> split sep (p ++ sep :: l) = p :: split sep l.
Proof.
  induction p as [|c p IH]; intros Hp; simpl.
  - rewrite decide_True by reflexivity. reflexivity.
  - apply not_elem_of_cons in Hp as [Hc Hp].
    rewrite decide_False by congruence. rewrite (IH Hp). reflexivity.
Qed.

(** Splitting what was joined gives the fields back. *)
Lemma split_join sep parts :
  parts <> [] -> Forall (fun p => sep ∉ p) parts ->
  split sep (join sep parts) = parts.
Proof.
  induction parts as [|p parts IH]; intros Hne Hall; [contradiction|].
  apply Forall_cons in Hall as [Hp Hall].
  destruct parts as [|q parts].
  - simpl. apply split_no_sep, Hp.
  - change (join sep (p :: q :: parts)) with (p ++ sep :: join sep (q :: parts)).
    rewrite split_app by exact Hp. f_equal. apply IH; [discriminate | exact Hall].
Qed.

Lemma split_not_nil sep l : split sep l <> [].
Proof.
  destruct l as [|c l]; simpl; [discriminate|].
  destruct (decide (c = sep)); [discriminate|].
  destruct (split sep l); discriminate.
Qed.

(** Joining what was split gives the text back, and no field holds the
    separator. *)
Lemma join_split sep l :
  join sep (split sep l) = l /\ Forall (fun p => sep ∉ p) (split sep l).
Proof.
  induction l as [|c l [IHj IHf]]; simpl.
  - split; [reflexivity|]. constructor; [apply not_elem_of_nil | constructor].
  - destruct (decide (c = sep)) as [->|Hc].
    + pose proof (split_not_nil sep l) as Hne.
      destruct (split sep l) as [|q rest] eqn:Hs; [contradiction|].
      split.
      * change (join sep ([] :: q :: rest)) with ([] ++ sep :: join sep (q :: rest)).
        rewrite IHj. reflexivity.
      * constructor; [apply not_elem_of_nil | exact IHf].
    + pose proof (split_not_nil sep l) as Hne.
      destruct (split sep l) as [|q rest] eqn:Hs; [contradiction|].
      apply Forall_cons in IHf as [Hq Hrest]. split.
      * destruct rest as [|q' rest].
        -- simpl in IHj |- *. rewrite IHj. reflexivity.
        -- change (join sep ((c :: q) :: q' :: rest))
             with (c :: (q ++ sep :: join sep (q' :: rest))).
           change (join sep (q :: q' :: rest))
             with (q ++ sep :: join sep (q' :: rest)) in IHj.
           rewrite IHj. reflexivity.
      * constructor; [|exact Hrest].
        apply not_elem_of_cons. split; [congruence | exact Hq].
Qed.

(** The ports are the fields of the trimmed output but the last. *)
Lemma portsOf_fields stdout fields dropped :
  Forall (fun p => ","%char ∉ p) (fields ++ [dropped]) ->
  Text.trim (Text.chars stdout) = join ","%char (fields ++ [dropped]) ->
  portsOf stdout = Text.text <$> fields.
Proof.
  intros Hall Htrim. unfold portsOf. cbv zeta. rewrite Htrim.
  rewrite split_join; [|destruct fields; discriminate | exact Hall].
  rewrite length_app. simpl. rewrite Nat.add_sub.
  rewrite take_app_length. reflexivity.
Qed.

Lemma fields_exist stdout :
  exists fields dropped,
    Forall (fun p => ","%char ∉ p) (fields ++ [dropped])
    /\ Text.trim (Text.chars stdout) = join ","%char (fields ++ [dropped]).
Proof.
  destruct (join_split ","%char (Text.trim (Text.chars stdout))) as [Hj Hf].
  pose proof (split_not_nil ","%char (Text.trim (Text.chars stdout))) as Hne.
  destruct (split ","%char (Text.trim (Text.chars stdout))) as [|p parts] using rev_ind;
    [contradiction|].
  exists parts, p. split; [exact Hf | symmetry; exact Hj].
Qed.

Lemma selectPort_fields component stdout fields dropped d :
  Forall (fun p => ","%char ∉ p) (fields ++ [dropped]) ->
  Text.trim (Text.chars stdout) = join ","%char (fields ++ [dropped]) ->
  selectPort component stdout d
  = match fields with
    | [] => (Failed (Reason ("Component '" +:+ getName component
                             +:+ "' has no Ports declared.")), d)
    | [p] => (Done (Some (Text.text p)), d)
    | _ => showQuickPick (Text.text <$> fields) "Select Port to link" d
    end.
Proof.
  intros Hall Htrim. unfold selectPort. cbv zeta.
  rewrite (portsOf_fields stdout fields dropped Hall Htrim).
  destruct fields as [|p [|q fields]]; reflexivity.
Qed.

End Ports.

Section Migration.
Import Component.
Context (wb : Workbench).

Lemma andThen_run {A B} (c : Promise A) (k : A -> Promise B) d :
  andThen c k d = match c d with
                  | (Done a, d') => k a d'
                  | (Failed t, d') => (Failed t, d')
                  end.
Proof. reflexivity. Qed.

Lemma quiet_done {A} (a : A) : quiet (done a).
Proof.
  intros d. split; [reflexivity|]. exists []. rewrite app_nil_r.
  split; [reflexivity | constructor].
Qed.

Lemma quiet_failed {A} t : quiet (@failed A t).
Proof.
  intros d. split; [reflexivity|]. exists []. rewrite app_nil_r.
  split; [reflexivity | constructor].
Qed.

Lemma quiet_andThen {A B} (c : Promise A) (k : A -> Promise B) :
  quiet c -> (forall a, quiet (k a)) -> quiet (andThen c k).
Proof.
  intros Hc Hk d. rewrite andThen_run. destruct (Hc d) as (Hg & e1 & He1 & Hq1).
  destruct (c d) as [[a|t] d1]; simpl in *.
  - destruct (Hk a d1) as (Hg' & e2 & He2 & Hq2). split; [congruence|].
    exists (e1 ++ e2). split; [rewrite He2, He1, app_assoc; reflexivity|].
    apply Forall_app. split; assumption.
  - split; [exact Hg|]. exists e1. split; assumption.
Qed.

Lemma quiet_tryCatch {A} (c handler : Promise A) :
  quiet c -> quiet handler -> quiet (tryCatch c handler).
Proof.
  intros Hc Hh d. unfold tryCatch. destruct (Hc d) as (Hg & e1 & He1 & Hq1).
  destruct (c d) as [[a|t] d1]; simpl in *.
  - split; [exact Hg|]. exists e1. split; assumption.
  - destruct (Hh d1) as (Hg' & e2 & He2 & Hq2). split; [congruence|].
    exists (e1 ++ e2). split; [rewrite He2, He1, app_assoc; reflexivity|].
    apply Forall_app. split; assumption.
Qed.

Lemma quiet_act a :
  (forall command cwd, a <> InTerminal command cwd) -> quiet (act a).
Proof.
  intros Ha d. split; [reflexivity|]. exists [a].
  split; [reflexivity|]. constructor; [exact Ha | constructor].
Qed.

Lemma quiet_showWarningMessageWith m items a rest :
  quiet (showWarningMessageWith m items a rest).
Proof.
  intros d. split; [reflexivity|]. eexists. split; [reflexivity|].
  constructor; [discriminate | constructor].
Qed.

Lemma quiet_showWarningMessage m items : quiet (showWarningMessage m items).
Proof. intros d. apply quiet_showWarningMessageWith. Qed.

Lemma quiet_execute command cwd : quiet (execute wb command cwd).
Proof.
  intros d. unfold execute. destruct (kn_execute wb command cwd); simpl;
    (split; [reflexivity|]; eexists; split; [reflexivity|];
     constructor; [discriminate | constructor]).
Qed.

Lemma quiet_JSON_parse text : quiet (JSON_parse wb text).
Proof.
  unfold JSON_parse. destruct (JSON_parse_truthy wb text);
    [apply quiet_done | apply quiet_failed].
Qed.

Lemma quiet_getData context placeholders filter :
  quiet (getData wb context placeholders filter).
Proof.
  unfold getData. destruct (getKnativeCmdData wb context placeholders filter);
    [apply quiet_failed | apply quiet_done].
Qed.

Lemma quiet_undeploy item : quiet (undeploy wb item).
Proof.
  unfold undeploy. apply quiet_andThen; [apply quiet_getData|].
  intros [c|]; [|apply quiet_done].
  apply quiet_andThen; [apply quiet_showWarningMessage|]. intros value.
  destruct (bool_decide (value = Some "Yes")); [|apply quiet_done].
  apply quiet_andThen; [apply quiet_act; discriminate|]. intros _.
  apply quiet_andThen; [apply quiet_act; discriminate|]. intros _.
  destruct (kn_undeployComponent wb c); [apply quiet_failed | apply quiet_done].
Qed.

Lemma quiet_migrationLoop c pending : quiet (migrationLoop wb c pending).
Proof.
  induction pending as [|answer remaining IH]; simpl.
  - apply quiet_andThen; [apply quiet_showWarningMessageWith|].
    intros _. apply quiet_done.
  - apply quiet_andThen; [apply quiet_showWarningMessageWith|]. intros choice.
    destruct (bool_decide (choice = Some "Undeploy")).
    { apply quiet_andThen; [apply quiet_undeploy | intros _; apply quiet_done]. }
    destruct (bool_decide (choice = Some "Help")).
    { apply quiet_andThen; [apply quiet_act; discriminate | intros _; exact IH]. }
    destruct (bool_decide (choice = Some "Cancel")); apply quiet_done.
Qed.

Lemma quiet_handleMigratedComponent c : quiet (handleMigratedComponent wb c).
Proof.
  unfold handleMigratedComponent. apply quiet_tryCatch; [|apply quiet_done].
  apply quiet_andThen; [apply quiet_execute|]. intros migrated.
  apply quiet_andThen; [apply quiet_JSON_parse|]. intros [|]; [|apply quiet_done].
  intros d. apply quiet_migrationLoop.
Qed.

(** An answer to the migration warning is one of its items. *)
Lemma offered_migration answer x :
  offered ["Undeploy"; "Help"; "Cancel"] answer = Some x ->
  x = "Undeploy" \/ x = "Help" \/ x = "Cancel".
Proof.
  unfold offered. destruct answer as [a|]; [|discriminate].
  destruct (bool_decide (a ∈ ["Undeploy"; "Help"; "Cancel"])) eqn:Hin; [|discriminate].
  intros [= <-]. apply bool_decide_eq_true_1 in Hin.
  repeat (apply elem_of_cons in Hin as [ -> | Hin ]; [tauto|]).
  apply elem_of_nil in Hin. contradiction.
Qed.

(** One turn of the loop. *)
Lemma migrationLoop_turn c answer remaining d :
  migrationLoop wb c (answer :: remaining) d
  = let choice := offered ["Undeploy"; "Help"; "Cancel"] answer in
    let d1 := mkDesk remaining (globalState_PUSH d)
                (journal d ++ [Warned migrationWarning ["Undeploy"; "Help"; "Cancel"]]) in
    if bool_decide (choice = Some "Undeploy") then
      match undeploy wb (Some c) d1 with
      | (Done _, d2) => (Done None, d2)
      | (Failed t, d2) => (Failed t, d2)
      end
    else if bool_decide (choice = Some "Help") then
      migrationLoop wb c remaining
        (mkDesk remaining (globalState_PUSH d)
           (journal d ++ [Warned migrationWarning ["Undeploy"; "Help"; "Cancel"]]
            ++ [Opened migrationHelp]))
    else if bool_decide (choice = Some "Cancel") then (Done None, d1)
    else (Done choice, d1).
Proof.
  cbv zeta. simpl migrationLoop. rewrite andThen_run.
  unfold showWarningMessageWith at 1.
  destruct (bool_decide (_ = Some "Undeploy")); [reflexivity|].
  destruct (bool_decide (_ = Some "Help")).
  - rewrite andThen_run. unfold act at 1. simpl. rewrite <- app_assoc. reflexivity.
  - destruct (bool_decide (_ = Some "Cancel")); reflexivity.
Qed.

(** The loop ends with nothing to go on with, unless something throws. *)
Lemma migrationLoop_result c pending d :
  fst (migrationLoop wb c pending d) = Done None
  \/ exists t, fst (migrationLoop wb c pending d) = Failed t.
Proof.
  revert d. induction pending as [|answer remaining IH]; intros d.
  - left. reflexivity.
  - rewrite migrationLoop_turn. cbv zeta.
    destruct (offered ["Undeploy"; "Help"; "Cancel"] answer) as [x|] eqn:Hoff.
    + destruct (offered_migration answer x Hoff) as [ -> | [ -> | -> ] ].
      * rewrite bool_decide_eq_true_2 by reflexivity.
        destruct (undeploy wb (Some c) _) as [[r|t] d1];
          [left; reflexivity | right; eexists; reflexivity].
      * rewrite bool_decide_eq_false_2 by discriminate.
        rewrite bool_decide_eq_true_2 by reflexivity. apply IH.
      * rewrite bool_decide_eq_false_2 by discriminate.
        rewrite bool_decide_eq_false_2 by discriminate.
        rewrite bool_decide_eq_true_2 by reflexivity. left. reflexivity.
    + rewrite !bool_decide_eq_false_2 by discriminate. left. reflexivity.
Qed.

(** [handleMigratedComponent] never throws, and resolves with
    ['Continue'] or with nothing. *)
Lemma handleMigratedComponent_result c d :
  fst (handleMigratedComponent wb c d) = Done None
  \/ fst (handleMigratedComponent wb c d) = Done (Some "Continue").
Proof.
  unfold handleMigratedComponent, tryCatch.
  rewrite andThen_run.
  destruct (execute wb (migratedCommand c) None d) as [[migrated|t] d1];
    [|right; reflexivity].
  rewrite andThen_run. unfold JSON_parse.
  destruct (JSON_parse_truthy wb migrated) as [[|]|];
    [|left; reflexivity|right; reflexivity].
  simpl. destruct (migrationLoop_result c (answers d1) d1) as [H|(t & H)];
    destruct (migrationLoop wb c (answers d1) d1) as [[r|t'] d2]; simpl in H;
    try discriminate.
  - left. simpl. congruence.
  - right. reflexivity.
Qed.

Lemma undeploy_reliable item d :
  reliable wb -> exists r, fst (undeploy wb item d) = Done r.
Proof.
  intros [Hun Hget]. unfold undeploy. rewrite andThen_run. unfold getData.
  destruct (Hget item
              ["From which Project do you want to undeploy Component";
               "From which Application you want to undeploy Component";
               "Select Component to undeploy"]
              (fun c => bool_decide (contextValue c = COMPONENT_PUSHED wb)))
    as (r & ->).
  simpl. destruct r as [c|]; [|eexists; reflexivity].
  rewrite andThen_run. unfold showWarningMessage, showWarningMessageWith.
  destruct (bool_decide (_ = Some "Yes")); [|eexists; reflexivity].
  rewrite andThen_run. unfold act at 1. rewrite andThen_run. unfold act at 1.
  rewrite Hun. eexists. reflexivity.
Qed.

Lemma migrationLoop_reliable c pending d :
  reliable wb -> fst (migrationLoop wb c pending d) = Done None.
Proof.
  intros Hrel. destruct (migrationLoop_result c pending d) as [H|(t & H)];
    [exact H|].
  exfalso. revert d t H. induction pending as [|answer remaining IH]; intros d t.
  - discriminate.
  - rewrite migrationLoop_turn. cbv zeta.
    destruct (bool_decide (_ = Some "Undeploy")).
    + destruct (undeploy_reliable (Some c)
                  (mkDesk remaining (globalState_PUSH d)
                     (journal d ++ [Warned migrationWarning ["Undeploy"; "Help"; "Cancel"]]))
                  Hrel) as (r & Hr).
      destruct (undeploy wb (Some c) _) as [[r'|t'] d2]; simpl in Hr; discriminate.
    + destruct (bool_decide (_ = Some "Help")); [apply IH|].
      destruct (bool_decide (_ = Some "Cancel")); discriminate.
Qed.

(** When nothing throws, the check ends with nothing to go on with. *)
Lemma handleMigratedComponent_checked c d out b :
  reliable wb ->
  kn_execute wb (migratedCommand c) None = inr out ->
  JSON_parse_truthy wb out = Some b ->
  fst (handleMigratedComponent wb c d) = Done None.
Proof.
  intros Hrel Hexec Hparse. unfold handleMigratedComponent, tryCatch.
  rewrite andThen_run. unfold execute. rewrite Hexec.
  rewrite andThen_run. unfold JSON_parse. rewrite Hparse. simpl.
  destruct b; [|reflexivity].
  match goal with |- context [migrationLoop wb c ?p ?d0] =>
    pose proof (migrationLoop_reliable c p d0 Hrel) as H;
    destruct (migrationLoop wb c p d0) as [[r|t] d2] end;
    simpl in H; [|discriminate].
  simpl. exact H.
Qed.

(** When the check throws, it says ['Continue']. *)
Lemma handleMigratedComponent_thrown c d :
  (exists t, kn_execute wb (migratedCommand c) None = inl t)
  \/ (exists out, kn_execute wb (migratedCommand c) None = inr out
                  /\ JSON_parse_truthy wb out = None) ->
  handleMigratedComponent wb c d
  = (Done (Some "Continue"), snd (act (Executed (migratedCommand c) None) d)).
Proof.
  intros [(t & Hexec)|(out & Hexec & Hparse)];
    unfold handleMigratedComponent, tryCatch;
    rewrite andThen_run; unfold execute; rewrite Hexec; [reflexivity|].
  rewrite andThen_run. unfold JSON_parse. rewrite Hparse. reflexivity.
Qed.

Lemma push_run context d :
  push wb context d
  = match getKnativeCmdData wb context
            ["In which Project you want to push the changes";
             "In which Application you want to push the changes";
             "For which Component you want to push the changes"]
            (fun c => bool_decide (contextValue c = COMPONENT_PUSHED wb)
                      || bool_decide (contextValue c = COMPONENT wb)) with
    | inl t => (Failed t, d)
    | inr None => (Done None, d)
    | inr (Some c) =>
        match handleMigratedComponent wb c d with
        | (Done choice, d1) =>
            if negb (Text.truthy choice) then (Done None, d1)
            else
              match contextPath c with
              | Some path =>
                  (Done None,
                   mkDesk (answers d1) (Some (mkPushCmd (pushComponent wb) path))
                          (journal d1 ++ [InTerminal (pushComponent wb) path;
                                          Marked (getName c) (COMPONENT_PUSHED wb);
                                          Refreshed (getName c)]))
              | None => (Failed (Exception TypeError), d1)
              end
        | (Failed t, d1) => (Failed t, d1)
        end
    end.
Proof.
  unfold push. rewrite andThen_run. unfold getData.
  destruct (getKnativeCmdData wb context _ _) as [t|[c|]]; try reflexivity.
  simpl. rewrite andThen_run.
  destruct (handleMigratedComponent wb c d) as [[choice|t] d1]; [|reflexivity].
  destruct (negb (Text.truthy choice)); [reflexivity|].
  rewrite andThen_run. unfold fsPath.
  destruct (contextPath c) as [path|]; [|reflexivity].
  unfold andThen, setPushCmd, done, act. simpl.
  repeat rewrite <- app_assoc. reflexivity.
Qed.

(** When nothing throws, [push] pushes nothing. *)
Lemma push_checked context d :
  reliable wb ->
  (forall command cwd, exists out b,
      kn_execute wb command cwd = inr out /\ JSON_parse_truthy wb out = Some b) ->
  fst (push wb context d) = Done None
  /\ globalState_PUSH (snd (push wb context d)) = globalState_PUSH d
  /\ exists actions,
       journal (snd (push wb context d)) = journal d ++ actions
       /\ Forall (fun a => forall command cwd, a <> InTerminal command cwd) actions.
Proof.
  intros Hrel Hexec. rewrite push_run.
  destruct Hrel as [Hun Hget].
  destruct (Hget context
              ["In which Project you want to push the changes";
               "In which Application you want to push the changes";
               "For which Component you want to push the changes"]
              (fun c => bool_decide (contextValue c = COMPONENT_PUSHED wb)
                        || bool_decide (contextValue c = COMPONENT wb)))
    as (r & ->).
  destruct r as [c|].
  - destruct (Hexec (migratedCommand c) None) as (out & b & Hout & Hb).
    pose proof (handleMigratedComponent_checked c d out b (conj Hun Hget) Hout Hb)
      as Hres.
    destruct (quiet_handleMigratedComponent c d) as (Hg & actions & Hj & Hq).
    destruct (handleMigratedComponent wb c d) as [[choice|t] d1];
      simpl in Hres, Hg, Hj; [|discriminate].
    injection Hres as ->. simpl.
    split; [reflexivity|]. split; [exact Hg|]. exists actions. split; assumption.
  - simpl. split; [reflexivity|]. split; [reflexivity|].
    exists []. rewrite app_nil_r. split; [reflexivity | constructor].
Qed.

(** When the check throws, [push] pushes, and [lastPush] pushes again. *)
Lemma push_thrown context c path d :
  (forall placeholders filter,
      getKnativeCmdData wb context placeholders filter = inr (Some c)) ->
  (exists t, kn_execute wb (migratedCommand c) None = inl t)
  \/ (exists out, kn_execute wb (migratedCommand c) None = inr out
                  /\ JSON_parse_truthy wb out = None) ->
  contextPath c = Some path ->
  let d' := mkDesk (answers d) (Some (mkPushCmd (pushComponent wb) path))
              (journal d ++ [Executed (migratedCommand c) None;
                             InTerminal (pushComponent wb) path;
                             Marked (getName c) (COMPONENT_PUSHED wb);
                             Refreshed (getName c)]) in
  push wb context d = (Done None, d')
  /\ (pushComponent wb <> "" -> path <> "" ->
      lastPush d'
      = (Done tt, snd (act (InTerminal (pushComponent wb) path) d'))).
Proof.
  intros Hget Hthrown Hpath. cbv zeta. split.
  - rewrite push_run, Hget.
    rewrite (handleMigratedComponent_thrown c d Hthrown). simpl.
    rewrite Hpath. rewrite <- app_assoc. reflexivity.
  - intros Hcmd Hp. unfold lastPush. rewrite andThen_run. simpl.
    rewrite !bool_decide_eq_false_2 by assumption. reflexivity.
Qed.

End Migration.

(** X16. The ports that [linkComponent] offers are the fields of the
    trimmed output of the port listing that a comma ends: when the trimmed
    output is [f1,...,fn,rest] (no comma inside a field), the ports are
    [f1] to [fn], and [rest], what follows the last comma, is no port.
    Every output is of that form. *)
Theorem linkComponent_ports (stdout : string) :
  (forall fields dropped,
      Forall (fun p => ","%char ∉ p) (fields ++ [dropped]) ->
      Text.trim (Text.chars stdout) = join ","%char (fields ++ [dropped]) ->
      Component.portsOf stdout = Text.text <$> fields)
  /\ exists fields dropped,
       Forall (fun p => ","%char ∉ p) (fields ++ [dropped])
       /\ Text.trim (Text.chars stdout) = join ","%char (fields ++ [dropped]).
Proof.
  split.
  - intros fields dropped. apply portsOf_fields.
  - apply fields_exist.
Qed.

(** X17. How [linkComponent] comes to the port, by the output of the port
    listing [f1,...,fn,rest]: without a comma ([n = 0], even when the output
    names a port) the command is rejected with [has no Ports declared] and
    nothing is asked; with one comma the port is [f1] and nothing is asked;
    with more the user picks among [f1] to [fn]. *)
Theorem linkComponent_port_choice (component : Component.TreeObject)
  (stdout : string) (fields : list (list ascii)) (dropped : list ascii)
  (d : Component.Desk) :
  Forall (fun p => ","%char ∉ p) (fields ++ [dropped]) ->
  Text.trim (Text.chars stdout) = join ","%char (fields ++ [dropped]) ->
  Component.selectPort component stdout d
  = match fields with
    | [] => (Component.Failed
               (Component.Reason ("Component '" +:+ Component.getName component
                                  +:+ "' has no Ports declared.")), d)
    | [p] => (Component.Done (Some (Text.text p)), d)
    | _ => Component.showQuickPick (Text.text <$> fields) "Select Port to link" d
    end.
Proof. apply selectPort_fields. Qed.

Lemma linkComponent_port_choice_witness :
  Component.selectPort Component.frontend "8080/TCP " (Component.mkDesk [] None [])
  = (Component.Failed
       (Component.Reason "Component 'frontend' has no Ports declared."),
     Component.mkDesk [] None []).
Proof.
  apply (linkComponent_port_choice Component.frontend _ [] (Text.chars "8080/TCP")).
  - repeat constructor. vm_compute. intros H.
    repeat (apply elem_of_cons in H as [H|H]; [discriminate|]).
    apply elem_of_nil in H. exact H.
  - reflexivity.
Defined.

(** X18. [handleMigratedComponent] never throws: whatever the commands
    and the user do, it resolves, with ['Continue'] or with nothing
    ([null] or [undefined]); it leaves the stored push command as it is and
    runs nothing in the terminal. *)
Theorem handleMigratedComponent_outcome (wb : Component.Workbench)
  (component : Component.TreeObject) (d : Component.Desk) :
  let result := Component.handleMigratedComponent wb component d in
  (fst result = Component.Done None
   \/ fst result = Component.Done (Some "Continue"))
  /\ Component.globalState_PUSH (snd result) = Component.globalState_PUSH d
  /\ exists actions,
       Component.journal (snd result) = Component.journal d ++ actions
       /\ Forall (fun a => forall command cwd, a <> Component.InTerminal command cwd)
            actions.
Proof.
  cbv zeta. split; [apply handleMigratedComponent_result|].
  apply quiet_handleMigratedComponent.
Qed.

(** X19. [push] goes on only after an exception. When nothing throws (the
    commands resolve, their output is a JSON text, [getKnativeCmdData] and
    [undeployComponent] resolve), [push] resolves without storing a push
    command and without running anything in the terminal, whether the
    migration label is true or false and whatever the user answers. *)
Theorem push_needs_exception (wb : Component.Workbench)
  (context : option Component.TreeObject) (d : Component.Desk) :
  reliable wb ->
  (forall command cwd, exists out b,
      Component.kn_execute wb command cwd = inr out
      /\ Component.JSON_parse_truthy wb out = Some b) ->
  fst (Component.push wb context d) = Component.Done None
  /\ Component.globalState_PUSH (snd (Component.push wb context d))
     = Component.globalState_PUSH d
  /\ exists actions,
       Component.journal (snd (Component.push wb context d))
       = Component.journal d ++ actions
       /\ Forall (fun a => forall command cwd, a <> Component.InTerminal command cwd)
            actions.
Proof. apply push_checked. Qed.

Lemma push_needs_exception_witness :
  let d := Component.mkDesk [Some "Help"; Some "Undeploy"; Some "Yes"] None [] in
  fst (Component.push Component.demo (Some Component.frontend) d) = Component.Done None
  /\ Component.globalState_PUSH
       (snd (Component.push Component.demo (Some Component.frontend) d)) = None.
Proof.
  cbv zeta.
  destruct (push_needs_exception Component.demo (Some Component.frontend)
              (Component.mkDesk [Some "Help"; Some "Undeploy"; Some "Yes"] None []))
    as (Hres & Hstate & _).
  - split.
    + intros c. reflexivity.
    + intros context placeholders filter. exists context. reflexivity.
  - intros command cwd. exists "true", true. split; reflexivity.
  - split; [exact Hres | exact Hstate].
Defined.

(** X20. When the migration check throws (the command is rejected, or
    its output is no JSON text), [push] on a component with a context path
    stores the push command with that path and runs it in the terminal
    there; and [lastPush], called next, runs the same command in the same
    directory (neither being the empty string). *)
Theorem push_then_lastPush (wb : Component.Workbench)
  (context : option Component.TreeObject) (component : Component.TreeObject)
  (path : string) (d : Component.Desk) :
  (forall placeholders filter,
      Component.getKnativeCmdData wb context placeholders filter
      = inr (Some component)) ->
  (exists t, Component.kn_execute wb (Component.migratedCommand component) None
             = inl t)
  \/ (exists out,
         Component.kn_execute wb (Component.migratedCommand component) None = inr out
         /\ Component.JSON_parse_truthy wb out = None) ->
  Component.contextPath component = Some path ->
  let d' := Component.mkDesk (Component.answers d)
              (Some (Component.mkPushCmd (Component.pushComponent wb) path))
              (Component.journal d
               ++ [Component.Executed (Component.migratedCommand component) None;
                   Component.InTerminal (Component.pushComponent wb) path;
                   Component.Marked (Component.getName component)
                     (Component.COMPONENT_PUSHED wb);
                   Component.Refreshed (Component.getName component)]) in
  Component.push wb context d = (Component.Done None, d')
  /\ (Component.pushComponent wb <> "" -> path <> "" ->
      Component.lastPush d'
      = (Component.Done tt,
         snd (Component.act
                (Component.InTerminal (Component.pushComponent wb) path) d'))).
Proof. apply push_thrown. Qed.

Lemma push_then_lastPush_witness :
  let d := Component.mkDesk [] None [] in
  fst (Component.push Component.silent (Some Component.frontend) d)
  = Component.Done None
  /\ Component.globalState_PUSH
       (snd (Component.push Component.silent (Some Component.frontend) d))
     = Some (Component.mkPushCmd "odo push" "/work/frontend").
Proof.
  cbv zeta.
  destruct (push_then_lastPush Component.silent (Some Component.frontend)
              Component.frontend "/work/frontend" (Component.mkDesk [] None []))
    as (Hpush & _).
  - reflexivity.
  - right. exists "". split; reflexivity.
  - reflexivity.
  - rewrite Hpush. split; reflexivity.
Defined.

(** ** Opening the URL of a component *)

Section OpenUrl.
Import Component.
Context (wb : Workbench).










End OpenUrl.

